(** * Celestia observer: frame-consistent camera state and journeys

    A shallow embedding of [src/celengine/observer.cpp] and
    [src/celengine/observer.h].

    Numbers.  The C++ [double] and [float] values are idealised as real
    numbers ([R]): [static_cast<float>] and [cast<double>] are the
    identity, comparisons are the exact ones, and no rounding, infinity or
    NaN exists.  Division is the one of [R], so a quotient whose divisor
    is zero is only meaningful under a hypothesis that excludes it.

    Collaborators.  Bodies, stars, deep-sky objects, locations, the
    reference-frame conversions, [LookAt], the quaternion [slerp] and
    [setFromTwoVectors], and the bounds check of [UniversalCoord] live
    outside [observer.cpp]; they are fields of the classes
    [CelestialObjects] and [Collaborators], and the definitions and the
    general theorems are parametric in them.  The module [StaticWorld]
    instantiates them with a small universe of static bodies, in which
    the closed examples of [StaticFacts] and [MoreStaticFacts] are
    proved; [BinaryWorld] is a universe with one multiple-star system.

    Pointers.  An [ObserverFrame::SharedConstPtr] is an address paired
    with the immutable frame it points at; operations that allocate a
    frame take the address returned by [new] as the argument [fresh]. *)

From Stdlib Require Import Reals Lra Lia List Bool ZArith String.
Import ListNotations.
Open Scope R_scope.

(* ------------------------------------------------------------------ *)
(** ** Eigen vectors *)

Record Vector3d : Type := mkVector3d { vx : R; vy : R; vz : R }.

Module Vec.

Definition Zero : Vector3d := mkVector3d 0 0 0.
Definition UnitY : Vector3d := mkVector3d 0 1 0.
Definition UnitZ : Vector3d := mkVector3d 0 0 1.

Definition add (a b : Vector3d) : Vector3d :=
  mkVector3d (vx a + vx b) (vy a + vy b) (vz a + vz b).
Definition sub (a b : Vector3d) : Vector3d :=
  mkVector3d (vx a - vx b) (vy a - vy b) (vz a - vz b).
Definition neg (a : Vector3d) : Vector3d :=
  mkVector3d (- vx a) (- vy a) (- vz a).
(** [v * s] *)
Definition scale (a : Vector3d) (s : R) : Vector3d :=
  mkVector3d (vx a * s) (vy a * s) (vz a * s).
(** [v / s] *)
Definition divide (a : Vector3d) (s : R) : Vector3d :=
  mkVector3d (vx a / s) (vy a / s) (vz a / s).
Definition dot (a b : Vector3d) : R :=
  vx a * vx b + vy a * vy b + vz a * vz b.
Definition cross (a b : Vector3d) : Vector3d :=
  mkVector3d (vy a * vz b - vz a * vy b)
             (vz a * vx b - vx a * vz b)
             (vx a * vy b - vy a * vx b).
Definition squaredNorm (a : Vector3d) : R := dot a a.
Definition norm (a : Vector3d) : R := sqrt (squaredNorm a).

(** Eigen's [normalized()] and [normalize()]: the vector is divided by
    its norm when the squared norm is positive and returned as it is
    otherwise. *)
Definition normalized (a : Vector3d) : Vector3d :=
  if Rlt_dec 0 (squaredNorm a) then divide a (norm a) else a.

Definition eq_dec (a b : Vector3d) : {a = b} + {a <> b}.
Proof.
  destruct a as [a1 a2 a3], b as [b1 b2 b3].
  destruct (Req_dec_T a1 b1) as [E1 | N1];
    [ | right; intros H; injection H; intros; contradiction ].
  destruct (Req_dec_T a2 b2) as [E2 | N2];
    [ | right; intros H; injection H; intros; contradiction ].
  destruct (Req_dec_T a3 b3) as [E3 | N3];
    [ | right; intros H; injection H; intros; contradiction ].
  left; subst; reflexivity.
Defined.

End Vec.

(* ------------------------------------------------------------------ *)
(** ** Eigen quaternions *)

Record Quaterniond : Type := mkQuaterniond { qw : R; qx : R; qy : R; qz : R }.

Module Quat.

Definition Identity : Quaterniond := mkQuaterniond 1 0 0 0.

Definition vec (q : Quaterniond) : Vector3d := mkVector3d (qx q) (qy q) (qz q).

Definition conjugate (q : Quaterniond) : Quaterniond :=
  mkQuaterniond (qw q) (- qx q) (- qy q) (- qz q).

(** Hamilton product [a * b]. *)
Definition mul (a b : Quaterniond) : Quaterniond :=
  mkQuaterniond
    (qw a * qw b - qx a * qx b - qy a * qy b - qz a * qz b)
    (qw a * qx b + qx a * qw b + qy a * qz b - qz a * qy b)
    (qw a * qy b + qy a * qw b + qz a * qx b - qx a * qz b)
    (qw a * qz b + qz a * qw b + qx a * qy b - qy a * qx b).

Definition squaredNorm (q : Quaterniond) : R :=
  qw q * qw q + qx q * qx q + qy q * qy q + qz q * qz q.
Definition norm (q : Quaterniond) : R := sqrt (squaredNorm q).

(** [q.normalize()]: as for vectors, a zero quaternion is left alone. *)
Definition normalized (q : Quaterniond) : Quaterniond :=
  if Rlt_dec 0 (squaredNorm q)
  then mkQuaterniond (qw q / norm q) (qx q / norm q) (qy q / norm q) (qz q / norm q)
  else q.

(** [Quaterniond(a.coeffs() + s * b.coeffs())] *)
Definition addScaled (a : Quaterniond) (s : R) (b : Quaterniond) : Quaterniond :=
  mkQuaterniond (qw a + s * qw b) (qx a + s * qx b)
                (qy a + s * qy b) (qz a + s * qz b).

(** [q * v], Eigen's [_transformVector]:
    [uv = 2 (q.vec x v)], result [v + w uv + q.vec x uv]. *)
Definition rotate (q : Quaterniond) (v : Vector3d) : Vector3d :=
  let uv := Vec.cross (vec q) v in
  let uv2 := Vec.add uv uv in
  Vec.add (Vec.add v (Vec.scale uv2 (qw q))) (Vec.cross (vec q) uv2).

End Quat.

(* ------------------------------------------------------------------ *)
(** ** High-precision coordinates *)

(** Modelled from the spec: [UniversalCoord] (celengine/univcoord.h),
    whose source is not available.  The spec describes it as a 3-D point
    supporting the addition of a relative offset ([offsetKm]), a
    subtraction producing a relative vector ([offsetFromKm]) and a bounds
    check ([isOutOfBounds], a field of [Collaborators] below).  Its
    fixed-point components are idealised as reals measured in km. *)
Record UniversalCoord : Type := mkUniversalCoord { ux : R; uy : R; uz : R }.

Module UC.

Definition Zero : UniversalCoord := mkUniversalCoord 0 0 0.

Definition offsetKm (p : UniversalCoord) (v : Vector3d) : UniversalCoord :=
  mkUniversalCoord (ux p + vx v) (uy p + vy v) (uz p + vz v).

(** [p.offsetFromKm(q)] is the vector from [q] to [p]. *)
Definition offsetFromKm (p q : UniversalCoord) : Vector3d :=
  mkVector3d (ux p - ux q) (uy p - uy q) (uz p - uz q).

End UC.

(** [std::clamp(v, lo, hi)] *)
Definition clamp (v lo hi : R) : R :=
  if Rlt_dec v lo then lo else if Rlt_dec hi v then hi else v.

(** [celmath::lerp(t, a, b)] *)
Definition lerp (t a b : R) : R := a + t * (b - a).

(** [std::min] and [std::max] as the C++ library defines them. *)
Definition minR (a b : R) : R := if Rlt_dec b a then b else a.
Definition maxR (a b : R) : R := if Rlt_dec a b then b else a.

(** The file-local [slerp] of two vectors.  The cosine is passed to
    [acos] as it is; for parallel vectors it is exactly 1 here, whereas
    the rounded quotient of the program may exceed 1, so the statements
    about [slerp] concern vectors that are not parallel. *)
Definition slerp (t : R) (v0 v1 : Vector3d) : Vector3d :=
  let r0 := Vec.norm v0 in
  let r1 := Vec.norm v1 in
  let u := Vec.divide v0 r0 in
  let n := Vec.normalized (Vec.cross u (Vec.divide v1 r1)) in
  let v := Vec.cross n u in
  let v := if Rlt_dec (Vec.dot v v1) 0 then Vec.neg v else v in
  let cosTheta := Vec.dot u (Vec.divide v1 r1) in
  let theta := acos cosTheta in
  Vec.scale (Vec.add (Vec.scale u (cos (theta * t))) (Vec.scale v (sin (theta * t))))
            (lerp t r0 r1).

Definition maximumSimTime : R := 730486721060.00073.
Definition minimumSimTime : R := -730498278941.99951.
Definition VELOCITY_CHANGE_TIME : R := 0.25.

(* ------------------------------------------------------------------ *)
(** ** Selections and the objects behind them *)

(** The catalogue objects a [Selection] may point at, with the accessors
    [observer.cpp] calls on them.  A null pointer result is [None]. *)
Class CelestialObjects : Type := {
  Body : Type;
  Star : Type;
  DeepSky : Type;
  Location : Type;
  PlanetarySystem : Type;
  (** [body->getClassification() == Body::Invisible] *)
  body_isInvisible : Body -> bool;
  body_getRadius : Body -> R;
  (** [body->getFrameTree()->boundingSphereRadius()], [None] without a tree *)
  body_frameTreeRadius : Body -> option R;
  body_getSystem : Body -> option PlanetarySystem;
  system_getPrimaryBody : PlanetarySystem -> option Body;
  system_getStar : PlanetarySystem -> option Star;
  body_getPosition : Body -> R -> UniversalCoord;
  star_getVisibility : Star -> bool;
  star_getRadius : Star -> R;
  star_getOrbitingStars : Star -> option (list Star);
  (** [star->getOrbit()->getBoundingRadius()], [None] without an orbit *)
  star_orbitBoundingRadius : Star -> option R;
  star_getPosition : Star -> R -> UniversalCoord;
  deepsky_getRadius : DeepSky -> R;
  deepsky_getPosition : DeepSky -> R -> UniversalCoord;
  location_getParentBody : Location -> option Body;
  location_getSize : Location -> R;
  location_getBoundingRadius : Location -> R;
  location_getPosition : Location -> R -> UniversalCoord;
  (** [astro::lightYearsToKilometers] and [astro::AUtoKilometers] *)
  lightYearsToKilometers : R -> R;
  AUtoKilometers : R -> R
}.

Section Selections.
Context {O : CelestialObjects}.

(** Modelled from the spec: [Selection] (celengine/selection.h), whose
    source is not available.  The spec describes it as an abstraction
    exposing [getPosition(time)], [radius()], [empty()] and a type among
    body, star, deep-sky object and location; the empty selection stands
    for the barycentre, the origin of the universal coordinates. *)
Inductive Selection : Type :=
| Sel_Nil
| Sel_Body (b : Body)
| Sel_Star (s : Star)
| Sel_DeepSky (d : DeepSky)
| Sel_Location (l : Location).

Definition sel_empty (s : Selection) : bool :=
  match s with Sel_Nil => true | _ => false end.

Definition sel_body (s : Selection) : option Body :=
  match s with Sel_Body b => Some b | _ => None end.
Definition sel_star (s : Selection) : option Star :=
  match s with Sel_Star b => Some b | _ => None end.
Definition sel_location (s : Selection) : option Location :=
  match s with Sel_Location b => Some b | _ => None end.

(** The constructors of [Selection] from a body or star pointer: a null
    pointer gives the empty selection. *)
Definition Selection_of_body (b : option Body) : Selection :=
  match b with Some b => Sel_Body b | None => Sel_Nil end.
Definition Selection_of_star (s : option Star) : Selection :=
  match s with Some s => Sel_Star s | None => Sel_Nil end.

Definition sel_getPosition (s : Selection) (t : R) : UniversalCoord :=
  match s with
  | Sel_Nil => UC.Zero
  | Sel_Body b => body_getPosition b t
  | Sel_Star s => star_getPosition s t
  | Sel_DeepSky d => deepsky_getPosition d t
  | Sel_Location l => location_getPosition l t
  end.

Definition sel_radius (s : Selection) : R :=
  match s with
  | Sel_Nil => 0
  | Sel_Body b => body_getRadius b
  | Sel_Star s => star_getRadius s
  | Sel_DeepSky d => deepsky_getRadius d
  | Sel_Location l => location_getBoundingRadius l
  end.

(* ------------------------------------------------------------------ *)
(** ** Reference frames *)

(** Modelled from the spec: the [ReferenceFrame] hierarchy
    (celengine/frame.h), whose source is not available.  The spec
    lists its variants (inertial J2000-ecliptic, body-mean-equator,
    body-fixed and two-vector frames), each anchored to a centre
    selection; the constructors below carry the arguments that
    [ObserverFrame::createFrame] passes. *)
Inductive ReferenceFrame : Type :=
| J2000EclipticFrame (center : Selection)
| BodyMeanEquatorFrame (center obj : Selection)
| BodyFixedFrame (center obj : Selection)
| TwoVectorFrame (center : Selection)
                 (prim : FrameVector) (primAxis : Z)
                 (sec : FrameVector) (secAxis : Z)
with FrameVector : Type :=
| RelativePositionVector (observer target : Selection)
| RelativeVelocityVector (observer target : Selection)
| ConstantVector (v : Vector3d) (frame : ReferenceFrame).

(** [ReferenceFrame::getCenter()] *)
Definition getCenter (f : ReferenceFrame) : Selection :=
  match f with
  | J2000EclipticFrame c => c
  | BodyMeanEquatorFrame c _ => c
  | BodyFixedFrame c _ => c
  | TwoVectorFrame c _ _ _ _ => c
  end.

End Selections.

(** What [observer.cpp] consumes from the frame library, from celmath and
    from Eigen, beyond the operations defined above. *)
Class Collaborators {O : CelestialObjects} : Type := {
  (** [Selection::parent()] *)
  sel_parent : Selection -> Selection;
  (** [UniversalCoord::isOutOfBounds()] *)
  isOutOfBounds : UniversalCoord -> bool;
  (** [ReferenceFrame::convertToUniversal] and [convertFromUniversal] on
      coordinates and on orientations, and [getOrientation] *)
  rf_toUniversal : ReferenceFrame -> UniversalCoord -> R -> UniversalCoord;
  rf_fromUniversal : ReferenceFrame -> UniversalCoord -> R -> UniversalCoord;
  rf_toUniversalQ : ReferenceFrame -> Quaterniond -> R -> Quaterniond;
  rf_fromUniversalQ : ReferenceFrame -> Quaterniond -> R -> Quaterniond;
  rf_getOrientation : ReferenceFrame -> R -> Quaterniond;
  (** [celmath::LookAt<double>(from, to, up)] *)
  LookAt : Vector3d -> Vector3d -> Vector3d -> Quaterniond;
  (** Eigen's [q0.slerp(t, q1)] *)
  quat_slerp : Quaterniond -> R -> Quaterniond -> Quaterniond;
  (** Eigen's [q.setFromTwoVectors(a, b)] *)
  setFromTwoVectors : Vector3d -> Vector3d -> Quaterniond
}.

(* ------------------------------------------------------------------ *)
(** ** ObserverFrame *)

Inductive CoordinateSystem : Type :=
| Universal | Ecliptical | Equatorial | BodyFixed | PhaseLock | Chase
| PhaseLock_Old | Chase_Old | ObserverLocal | Unknown.

Definition CoordinateSystem_eq_dec (a b : CoordinateSystem) : {a = b} + {a <> b}.
Proof. decide equality. Defined.

Inductive ObserverMode : Type := Free | Travelling.

Definition ObserverMode_eq_dec (a b : ObserverMode) : {a = b} + {a <> b}.
Proof. decide equality. Defined.

Inductive TrajectoryType : Type := Linear | GreatCircle | CircularOrbit.

Section Frames.
Context {O : CelestialObjects} {C : Collaborators}.

Record ObserverFrame : Type := mkObserverFrame {
  coordSys : CoordinateSystem;
  of_frame : ReferenceFrame;
  targetObject : Selection
}.

(** [ObserverFrame::createFrame] *)
Definition createFrame (_coordSys : CoordinateSystem)
           (_refObject _targetObject : Selection) : ReferenceFrame :=
  match _coordSys with
  | Universal => J2000EclipticFrame Sel_Nil
  | Ecliptical => J2000EclipticFrame _refObject
  | Equatorial => BodyMeanEquatorFrame _refObject _refObject
  | BodyFixed => BodyFixedFrame _refObject _refObject
  | PhaseLock =>
      TwoVectorFrame _refObject
        (RelativePositionVector _refObject _targetObject) 1
        (RelativeVelocityVector _refObject _targetObject) 2
  | Chase =>
      TwoVectorFrame _refObject
        (RelativeVelocityVector _refObject (sel_parent _refObject)) 1
        (RelativePositionVector _refObject (sel_parent _refObject)) 2
  | PhaseLock_Old =>
      let rotAxis :=
        ConstantVector Vec.UnitY (BodyMeanEquatorFrame _refObject _refObject) in
      TwoVectorFrame _refObject
        (RelativePositionVector _refObject _targetObject) 3
        rotAxis 2
  | Chase_Old =>
      let rotAxis :=
        ConstantVector Vec.UnitY (BodyMeanEquatorFrame _refObject _refObject) in
      TwoVectorFrame _refObject
        (RelativeVelocityVector (sel_parent _refObject) _refObject) 3
        rotAxis 2
  | ObserverLocal => J2000EclipticFrame Sel_Nil
  | Unknown => J2000EclipticFrame _refObject
  end.

(** [ObserverFrame::ObserverFrame()] *)
Definition ObserverFrame_default : ObserverFrame :=
  mkObserverFrame Universal (createFrame Universal Sel_Nil Sel_Nil) Sel_Nil.

(** [ObserverFrame::ObserverFrame(cs, refObject, targetObject)] *)
Definition ObserverFrame_new (_coordSys : CoordinateSystem)
           (_refObject _targetObject : Selection) : ObserverFrame :=
  mkObserverFrame _coordSys (createFrame _coordSys _refObject _targetObject)
                  _targetObject.

(** [ObserverFrame::ObserverFrame(const ReferenceFrame::SharedConstPtr&)] *)
Definition ObserverFrame_of_frame (f : ReferenceFrame) : ObserverFrame :=
  mkObserverFrame Unknown f Sel_Nil.

Definition getCoordinateSystem (f : ObserverFrame) : CoordinateSystem := coordSys f.
Definition getRefObject (f : ObserverFrame) : Selection := getCenter (of_frame f).
Definition getTargetObject (f : ObserverFrame) : Selection := targetObject f.
Definition getFrame (f : ObserverFrame) : ReferenceFrame := of_frame f.

Definition convertFromUniversal (f : ObserverFrame) (uc : UniversalCoord) (tjd : R)
  : UniversalCoord := rf_fromUniversal (of_frame f) uc tjd.
Definition convertToUniversal (f : ObserverFrame) (uc : UniversalCoord) (tjd : R)
  : UniversalCoord := rf_toUniversal (of_frame f) uc tjd.
Definition convertFromUniversalQ (f : ObserverFrame) (q : Quaterniond) (tjd : R)
  : Quaterniond := rf_fromUniversalQ (of_frame f) q tjd.
Definition convertToUniversalQ (f : ObserverFrame) (q : Quaterniond) (tjd : R)
  : Quaterniond := rf_toUniversalQ (of_frame f) q tjd.

(** [ObserverFrame::convert] on positions: fromFrame -> universal -> toFrame *)
Definition convert (fromFrame toFrame : ObserverFrame) (uc : UniversalCoord) (t : R)
  : UniversalCoord :=
  convertFromUniversal toFrame (convertToUniversal fromFrame uc t) t.

(** [ObserverFrame::convert] on orientations *)
Definition convertQ (fromFrame toFrame : ObserverFrame) (q : Quaterniond) (t : R)
  : Quaterniond :=
  convertFromUniversalQ toFrame (convertToUniversalQ fromFrame q t) t.

(** [ObserverFrame::SharedConstPtr]: a shared pointer is the address of
    the frame object together with the (immutable) object it points
    at.  Two pointers compare equal when their addresses do. *)
Record FramePtr : Type := mkFramePtr {
  ptr_address : nat;
  ptr_target : ObserverFrame
}.

Definition ptr_eqb (a b : FramePtr) : bool :=
  Nat.eqb (ptr_address a) (ptr_address b).

(* ------------------------------------------------------------------ *)
(** ** Observer state *)

Record JourneyParams : Type := mkJourneyParams {
  duration : R;
  startTime : R;
  from : UniversalCoord;
  to : UniversalCoord;
  initialOrientation : Quaterniond;
  finalOrientation : Quaterniond;
  startInterpolation : R;
  endInterpolation : R;
  expFactor : R;
  accelTime : R;
  rotation1 : Quaterniond;
  centerObject : Selection;
  traj : TrajectoryType
}.

Record Observer : Type := mkObserver {
  simTime : R;
  position : UniversalCoord;
  orientation : Quaterniond;
  velocity : Vector3d;
  angularVelocity : Vector3d;
  positionUniv : UniversalCoord;
  orientationUniv : Quaterniond;
  frame : FramePtr;
  realTime : R;
  targetSpeed : R;
  targetVelocity : Vector3d;
  initialVelocity : Vector3d;
  beginAccelTime : R;
  observerMode : ObserverMode;
  journey : JourneyParams;
  trackObject : Selection;
  trackingOrientation : Quaterniond;
  fov : R;
  reverseFlag : bool;
  locationFilter : N;
  displayedSurface : string
}.

(** Field assignments. *)
Definition set_duration (x : R) (j : JourneyParams) : JourneyParams :=
  mkJourneyParams x (startTime j) (from j) (to j) (initialOrientation j)
    (finalOrientation j) (startInterpolation j) (endInterpolation j)
    (expFactor j) (accelTime j) (rotation1 j) (centerObject j) (traj j).
Definition set_startTime (x : R) (j : JourneyParams) : JourneyParams :=
  mkJourneyParams (duration j) x (from j) (to j) (initialOrientation j)
    (finalOrientation j) (startInterpolation j) (endInterpolation j)
    (expFactor j) (accelTime j) (rotation1 j) (centerObject j) (traj j).
Definition set_from (x : UniversalCoord) (j : JourneyParams) : JourneyParams :=
  mkJourneyParams (duration j) (startTime j) x (to j) (initialOrientation j)
    (finalOrientation j) (startInterpolation j) (endInterpolation j)
    (expFactor j) (accelTime j) (rotation1 j) (centerObject j) (traj j).
Definition set_to (x : UniversalCoord) (j : JourneyParams) : JourneyParams :=
  mkJourneyParams (duration j) (startTime j) (from j) x (initialOrientation j)
    (finalOrientation j) (startInterpolation j) (endInterpolation j)
    (expFactor j) (accelTime j) (rotation1 j) (centerObject j) (traj j).
Definition set_initialOrientation (x : Quaterniond) (j : JourneyParams) : JourneyParams :=
  mkJourneyParams (duration j) (startTime j) (from j) (to j) x
    (finalOrientation j) (startInterpolation j) (endInterpolation j)
    (expFactor j) (accelTime j) (rotation1 j) (centerObject j) (traj j).
Definition set_finalOrientation (x : Quaterniond) (j : JourneyParams) : JourneyParams :=
  mkJourneyParams (duration j) (startTime j) (from j) (to j) (initialOrientation j)
    x (startInterpolation j) (endInterpolation j)
    (expFactor j) (accelTime j) (rotation1 j) (centerObject j) (traj j).
Definition set_startInterpolation (x : R) (j : JourneyParams) : JourneyParams :=
  mkJourneyParams (duration j) (startTime j) (from j) (to j) (initialOrientation j)
    (finalOrientation j) x (endInterpolation j)
    (expFactor j) (accelTime j) (rotation1 j) (centerObject j) (traj j).
Definition set_endInterpolation (x : R) (j : JourneyParams) : JourneyParams :=
  mkJourneyParams (duration j) (startTime j) (from j) (to j) (initialOrientation j)
    (finalOrientation j) (startInterpolation j) x
    (expFactor j) (accelTime j) (rotation1 j) (centerObject j) (traj j).
Definition set_expFactor (x : R) (j : JourneyParams) : JourneyParams :=
  mkJourneyParams (duration j) (startTime j) (from j) (to j) (initialOrientation j)
    (finalOrientation j) (startInterpolation j) (endInterpolation j)
    x (accelTime j) (rotation1 j) (centerObject j) (traj j).
Definition set_accelTime (x : R) (j : JourneyParams) : JourneyParams :=
  mkJourneyParams (duration j) (startTime j) (from j) (to j) (initialOrientation j)
    (finalOrientation j) (startInterpolation j) (endInterpolation j)
    (expFactor j) x (rotation1 j) (centerObject j) (traj j).
Definition set_rotation1 (x : Quaterniond) (j : JourneyParams) : JourneyParams :=
  mkJourneyParams (duration j) (startTime j) (from j) (to j) (initialOrientation j)
    (finalOrientation j) (startInterpolation j) (endInterpolation j)
    (expFactor j) (accelTime j) x (centerObject j) (traj j).
Definition set_centerObject (x : Selection) (j : JourneyParams) : JourneyParams :=
  mkJourneyParams (duration j) (startTime j) (from j) (to j) (initialOrientation j)
    (finalOrientation j) (startInterpolation j) (endInterpolation j)
    (expFactor j) (accelTime j) (rotation1 j) x (traj j).
Definition set_traj (x : TrajectoryType) (j : JourneyParams) : JourneyParams :=
  mkJourneyParams (duration j) (startTime j) (from j) (to j) (initialOrientation j)
    (finalOrientation j) (startInterpolation j) (endInterpolation j)
    (expFactor j) (accelTime j) (rotation1 j) (centerObject j) x.

Definition set_simTime (x : R) (o : Observer) : Observer :=
  mkObserver x (position o) (orientation o) (velocity o) (angularVelocity o)
    (positionUniv o) (orientationUniv o) (frame o) (realTime o) (targetSpeed o)
    (targetVelocity o) (initialVelocity o) (beginAccelTime o) (observerMode o)
    (journey o) (trackObject o) (trackingOrientation o) (fov o) (reverseFlag o)
    (locationFilter o) (displayedSurface o).
Definition set_position (x : UniversalCoord) (o : Observer) : Observer :=
  mkObserver (simTime o) x (orientation o) (velocity o) (angularVelocity o)
    (positionUniv o) (orientationUniv o) (frame o) (realTime o) (targetSpeed o)
    (targetVelocity o) (initialVelocity o) (beginAccelTime o) (observerMode o)
    (journey o) (trackObject o) (trackingOrientation o) (fov o) (reverseFlag o)
    (locationFilter o) (displayedSurface o).
Definition set_orientation (x : Quaterniond) (o : Observer) : Observer :=
  mkObserver (simTime o) (position o) x (velocity o) (angularVelocity o)
    (positionUniv o) (orientationUniv o) (frame o) (realTime o) (targetSpeed o)
    (targetVelocity o) (initialVelocity o) (beginAccelTime o) (observerMode o)
    (journey o) (trackObject o) (trackingOrientation o) (fov o) (reverseFlag o)
    (locationFilter o) (displayedSurface o).
Definition set_velocity (x : Vector3d) (o : Observer) : Observer :=
  mkObserver (simTime o) (position o) (orientation o) x (angularVelocity o)
    (positionUniv o) (orientationUniv o) (frame o) (realTime o) (targetSpeed o)
    (targetVelocity o) (initialVelocity o) (beginAccelTime o) (observerMode o)
    (journey o) (trackObject o) (trackingOrientation o) (fov o) (reverseFlag o)
    (locationFilter o) (displayedSurface o).
Definition set_positionUniv (x : UniversalCoord) (o : Observer) : Observer :=
  mkObserver (simTime o) (position o) (orientation o) (velocity o) (angularVelocity o)
    x (orientationUniv o) (frame o) (realTime o) (targetSpeed o)
    (targetVelocity o) (initialVelocity o) (beginAccelTime o) (observerMode o)
    (journey o) (trackObject o) (trackingOrientation o) (fov o) (reverseFlag o)
    (locationFilter o) (displayedSurface o).
Definition set_orientationUniv (x : Quaterniond) (o : Observer) : Observer :=
  mkObserver (simTime o) (position o) (orientation o) (velocity o) (angularVelocity o)
    (positionUniv o) x (frame o) (realTime o) (targetSpeed o)
    (targetVelocity o) (initialVelocity o) (beginAccelTime o) (observerMode o)
    (journey o) (trackObject o) (trackingOrientation o) (fov o) (reverseFlag o)
    (locationFilter o) (displayedSurface o).
Definition set_frame (x : FramePtr) (o : Observer) : Observer :=
  mkObserver (simTime o) (position o) (orientation o) (velocity o) (angularVelocity o)
    (positionUniv o) (orientationUniv o) x (realTime o) (targetSpeed o)
    (targetVelocity o) (initialVelocity o) (beginAccelTime o) (observerMode o)
    (journey o) (trackObject o) (trackingOrientation o) (fov o) (reverseFlag o)
    (locationFilter o) (displayedSurface o).
Definition set_realTime (x : R) (o : Observer) : Observer :=
  mkObserver (simTime o) (position o) (orientation o) (velocity o) (angularVelocity o)
    (positionUniv o) (orientationUniv o) (frame o) x (targetSpeed o)
    (targetVelocity o) (initialVelocity o) (beginAccelTime o) (observerMode o)
    (journey o) (trackObject o) (trackingOrientation o) (fov o) (reverseFlag o)
    (locationFilter o) (displayedSurface o).
Definition set_observerMode (x : ObserverMode) (o : Observer) : Observer :=
  mkObserver (simTime o) (position o) (orientation o) (velocity o) (angularVelocity o)
    (positionUniv o) (orientationUniv o) (frame o) (realTime o) (targetSpeed o)
    (targetVelocity o) (initialVelocity o) (beginAccelTime o) x
    (journey o) (trackObject o) (trackingOrientation o) (fov o) (reverseFlag o)
    (locationFilter o) (displayedSurface o).
Definition set_journey (x : JourneyParams) (o : Observer) : Observer :=
  mkObserver (simTime o) (position o) (orientation o) (velocity o) (angularVelocity o)
    (positionUniv o) (orientationUniv o) (frame o) (realTime o) (targetSpeed o)
    (targetVelocity o) (initialVelocity o) (beginAccelTime o) (observerMode o)
    x (trackObject o) (trackingOrientation o) (fov o) (reverseFlag o)
    (locationFilter o) (displayedSurface o).
Definition set_trackObject (x : Selection) (o : Observer) : Observer :=
  mkObserver (simTime o) (position o) (orientation o) (velocity o) (angularVelocity o)
    (positionUniv o) (orientationUniv o) (frame o) (realTime o) (targetSpeed o)
    (targetVelocity o) (initialVelocity o) (beginAccelTime o) (observerMode o)
    (journey o) x (trackingOrientation o) (fov o) (reverseFlag o)
    (locationFilter o) (displayedSurface o).
Definition set_targetSpeed (x : R) (o : Observer) : Observer :=
  mkObserver (simTime o) (position o) (orientation o) (velocity o) (angularVelocity o)
    (positionUniv o) (orientationUniv o) (frame o) (realTime o) x
    (targetVelocity o) (initialVelocity o) (beginAccelTime o) (observerMode o)
    (journey o) (trackObject o) (trackingOrientation o) (fov o) (reverseFlag o)
    (locationFilter o) (displayedSurface o).
Definition set_targetVelocity (x : Vector3d) (o : Observer) : Observer :=
  mkObserver (simTime o) (position o) (orientation o) (velocity o) (angularVelocity o)
    (positionUniv o) (orientationUniv o) (frame o) (realTime o) (targetSpeed o)
    x (initialVelocity o) (beginAccelTime o) (observerMode o)
    (journey o) (trackObject o) (trackingOrientation o) (fov o) (reverseFlag o)
    (locationFilter o) (displayedSurface o).
Definition set_initialVelocity (x : Vector3d) (o : Observer) : Observer :=
  mkObserver (simTime o) (position o) (orientation o) (velocity o) (angularVelocity o)
    (positionUniv o) (orientationUniv o) (frame o) (realTime o) (targetSpeed o)
    (targetVelocity o) x (beginAccelTime o) (observerMode o)
    (journey o) (trackObject o) (trackingOrientation o) (fov o) (reverseFlag o)
    (locationFilter o) (displayedSurface o).
Definition set_beginAccelTime (x : R) (o : Observer) : Observer :=
  mkObserver (simTime o) (position o) (orientation o) (velocity o) (angularVelocity o)
    (positionUniv o) (orientationUniv o) (frame o) (realTime o) (targetSpeed o)
    (targetVelocity o) (initialVelocity o) x (observerMode o)
    (journey o) (trackObject o) (trackingOrientation o) (fov o) (reverseFlag o)
    (locationFilter o) (displayedSurface o).
Definition set_trackingOrientation (x : Quaterniond) (o : Observer) : Observer :=
  mkObserver (simTime o) (position o) (orientation o) (velocity o) (angularVelocity o)
    (positionUniv o) (orientationUniv o) (frame o) (realTime o) (targetSpeed o)
    (targetVelocity o) (initialVelocity o) (beginAccelTime o) (observerMode o)
    (journey o) (trackObject o) x (fov o) (reverseFlag o)
    (locationFilter o) (displayedSurface o).

End Frames.

(* ------------------------------------------------------------------ *)
(** ** Observer operations *)

Section Operations.
Context {O : CelestialObjects} {C : Collaborators}.

Definition getTime (o : Observer) : R := simTime o.
Definition getRealTime (o : Observer) : R := realTime o.
Definition getPosition (o : Observer) : UniversalCoord := positionUniv o.
Definition getOrientation (o : Observer) : Quaterniond := orientationUniv o.
Definition getVelocity (o : Observer) : Vector3d := velocity o.
Definition setVelocity (v : Vector3d) (o : Observer) : Observer := set_velocity v o.
Definition getAngularVelocity (o : Observer) : Vector3d := angularVelocity o.
Definition getMode (o : Observer) : ObserverMode := observerMode o.
Definition setMode (m : ObserverMode) (o : Observer) : Observer := set_observerMode m o.
Definition getTrackedObject (o : Observer) : Selection := trackObject o.
Definition setTrackedObject (s : Selection) (o : Observer) : Observer :=
  set_trackObject s o.
Definition cancelMotion (o : Observer) : Observer := set_observerMode Free o.

(** [Observer::setTargetSpeed] *)
Definition setTargetSpeed (s : R) (o : Observer) : Observer :=
  let o := set_targetSpeed s o in
  let s := if reverseFlag o then - s else s in
  let o := if sel_empty (trackObject o)
           then set_trackingOrientation (getOrientation o) o else o in
  let v := if sel_empty (trackObject o)
           then Quat.rotate (Quat.conjugate (getOrientation o)) (mkVector3d 0 0 (- s))
           else Quat.rotate (Quat.conjugate (trackingOrientation o))
                            (mkVector3d 0 0 (- s)) in
  let o := set_targetVelocity v o in
  let o := set_initialVelocity (getVelocity o) o in
  set_beginAccelTime (realTime o) o.

(** [Observer::setPosition(const UniversalCoord&)] *)
Definition setPosition (p : UniversalCoord) (o : Observer) : Observer :=
  let o := set_positionUniv p o in
  set_position (convertFromUniversal (ptr_target (frame o)) p (getTime o)) o.

(** [Observer::setOrientation(const Quaterniond&)] *)
Definition setOrientation (q : Quaterniond) (o : Observer) : Observer :=
  let o := set_orientationUniv q o in
  set_orientation (convertFromUniversalQ (ptr_target (frame o)) q (getTime o)) o.

(** [Observer::updateUniversal] *)
Definition updateUniversal (o : Observer) : Observer :=
  let newPositionUniv :=
    convertToUniversal (ptr_target (frame o)) (position o) (simTime o) in
  let o :=
    if isOutOfBounds newPositionUniv
    then set_position
           (convertFromUniversal (ptr_target (frame o)) (positionUniv o) (simTime o)) o
    else set_positionUniv newPositionUniv o in
  set_orientationUniv
    (convertToUniversalQ (ptr_target (frame o)) (orientation o) (simTime o)) o.

(** [Observer::setTime] *)
Definition setTime (jd : R) (o : Observer) : Observer :=
  updateUniversal (set_simTime jd o).

(** [Observer::Observer()].  The members without an initialiser
    ([journey], [positionUniv], [orientationUniv]) start with whatever
    the arguments give; [fresh] is the address of the new frame object. *)
Definition Observer_new (fresh : nat) (journey0 : JourneyParams)
           (positionUniv0 : UniversalCoord) (orientationUniv0 : Quaterniond)
  : Observer :=
  updateUniversal
    (mkObserver 0 (mkUniversalCoord 0 0 0) Quat.Identity Vec.Zero Vec.Zero
       positionUniv0 orientationUniv0 (mkFramePtr fresh ObserverFrame_default)
       0 0 Vec.Zero Vec.Zero 0 Free journey0 Sel_Nil Quat.Identity
       (PI / 4) false (N.ones 64) EmptyString).

(** [Observer::convertFrameCoordinates] *)
Definition convertFrameCoordinates (newFrame : FramePtr) (o : Observer) : Observer :=
  let now := getTime o in
  let nf := ptr_target newFrame in
  let cur := ptr_target (frame o) in
  let o := set_position (convertFromUniversal nf (positionUniv o) now) o in
  let o := set_orientation (convertFromUniversalQ nf (orientationUniv o) now) o in
  let j := journey o in
  let j := set_from (convert cur nf (from j) now) j in
  let j := set_initialOrientation (convertQ cur nf (initialOrientation j) now) j in
  let j := set_to (convert cur nf (to j) now) j in
  let j := set_finalOrientation (convertQ cur nf (finalOrientation j) now) j in
  set_journey j o.

(** [Observer::setFrame(cs, refObj, targetObj)]; [fresh] is the address
    of the frame object that [new] returns. *)
Definition setFrame (fresh : nat) (cs : CoordinateSystem)
           (refObj targetObj : Selection) (o : Observer) : Observer :=
  let newFrame := mkFramePtr fresh (ObserverFrame_new cs refObj targetObj) in
  set_frame newFrame (convertFrameCoordinates newFrame o).

(** [Observer::setFrame(cs, refObj)] *)
Definition setFrame_ref (fresh : nat) (cs : CoordinateSystem)
           (refObj : Selection) (o : Observer) : Observer :=
  setFrame fresh cs refObj Sel_Nil o.

(** [Observer::setFrame(const ObserverFrame::SharedConstPtr&)].  The
    observer of this model always holds a frame, so the null test of the
    current pointer (false only inside [operator=]) always succeeds. *)
Definition setFrame_shared (f : FramePtr) (o : Observer) : Observer :=
  if negb (ptr_eqb (frame o) f)
  then set_frame f (convertFrameCoordinates f o)
  else o.

(** *** The per-tick update *)

(** The fraction of the trip that has elapsed. *)
Definition journeyProgress (j : JourneyParams) (now : R) : R :=
  if Rlt_dec 0 (duration j)
  then clamp ((now - startTime j) / duration j) 0 1
  else 1.

(** The exponential-then-linear travel profile [x]. *)
Definition travelProfile (j : JourneyParams) (t : R) : R :=
  let u := if Rlt_dec t 0.5 then t * 2 else (1 - t) * 2 in
  if Rlt_dec u (accelTime j)
  then exp (expFactor j * u) - 1
  else exp (expFactor j * accelTime j) * (expFactor j * (u - accelTime j) + 1) - 1.

(** The centre of a great-circle trajectory: the primary body of the
    frame's reference body, or the star of its system. *)
Definition greatCircleCenter (f : ObserverFrame) : Selection :=
  let centerObj := getRefObject f in
  match sel_body centerObj with
  | Some body =>
      match body_getSystem body with
      | Some sys =>
          match system_getPrimaryBody sys with
          | Some primary => Sel_Body primary
          | None => Selection_of_star (system_getStar sys)
          end
      | None => centerObj
      end
  | None => centerObj
  end.

(** The position [p] the journey prescribes at progress [t]. *)
Definition journeyPosition (o : Observer) (t : R) : UniversalCoord :=
  let j := journey o in
  let f := ptr_target (frame o) in
  let jv := UC.offsetFromKm (to j) (from j) in
  let x := travelProfile j t in
  match traj j with
  | Linear =>
      if Req_dec_T (Vec.norm jv) 0 then from j
      else
        let v := Vec.normalized jv in
        if Rlt_dec t 0.5
        then UC.offsetKm (from j) (Vec.scale v x)
        else UC.offsetKm (to j) (Vec.scale (Vec.neg v) x)
  | GreatCircle =>
      let centerObj := greatCircleCenter f in
      let ufrom := convertToUniversal f (from j) (simTime o) in
      let uto := convertToUniversal f (to j) (simTime o) in
      let origin := sel_getPosition centerObj (simTime o) in
      let v0 := UC.offsetFromKm ufrom origin in
      let v1 := UC.offsetFromKm uto origin in
      if Req_dec_T (Vec.norm jv) 0 then from j
      else
        let x := x / Vec.norm jv in
        let v := if Rlt_dec t 0.5 then slerp x v0 v1 else slerp x v1 v0 in
        convertFromUniversal f (UC.offsetKm origin v) (simTime o)
  | CircularOrbit =>
      let centerObj := getRefObject f in
      let ufrom := convertToUniversal f (from j) (simTime o) in
      let origin := sel_getPosition centerObj (simTime o) in
      let v0 := UC.offsetFromKm ufrom origin in
      if Req_dec_T (Vec.norm jv) 0 then from j
      else
        let q0 := Quat.Identity in
        let q1 := rotation1 j in
        let p := UC.offsetKm origin
                   (Quat.rotate (Quat.conjugate (quat_slerp q0 t q1)) v0) in
        convertFromUniversal f p (simTime o)
  end.

(** The orientation [q] the journey prescribes at progress [t]. *)
Definition journeyOrientation (j : JourneyParams) (t : R) : Quaterniond :=
  if Rle_dec (startInterpolation j) t then
    if Rlt_dec t (endInterpolation j) then
      let v :=
        match traj j with
        | CircularOrbit => t
        | _ => (sin ((t - startInterpolation j) /
                     (endInterpolation j - startInterpolation j) * PI / 2)) ^ 2
        end in
      quat_slerp (initialOrientation j) v (finalOrientation j)
    else finalOrientation j
  else initialOrientation j.

(** The block of [update] guarded by [observerMode == Travelling]. *)
Definition updateJourney (o : Observer) : Observer :=
  let j := journey o in
  let t := journeyProgress j (realTime o) in
  let p := journeyPosition o t in
  let q := journeyOrientation j t in
  let o := set_position p o in
  let o := set_orientation q o in
  if Req_dec_T t 1 then
    let o :=
      match traj j with
      | CircularOrbit => o
      | _ => set_orientation (finalOrientation j) (set_position (to j) o)
      end in
    let o := set_observerMode Free o in
    setVelocity Vec.Zero o
  else o.

(** The block of [update] that blends the velocity towards
    [targetVelocity]. *)
Definition updateVelocity (o : Observer) : Observer :=
  if Vec.eq_dec (getVelocity o) (targetVelocity o) then o
  else
    let t := clamp ((realTime o - beginAccelTime o) / VELOCITY_CHANGE_TIME) 0 1 in
    let v := Vec.add (Vec.scale (getVelocity o) (1 - t))
                     (Vec.scale (targetVelocity o) t) in
    let v := if Rlt_dec (Vec.norm v) 1.0e-12 then Vec.Zero else v in
    setVelocity v o.

(** The block of [update] guarded by [observerMode == Free]. *)
Definition updateOrientation (dt : R) (o : Observer) : Observer :=
  let halfAV := Vec.scale (getAngularVelocity o) 0.5 in
  let dr := Quat.mul (mkQuaterniond 0 (vx halfAV) (vy halfAV) (vz halfAV))
                     (orientation o) in
  set_orientation (Quat.normalized (Quat.addScaled (orientation o) dt dr)) o.

(** The block of [update] that re-aims at the tracked object. *)
Definition updateTracking (o : Observer) : Observer :=
  if sel_empty (trackObject o) then o
  else
    let up := Quat.rotate (Quat.conjugate (getOrientation o)) Vec.UnitY in
    let viewDir :=
      Vec.normalized
        (UC.offsetFromKm (sel_getPosition (trackObject o) (getTime o))
                         (getPosition o)) in
    setOrientation (LookAt Vec.Zero viewDir up) o.

(** [Observer::update(dt, timeScale)] *)
Definition update (dt timeScale : R) (o : Observer) : Observer :=
  let o := set_realTime (realTime o + dt) o in
  let o := set_simTime (simTime o + (dt / 86400.0) * timeScale) o in
  let o := if Rge_dec (simTime o) maximumSimTime
           then set_simTime maximumSimTime o else o in
  let o := if Rle_dec (simTime o) minimumSimTime
           then set_simTime minimumSimTime o else o in
  let o := match observerMode o with
           | Travelling => updateJourney o
           | Free => o
           end in
  let o := updateVelocity o in
  let o := set_position
             (UC.offsetKm (position o) (Vec.scale (getVelocity o) dt)) o in
  let o := match observerMode o with
           | Free => updateOrientation dt o
           | Travelling => o
           end in
  let o := updateUniversal o in
  updateTracking o.

End Operations.

(* ------------------------------------------------------------------ *)
(** ** Journey computation *)

(** [TravelExpFunc(d, s)(x)] *)
Definition TravelExpFunc (dist s : R) (x : R) : R :=
  exp (x * s) * (x * (1 - s) + 1) - 1 - dist.

(** Modelled from the spec: [solve_bisection] (celmath/solve.h), whose
    source is not available.  The spec describes it as a root finder
    [solve_bisection(f, lo, hi, tol) -> (root, residual)] that finds the
    root of a scalar function over an interval to a given tolerance by
    bisection: the interval is halved, keeping the half on which the
    function changes sign, until its half-width is below the tolerance;
    the midpoint is returned with the function value there.  [maxIter]
    caps the number of halvings. *)
Fixpoint bisection (maxIter : nat) (f : R -> R) (lower upper err : R) : R * R :=
  let x := (lower + upper) * 0.5 in
  match maxIter with
  | O => (x, f x)
  | S n =>
      if Rlt_dec (upper - lower) (2 * err) then (x, f x)
      else if Rlt_dec (f x) 0
           then bisection n f x upper err
           else bisection n f lower x err
  end.

Definition solve_bisection (f : R -> R) (lower upper err : R) : R * R :=
  bisection 100 f lower upper err.

(** The calibration every journey constructor performs:
    [solve_bisection(TravelExpFunc(distance, accelTime), 0.0001, 100.0, 1e-10).first] *)
Definition calibrateExpFactor (distance accelTime_ : R) : R :=
  fst (solve_bisection (TravelExpFunc distance accelTime_) 0.0001 100.0 1e-10).

Arguments solve_bisection : simpl never.
Arguments calibrateExpFactor : simpl never.

(** The part of [TravelExpFunc] that grows with [k]:
    [TravelExpFunc d s k = travelGrowth s k - 1 - d]. *)
Definition travelGrowth (s k : R) : R := exp (k * s) * (k * (1 - s) + 1).

Section Journeys.
Context {O : CelestialObjects} {C : Collaborators}.

Definition JourneyDuration : R := 5.0.
Definition StartInterpolation : R := 0.25.
Definition EndInterpolation : R := 0.75.
Definition AccelerationTime : R := 0.5.

(** The up vector of a goto, taken to universal axes. *)
Definition gotoUpVector (destination : Selection) (up : Vector3d)
           (upCoordSys : CoordinateSystem) (o : Observer) : Vector3d :=
  match upCoordSys with
  | ObserverLocal => Quat.rotate (Quat.conjugate (orientationUniv o)) up
  | _ =>
      let upFrame := ObserverFrame_new upCoordSys destination Sel_Nil in
      Quat.rotate (Quat.conjugate (rf_getOrientation (getFrame upFrame) (getTime o))) up
  end.

(** The last four assignments of every [compute...Parameters]: the
    journey end points are taken to frame coordinates. *)
Definition journeyToFrameCoordinates (o : Observer) (j : JourneyParams) : JourneyParams :=
  let f := ptr_target (frame o) in
  let j := set_from (convertFromUniversal f (from j) (getTime o)) j in
  let j := set_initialOrientation
             (convertFromUniversalQ f (initialOrientation j) (getTime o)) j in
  let j := set_to (convertFromUniversal f (to j) (getTime o)) j in
  set_finalOrientation (convertFromUniversalQ f (finalOrientation j) (getTime o)) j.

(** [Observer::computeGotoParameters].  Every caller passes the
    observer's own [journey] as [jparams]; [fresh] is the address of the
    frame object created by [setFrame]. *)
Definition computeGotoParameters (fresh : nat) (destination : Selection)
           (gotoTime startInter endInter accelTime_ : R)
           (offset : Vector3d) (offsetCoordSys : CoordinateSystem)
           (up : Vector3d) (upCoordSys : CoordinateSystem)
           (o : Observer) : Observer :=
  let o :=
    match getCoordinateSystem (ptr_target (frame o)) with
    | PhaseLock => setFrame_ref fresh Ecliptical destination o
    | cs => setFrame_ref fresh cs destination o
    end in
  let targetPosition := sel_getPosition destination (getTime o) in
  let j := journey o in
  let j := set_traj Linear j in
  let j := set_duration gotoTime j in
  let j := set_startTime (realTime o) j in
  let j := set_from (getPosition o) j in
  let j :=
    match offsetCoordSys with
    | ObserverLocal =>
        set_to (UC.offsetKm targetPosition
                  (Quat.rotate (Quat.conjugate (orientationUniv o)) offset)) j
    | _ =>
        let offsetFrame := ObserverFrame_new offsetCoordSys destination Sel_Nil in
        set_to (UC.offsetKm targetPosition
                  (Quat.rotate
                     (Quat.conjugate
                        (rf_getOrientation (getFrame offsetFrame) (getTime o)))
                     offset)) j
    end in
  let upd := gotoUpVector destination up upCoordSys o in
  let j := set_initialOrientation (getOrientation o) j in
  let focus := UC.offsetFromKm targetPosition (to j) in
  let j := set_finalOrientation (LookAt Vec.Zero focus upd) j in
  let j := set_startInterpolation (minR startInter endInter) j in
  let j := set_endInterpolation (maxR startInter endInter) j in
  let j := set_accelTime accelTime_ j in
  let distance := Vec.norm (UC.offsetFromKm (from j) (to j)) / 2.0 in
  let j := set_expFactor (calibrateExpFactor distance (accelTime j)) j in
  set_journey (journeyToFrameCoordinates o j) o.

(** [Observer::computeGotoParametersGC] *)
Definition computeGotoParametersGC (fresh : nat) (destination : Selection)
           (gotoTime : R)
           (offset : Vector3d) (offsetCoordSys : CoordinateSystem)
           (up : Vector3d) (upCoordSys : CoordinateSystem)
           (centerObj : Selection)
           (o : Observer) : Observer :=
  let o := setFrame_ref fresh (getCoordinateSystem (ptr_target (frame o)))
                        destination o in
  let targetPosition := sel_getPosition destination (getTime o) in
  let j := journey o in
  let j := set_traj GreatCircle j in
  let j := set_duration gotoTime j in
  let j := set_startTime (realTime o) j in
  let j := set_centerObject centerObj j in
  let j := set_from (getPosition o) j in
  let offsetFrame := ObserverFrame_new offsetCoordSys destination Sel_Nil in
  let offsetTransformed :=
    Quat.rotate
      (Quat.conjugate (rf_getOrientation (getFrame offsetFrame) (getTime o)))
      offset in
  let j := set_to (UC.offsetKm targetPosition offsetTransformed) j in
  let upd := gotoUpVector destination up upCoordSys o in
  let j := set_initialOrientation (getOrientation o) j in
  let focus := UC.offsetFromKm targetPosition (to j) in
  let j := set_finalOrientation (LookAt Vec.Zero focus upd) j in
  let j := set_startInterpolation (minR StartInterpolation EndInterpolation) j in
  let j := set_endInterpolation (maxR StartInterpolation EndInterpolation) j in
  let j := set_accelTime AccelerationTime j in
  let distance := Vec.norm (UC.offsetFromKm (from j) (to j)) / 2.0 in
  let j := set_expFactor (calibrateExpFactor distance (accelTime j)) j in
  set_journey (journeyToFrameCoordinates o j) o.

(** [Observer::computeCenterParameters] *)
Definition computeCenterParameters (destination : Selection) (centerTime : R)
           (o : Observer) : Observer :=
  let targetPosition := sel_getPosition destination (getTime o) in
  let j := journey o in
  let j := set_duration centerTime j in
  let j := set_startTime (realTime o) j in
  let j := set_traj Linear j in
  let j := set_from (getPosition o) j in
  let j := set_to (from j) j in
  let up := Quat.rotate (Quat.conjugate (getOrientation o)) Vec.UnitY in
  let j := set_initialOrientation (getOrientation o) j in
  let focus := UC.offsetFromKm targetPosition (to j) in
  let j := set_finalOrientation (LookAt Vec.Zero focus up) j in
  let j := set_startInterpolation 0 j in
  let j := set_endInterpolation 1 j in
  let j := set_accelTime 0.5 j in
  let j := set_expFactor 0 j in
  set_journey (journeyToFrameCoordinates o j) o.

(** [Observer::computeCenterCOParameters] *)
Definition computeCenterCOParameters (destination : Selection) (centerTime : R)
           (o : Observer) : Observer :=
  let j := journey o in
  let j := set_duration centerTime j in
  let j := set_startTime (realTime o) j in
  let j := set_traj CircularOrbit j in
  let j := set_centerObject (getRefObject (ptr_target (frame o))) j in
  let j := set_expFactor 0.5 j in
  let v := Vec.normalized
             (UC.offsetFromKm (sel_getPosition destination (getTime o))
                              (getPosition o)) in
  let w := Quat.rotate (Quat.conjugate (getOrientation o)) (Vec.neg Vec.UnitZ) in
  let centerObj := getRefObject (ptr_target (frame o)) in
  let centerPos := sel_getPosition centerObj (getTime o) in
  let q := setFromTwoVectors v w in
  let j := set_from (getPosition o) j in
  let j := set_to (UC.offsetKm centerPos
                     (Quat.rotate (Quat.conjugate q)
                        (UC.offsetFromKm (getPosition o) centerPos))) j in
  let j := set_initialOrientation (getOrientation o) j in
  let j := set_finalOrientation (Quat.mul (getOrientation o) q) j in
  let j := set_startInterpolation 0.0 j in
  let j := set_endInterpolation 1.0 j in
  let j := set_rotation1 q j in
  set_journey (journeyToFrameCoordinates o j) o.

(** [Observer::centerSelectionCO] *)
Definition centerSelectionCO (selection : Selection) (centerTime : R)
           (o : Observer) : Observer :=
  if negb (sel_empty selection)
     && negb (sel_empty (getRefObject (ptr_target (frame o))))
  then set_observerMode Travelling (computeCenterCOParameters selection centerTime o)
  else o.

(** The first block of [orbit]: the centre of rotation, and the observer
    once its frame was centred on the selection when it had no centre. *)
Definition orbitCenter (fresh : nat) (selection : Selection) (o : Observer)
  : Selection * Observer :=
  let center := getRefObject (ptr_target (frame o)) in
  if sel_empty center && negb (sel_empty selection)
  then (selection,
        setFrame_ref fresh (getCoordinateSystem (ptr_target (frame o))) selection o)
  else (center, o).

(** The focus position (centre of rotation) in frame coordinates. *)
Definition orbitFocus (center : Selection) (o : Observer) : UniversalCoord :=
  convertFromUniversal (ptr_target (frame o))
                       (sel_getPosition center (getTime o)) (getTime o).

(** [Observer::orbit] *)
Definition orbit (fresh : nat) (selection : Selection) (q : Quaterniond)
           (o : Observer) : Observer :=
  let (center, o) := orbitCenter fresh selection o in
  if negb (sel_empty center) then
    let focusPosition := orbitFocus center o in
    let v := UC.offsetFromKm (position o) focusPosition in
    let qd := q in
    let qd2 := Quat.normalized
                 (Quat.mul (Quat.mul (Quat.conjugate (orientation o)) qd)
                           (orientation o)) in
    let distance := Vec.norm v in
    let v := Quat.rotate (Quat.conjugate qd2) v in
    let v := Vec.scale (Vec.normalized v) distance in
    let o := set_orientation (Quat.mul (orientation o) qd2) o in
    let o := set_position (UC.offsetKm focusPosition v) o in
    updateUniversal o
  else o.

(** [Observer::gotoJourney] *)
Definition gotoJourney (params : JourneyParams) (o : Observer) : Observer :=
  let j := params in
  let distance := Vec.norm (UC.offsetFromKm (from j) (to j)) / 2.0 in
  let j := set_expFactor (calibrateExpFactor distance (accelTime j)) j in
  let j := set_startTime (realTime o) j in
  set_observerMode Travelling (set_journey j o).

(** The body case of [getPreferredDistance]. *)
Definition getPreferredDistance_body (b : Body) : R :=
  if body_isInvisible b then
    let r := body_getRadius b in
    let r := match body_frameTreeRadius b with
             | Some bounding => bounding
             | None => r
             end in
    minR (lightYearsToKilometers 0.1) (r * 5.0)
  else 5.0 * sel_radius (Sel_Body b).

(** The star case of [getPreferredDistance]. *)
Definition getPreferredDistance_star (s : Star) : R :=
  if star_getVisibility s then 100.0 * sel_radius (Sel_Star s)
  else
    let maxOrbitRadius :=
      match star_getOrbitingStars s with
      | None => 0.0
      | Some orbitingStars =>
          fold_left
            (fun r s' => match star_orbitBoundingRadius s' with
                         | None => r
                         | Some bounding => maxR r bounding
                         end)
            orbitingStars 0.0
      end in
    if Req_dec_T maxOrbitRadius 0.0 then AUtoKilometers 1.0
    else maxOrbitRadius * 5.0.

(** [getPreferredDistance].  Its one recursive call, in the location
    case, is on the selection of the location's parent body, which is a
    body or empty; the recursion is unrolled accordingly. *)
Definition getPreferredDistance (selection : Selection) : R :=
  match selection with
  | Sel_Body b => getPreferredDistance_body b
  | Sel_DeepSky _ => 5.0 * sel_radius selection
  | Sel_Star s => getPreferredDistance_star s
  | Sel_Location l =>
      let maxDist :=
        match Selection_of_body (location_getParentBody l) with
        | Sel_Body b => getPreferredDistance_body b
        | _ => 1.0
        end in
      maxR (minR (location_getSize l * 50.0) maxDist) 1.0
  | Sel_Nil => 1.0
  end.

(** [getOrbitDistance] *)
Definition getOrbitDistance (selection : Selection) (currentDistance : R) : R :=
  let maxDist := getPreferredDistance selection in
  let minDist := 1.01 * sel_radius selection in
  let dist := if Rlt_dec (maxDist * 10.0) currentDistance
              then maxDist else currentDistance * 0.1 in
  maxR dist minDist.

(** [Observer::gotoSelection(selection, gotoTime, startInter, endInter,
    accelTime, up, upFrame)] *)
Definition gotoSelection_inter (fresh : nat) (selection : Selection)
           (gotoTime startInter endInter accelTime_ : R)
           (up : Vector3d) (upFrame : CoordinateSystem)
           (o : Observer) : Observer :=
  if negb (sel_empty selection) then
    let pos := sel_getPosition selection (getTime o) in
    let v := UC.offsetFromKm pos (getPosition o) in
    let distance := Vec.norm v in
    let orbitDistance := getOrbitDistance selection distance in
    let o := computeGotoParameters fresh selection gotoTime
               startInter endInter accelTime_
               (Vec.scale v (- (orbitDistance / distance)))
               Universal up upFrame o in
    set_observerMode Travelling o
  else o.

(** [Observer::gotoSelection(selection, gotoTime, up, upFrame)] *)
Definition gotoSelection (fresh : nat) (selection : Selection) (gotoTime : R)
           (up : Vector3d) (upFrame : CoordinateSystem)
           (o : Observer) : Observer :=
  gotoSelection_inter fresh selection gotoTime 0.0 0.5 AccelerationTime up upFrame o.

(** [Observer::gotoSelectionGC(selection, gotoTime, up, upFrame)] *)
Definition gotoSelectionGC (fresh : nat) (selection : Selection) (gotoTime : R)
           (up : Vector3d) (upFrame : CoordinateSystem)
           (o : Observer) : Observer :=
  if negb (sel_empty selection) then
    let centerObj := sel_parent selection in
    let pos := sel_getPosition selection (getTime o) in
    let v := UC.offsetFromKm pos (sel_getPosition centerObj (getTime o)) in
    let distanceToCenter := Vec.norm v in
    let viewVec := UC.offsetFromKm pos (getPosition o) in
    let orbitDistance := getOrbitDistance selection (Vec.norm viewVec) in
    let orbitDistance :=
      match sel_location selection with
      | Some _ =>
          let parent := sel_parent selection in
          let maintainDist := getPreferredDistance parent in
          let parentPos :=
            UC.offsetFromKm (sel_getPosition parent (getTime o)) (getPosition o) in
          let parentDist := Vec.norm parentPos - sel_radius parent in
          if Rle_dec parentDist maintainDist then
            if Rlt_dec orbitDistance parentDist then parentDist else orbitDistance
          else orbitDistance
      | None => orbitDistance
      end in
    let o := computeGotoParametersGC fresh selection gotoTime
               (Vec.scale v (orbitDistance / distanceToCenter))
               Universal up upFrame centerObj o in
    set_observerMode Travelling o
  else o.

(** [Observer::gotoSelection(selection, gotoTime, distance, up, upFrame)] *)
Definition gotoSelection_distance (fresh : nat) (selection : Selection)
           (gotoTime distance : R)
           (up : Vector3d) (upFrame : CoordinateSystem)
           (o : Observer) : Observer :=
  if negb (sel_empty selection) then
    let pos := sel_getPosition selection (getTime o) in
    let v := Vec.normalized (UC.offsetFromKm pos (getPosition o)) in
    let o := computeGotoParameters fresh selection gotoTime
               StartInterpolation EndInterpolation AccelerationTime
               (Vec.scale v (- distance)) Universal up upFrame o in
    set_observerMode Travelling o
  else o.

(** [Observer::gotoSelectionGC(selection, gotoTime, distance, up, upFrame)] *)
Definition gotoSelectionGC_distance (fresh : nat) (selection : Selection)
           (gotoTime distance : R)
           (up : Vector3d) (upFrame : CoordinateSystem)
           (o : Observer) : Observer :=
  if negb (sel_empty selection) then
    let centerObj := sel_parent selection in
    let pos := sel_getPosition selection (getTime o) in
    let v := Vec.normalized
               (UC.offsetFromKm pos (sel_getPosition centerObj (getTime o))) in
    let o := computeGotoParametersGC fresh selection gotoTime
               (Vec.scale v (- distance)) Universal up upFrame centerObj o in
    set_observerMode Travelling o
  else o.

(** [Observer::gotoSelectionLongLat] *)
Definition gotoSelectionLongLat (fresh : nat) (selection : Selection)
           (gotoTime distance longitude latitude : R) (up : Vector3d)
           (o : Observer) : Observer :=
  if negb (sel_empty selection) then
    let phi := - latitude + PI / 2.0 in
    let theta := longitude in
    let x := cos theta * sin phi in
    let y := cos phi in
    let z := - sin theta * sin phi in
    let o := computeGotoParameters fresh selection gotoTime
               StartInterpolation EndInterpolation AccelerationTime
               (Vec.scale (mkVector3d x y z) distance) BodyFixed
               up BodyFixed o in
    set_observerMode Travelling o
  else o.

(** [Observer::gotoLocation] *)
Definition gotoLocation (toPosition : UniversalCoord) (toOrientation : Quaterniond)
           (duration_ : R) (o : Observer) : Observer :=
  let j := journey o in
  let j := set_startTime (realTime o) j in
  let j := set_duration duration_ j in
  let j := set_from (position o) j in
  let j := set_initialOrientation (orientation o) j in
  let j := set_to toPosition j in
  let j := set_finalOrientation toOrientation j in
  let j := set_startInterpolation StartInterpolation j in
  let j := set_endInterpolation EndInterpolation j in
  let j := set_accelTime AccelerationTime j in
  let distance := Vec.norm (UC.offsetFromKm (from j) (to j)) / 2.0 in
  let j := set_expFactor (calibrateExpFactor distance (accelTime j)) j in
  set_observerMode Travelling (set_journey j o).

(** [Observer::gotoSurface] *)
Definition gotoSurface (sel : Selection) (duration_ : R) (o : Observer) : Observer :=
  let v := Vec.normalized
             (UC.offsetFromKm (getPosition o) (sel_getPosition sel (getTime o))) in
  let viewDir := Quat.rotate (Quat.conjugate (orientationUniv o)) (Vec.neg Vec.UnitZ) in
  let up := Quat.rotate (Quat.conjugate (orientationUniv o)) Vec.UnitY in
  let q := orientationUniv o in
  let q := if Rlt_dec (Vec.dot v viewDir) 0.0 then LookAt Vec.Zero up v else q in
  let bodyFixed := ObserverFrame_new BodyFixed sel Sel_Nil in
  let bfPos := convertFromUniversal bodyFixed (positionUniv o) (getTime o) in
  let q := convertFromUniversalQ bodyFixed q (getTime o) in
  let height := 1.0001 * sel_radius sel in
  let dir := Vec.scale (Vec.normalized (UC.offsetFromKm bfPos UC.Zero)) height in
  let nearSurfacePoint := UC.offsetKm UC.Zero dir in
  gotoLocation nearSurfacePoint q duration_ o.

(** [Observer::centerSelection] *)
Definition centerSelection (selection : Selection) (centerTime : R)
           (o : Observer) : Observer :=
  if negb (sel_empty selection)
  then set_observerMode Travelling (computeCenterParameters selection centerTime o)
  else o.

(** [Observer::follow] *)
Definition follow (fresh : nat) (selection : Selection) (o : Observer) : Observer :=
  setFrame_ref fresh Ecliptical selection o.

(** [Observer::geosynchronousFollow] *)
Definition geosynchronousFollow (fresh : nat) (selection : Selection)
           (o : Observer) : Observer :=
  match sel_body selection, sel_location selection, sel_star selection with
  | None, None, None => o
  | _, _, _ => setFrame_ref fresh BodyFixed selection o
  end.

(** [Observer::chase] *)
Definition chase (fresh : nat) (selection : Selection) (o : Observer) : Observer :=
  match sel_body selection, sel_star selection with
  | None, None => o
  | _, _ => setFrame_ref fresh Chase selection o
  end.

End Journeys.

(* ------------------------------------------------------------------ *)
(** ** The remaining observer operations *)

(** Eigen's [Quaterniond(AngleAxisd(angle, axis))]: the half angle gives
    the scalar part [cos] and the vector part [sin * axis]. *)
Definition AngleAxisd (angle : R) (axis : Vector3d) : Quaterniond :=
  let ha := 0.5 * angle in
  mkQuaterniond (cos ha) (sin ha * vx axis) (sin ha * vy axis) (sin ha * vz axis).

(** [std::hypot] *)
Definition hypot (x y : R) : R := sqrt (x * x + y * y).

(** [std::atan2(y, x)] on finite arguments: the angle of the point
    [(x, y)] in the interval from [-PI] to [PI]; zero has no sign here, so
    [atan2(0, 0)] is [0]. *)
Definition atan2 (y x : R) : R :=
  if Rlt_dec 0 x then atan (y / x)
  else if Rlt_dec x 0 then
    if Rle_dec 0 y then atan (y / x) + PI else atan (y / x) - PI
  else if Rlt_dec 0 y then PI / 2
  else if Rlt_dec y 0 then - (PI / 2)
  else 0.

(** [exp(log(r) + d)] as the machine evaluates it for [r >= 0]: the
    logarithm of zero is minus infinity, whose exponential is zero.  A
    negative [r] has no logarithm; the statements exclude it. *)
Definition expLog (r d : R) : R :=
  if Req_dec_T r 0 then 0 else exp (ln r + d).

(** The distance [changeOrbitDistance] moves the camera to, from the
    radius of the centre, the current distance and the dolly amount;
    [None] when its guard
    [currentDistance >= minOrbitDistance && naturalOrbitDistance != 0]
    fails. *)
Definition dollyDistance (size currentDistance d : R) : option R :=
  let minOrbitDistance := size in
  let naturalOrbitDistance := 4.0 * size in
  let minOrbitDistance :=
    if Rlt_dec currentDistance minOrbitDistance then currentDistance * 0.5
    else minOrbitDistance in
  if Rge_dec currentDistance minOrbitDistance then
    if Req_dec_T naturalOrbitDistance 0 then None
    else
      let r := (currentDistance - minOrbitDistance) / naturalOrbitDistance in
      Some (minOrbitDistance + naturalOrbitDistance * expLog r d)
  else None.

Section MoreOperations.
Context {O : CelestialObjects} {C : Collaborators}.

Definition set_angularVelocity (x : Vector3d) (o : Observer) : Observer :=
  mkObserver (simTime o) (position o) (orientation o) (velocity o) x
    (positionUniv o) (orientationUniv o) (frame o) (realTime o) (targetSpeed o)
    (targetVelocity o) (initialVelocity o) (beginAccelTime o) (observerMode o)
    (journey o) (trackObject o) (trackingOrientation o) (fov o) (reverseFlag o)
    (locationFilter o) (displayedSurface o).
Definition set_fov (x : R) (o : Observer) : Observer :=
  mkObserver (simTime o) (position o) (orientation o) (velocity o) (angularVelocity o)
    (positionUniv o) (orientationUniv o) (frame o) (realTime o) (targetSpeed o)
    (targetVelocity o) (initialVelocity o) (beginAccelTime o) (observerMode o)
    (journey o) (trackObject o) (trackingOrientation o) x (reverseFlag o)
    (locationFilter o) (displayedSurface o).
Definition set_reverseFlag (x : bool) (o : Observer) : Observer :=
  mkObserver (simTime o) (position o) (orientation o) (velocity o) (angularVelocity o)
    (positionUniv o) (orientationUniv o) (frame o) (realTime o) (targetSpeed o)
    (targetVelocity o) (initialVelocity o) (beginAccelTime o) (observerMode o)
    (journey o) (trackObject o) (trackingOrientation o) (fov o) x
    (locationFilter o) (displayedSurface o).
Definition set_locationFilter (x : N) (o : Observer) : Observer :=
  mkObserver (simTime o) (position o) (orientation o) (velocity o) (angularVelocity o)
    (positionUniv o) (orientationUniv o) (frame o) (realTime o) (targetSpeed o)
    (targetVelocity o) (initialVelocity o) (beginAccelTime o) (observerMode o)
    (journey o) (trackObject o) (trackingOrientation o) (fov o) (reverseFlag o)
    x (displayedSurface o).
Definition set_displayedSurface (x : string) (o : Observer) : Observer :=
  mkObserver (simTime o) (position o) (orientation o) (velocity o) (angularVelocity o)
    (positionUniv o) (orientationUniv o) (frame o) (realTime o) (targetSpeed o)
    (targetVelocity o) (initialVelocity o) (beginAccelTime o) (observerMode o)
    (journey o) (trackObject o) (trackingOrientation o) (fov o) (reverseFlag o)
    (locationFilter o) x.

Definition setAngularVelocity (v : Vector3d) (o : Observer) : Observer :=
  set_angularVelocity v o.
Definition getTargetSpeed (o : Observer) : R := targetSpeed o.
Definition getFOV (o : Observer) : R := fov o.
Definition setFOV (_fov : R) (o : Observer) : Observer := set_fov _fov o.
Definition getLocationFilter (o : Observer) : N := locationFilter o.
Definition setLocationFilter (_locationFilter : N) (o : Observer) : Observer :=
  set_locationFilter _locationFilter o.
Definition getDisplayedSurface (o : Observer) : string := displayedSurface o.
Definition setDisplayedSurface (surf : string) (o : Observer) : Observer :=
  set_displayedSurface surf o.

(** [Observer::getArrivalTime] *)
Definition getArrivalTime (o : Observer) : R :=
  match observerMode o with
  | Travelling => startTime (journey o) + duration (journey o)
  | Free => realTime o
  end.

(** [Observer::reverseOrientation] *)
Definition reverseOrientation (o : Observer) : Observer :=
  let o := setOrientation
             (Quat.mul (getOrientation o) (AngleAxisd PI Vec.UnitY)) o in
  set_reverseFlag (negb (reverseFlag o)) o.

(** [Observer::rotate] *)
Definition rotate (q : Quaterniond) (o : Observer) : Observer :=
  updateUniversal (set_orientation (Quat.mul q (orientation o)) o).

(** The point, in universal coordinates, that [changeOrbitDistance]
    moves the camera to: on the ray from the focus through the current
    position, at the new distance from the focus. *)
Definition dollyTarget (center : Selection) (newDistance : R) (o : Observer)
  : UniversalCoord :=
  let focusPosition := sel_getPosition center (getTime o) in
  let v := UC.offsetFromKm (getPosition o) focusPosition in
  let currentDistance := Vec.norm v in
  let v := Vec.scale v (newDistance / currentDistance) in
  UC.offsetKm focusPosition v.

(** [Observer::changeOrbitDistance].  Its first block is the first block
    of [orbit]. *)
Definition changeOrbitDistance (fresh : nat) (selection : Selection) (d : R)
           (o : Observer) : Observer :=
  let (center, o) := orbitCenter fresh selection o in
  if negb (sel_empty center) then
    let focusPosition := sel_getPosition center (getTime o) in
    let size := sel_radius center in
    let v := UC.offsetFromKm (getPosition o) focusPosition in
    let currentDistance := Vec.norm v in
    match dollyDistance size currentDistance d with
    | Some newDistance =>
        let o := set_position
                   (convertFromUniversal (ptr_target (frame o))
                      (dollyTarget center newDistance o) (getTime o)) o in
        updateUniversal o
    | None => o
    end
  else o.

(** [Observer::phaseLock].

    Modelled from the spec: the comparison of two [Selection] values
    (celengine/selection.h), whose source is not available.  The spec
    speaks of the case in which the new selection is the current
    reference object; [same] decides whether two selections are the same
    object.

    The identical case reads the star through
    [selection.body()->getSystem()->getStar()] without a test of
    [getSystem()]: for a body without a planetary system the call has no
    result, which is [None] here. *)
Definition phaseLock (same : forall a b : Selection, {a = b} + {a <> b})
           (fresh : nat) (selection : Selection) (o : Observer) : option Observer :=
  let refObject := getRefObject (ptr_target (frame o)) in
  if same selection refObject then
    match sel_body selection with
    | Some b =>
        match body_getSystem b with
        | Some sys =>
            Some (setFrame fresh PhaseLock selection
                           (Selection_of_star (system_getStar sys)) o)
        | None => None
        end
    | None => Some o
    end
  else
    match sel_body refObject, sel_star refObject with
    | None, None => Some o
    | _, _ => Some (setFrame fresh PhaseLock refObject selection o)
    end.

(** [Observer::getPickRay] *)
Definition getPickRay (x y : R) (o : Observer) : Vector3d :=
  let s := 2 * tan (fov o / 2.0) in
  let pickDirection := mkVector3d (x * s) (y * s) (- 1.0) in
  Vec.normalized pickDirection.

(** [Observer::getPickRayFisheye] *)
Definition getPickRayFisheye (x y : R) (o : Observer) : Vector3d :=
  let r := hypot x y in
  let phi := PI * r in
  let sin_phi := sin phi in
  let theta := atan2 y x in
  let newX := sin_phi * cos theta in
  let newY := sin_phi * sin theta in
  let newZ := cos phi in
  let pickDirection := mkVector3d newX newY (- newZ) in
  Vec.normalized pickDirection.

(** [Observer::getSelectionLongLat].  The three results are reference
    arguments, which an empty selection leaves as they were: [out] is
    their value before the call, as (distance, longitude, latitude).
    [radToDeg] is the conversion of celmath. *)
Definition getSelectionLongLat (radToDeg : R -> R) (selection : Selection)
           (out : R * R * R) (o : Observer) : R * R * R :=
  if negb (sel_empty selection) then
    let bodyFixed := ObserverFrame_new BodyFixed selection Sel_Nil in
    let bfPos :=
      UC.offsetFromKm (convertFromUniversal bodyFixed (positionUniv o) (getTime o))
                      UC.Zero in
    let x := vx bfPos in
    let y := - vz bfPos in
    let z := vy bfPos in
    let distance := Vec.norm bfPos in
    let longitude := radToDeg (atan2 y x) in
    let latitude := radToDeg (PI / 2.0 - acos (z / distance)) in
    (distance, longitude, latitude)
  else out.

(** [Observer::Observer(const Observer&)].  The members left out of the
    initialiser list take their default: [initialVelocity] is zero,
    [positionUniv] and [orientationUniv] start with whatever the
    arguments give, and [frame] is null, so that [setFrame(o.frame)]
    stores the pointer of [o] without converting anything. *)
Definition Observer_copy (o : Observer)
           (positionUniv0 : UniversalCoord) (orientationUniv0 : Quaterniond)
  : Observer :=
  updateUniversal
    (mkObserver (simTime o) (position o) (orientation o) (velocity o)
       (angularVelocity o) positionUniv0 orientationUniv0 (frame o)
       (realTime o) (targetSpeed o) (targetVelocity o) Vec.Zero
       (beginAccelTime o) (observerMode o) (journey o) (trackObject o)
       (trackingOrientation o) (fov o) (reverseFlag o) (locationFilter o)
       (displayedSurface o)).

(** [Observer::operator=]: [self] is the observer assigned to.  Its
    [initialVelocity], [positionUniv] and [orientationUniv] are not
    assigned; its frame pointer is reset to null before
    [setFrame(o.frame)], which therefore stores the pointer of [o]
    without converting anything. *)
Definition Observer_assign (self o : Observer) : Observer :=
  updateUniversal
    (mkObserver (simTime o) (position o) (orientation o) (velocity o)
       (angularVelocity o) (positionUniv self) (orientationUniv self) (frame o)
       (realTime o) (targetSpeed o) (targetVelocity o) (initialVelocity self)
       (beginAccelTime o) (observerMode o) (journey o) (trackObject o)
       (trackingOrientation o) (fov o) (reverseFlag o) (locationFilter o)
       (displayedSurface o)).

(** *** The location filter of the preferences dialog
    ([src/celestia/qt/qtpreferencesdialog.cpp]) *)

(** [Qt::Checked] *)
Definition Qt_Checked : Z := 2.

(** [~x] on a [uint64_t] *)
Definition uint64_not (x : N) : N := N.lxor x (N.ones 64).

(** [setLocationFlag(appCore, flag, state)], on the active observer. *)
Definition setLocationFlag (flag : N) (state : Z) (o : Observer) : Observer :=
  let isActive := Z.eqb state Qt_Checked in
  let locationFilter_ := N.land (getLocationFilter o) (uint64_not flag) in
  setLocationFilter (N.lor locationFilter_ (if isActive then flag else 0%N)) o.

(** The test [(locationFlags & flag) != 0] with which the dialog
    initialises a check box. *)
Definition locationFlagShown (flag : N) (o : Observer) : bool :=
  negb (N.eqb (N.land (getLocationFilter o) flag) 0%N).

End MoreOperations.

(* ------------------------------------------------------------------ *)
(** ** A universe of static spherical bodies

    The statements below are instantiated in a small universe: every
    body is a ball at a fixed universal position, there are no stars,
    deep-sky objects or locations, and every reference frame is the
    translation to its centre with the axes of the J2000 ecliptic.  The
    orientation-valued collaborators are stand-ins; the facts proved in
    this universe are about positions, velocities, modes, frames and
    journey parameters and do not depend on them. *)

Module StaticWorld.

Record Ball : Type := mkBall { ball_radius : R; ball_position : UniversalCoord }.

Definition objects : CelestialObjects := {|
  Body := Ball;
  Star := Empty_set;
  DeepSky := Empty_set;
  Location := Empty_set;
  PlanetarySystem := Empty_set;
  body_isInvisible := fun _ => false;
  body_getRadius := ball_radius;
  body_frameTreeRadius := fun _ => None;
  body_getSystem := fun _ => None;
  system_getPrimaryBody := fun s => match s with end;
  system_getStar := fun s => match s with end;
  body_getPosition := fun b _ => ball_position b;
  star_getVisibility := fun s => match s with end;
  star_getRadius := fun s => match s with end;
  star_getOrbitingStars := fun s => match s with end;
  star_orbitBoundingRadius := fun s => match s with end;
  star_getPosition := fun s => match s with end;
  deepsky_getRadius := fun d => match d with end;
  deepsky_getPosition := fun d => match d with end;
  location_getParentBody := fun l => match l with end;
  location_getSize := fun l => match l with end;
  location_getBoundingRadius := fun l => match l with end;
  location_getPosition := fun l => match l with end;
  lightYearsToKilometers := fun ly => ly * 9460730472580.8;
  AUtoKilometers := fun au => au * 149597870.7
|}.

(** Coordinates beyond this magnitude (km) are out of bounds. *)
Definition boundsLimit : R := 1e20.

Definition outOfBounds (p : UniversalCoord) : bool :=
  if Rlt_dec boundsLimit (Rabs (ux p)) then true
  else if Rlt_dec boundsLimit (Rabs (uy p)) then true
  else if Rlt_dec boundsLimit (Rabs (uz p)) then true
  else false.

Definition nlerp (q0 : Quaterniond) (t : R) (q1 : Quaterniond) : Quaterniond :=
  Quat.normalized
    (mkQuaterniond (qw q0 * (1 - t) + qw q1 * t) (qx q0 * (1 - t) + qx q1 * t)
                   (qy q0 * (1 - t) + qy q1 * t) (qz q0 * (1 - t) + qz q1 * t)).

Definition world : @Collaborators objects := {|
  sel_parent := fun _ => @Sel_Nil objects;
  isOutOfBounds := outOfBounds;
  rf_toUniversal := fun f p t =>
    UC.offsetKm (@sel_getPosition objects (getCenter f) t) (UC.offsetFromKm p UC.Zero);
  rf_fromUniversal := fun f u t =>
    UC.offsetKm UC.Zero (UC.offsetFromKm u (@sel_getPosition objects (getCenter f) t));
  rf_toUniversalQ := fun _ q _ => q;
  rf_fromUniversalQ := fun _ q _ => q;
  rf_getOrientation := fun _ _ => Quat.Identity;
  LookAt := fun _ _ _ => Quat.Identity;
  quat_slerp := nlerp;
  setFromTwoVectors := fun _ _ => Quat.Identity
|}.

#[local] Existing Instance objects.
#[local] Existing Instance world.

Definition journey0 : JourneyParams :=
  mkJourneyParams 0 0 UC.Zero UC.Zero Quat.Identity Quat.Identity
                  0 0 0 0 Quat.Identity Sel_Nil Linear.

(** A freshly constructed observer. *)
Definition observer0 : Observer :=
  Observer_new 0%nat journey0 UC.Zero Quat.Identity.

(** A planet of radius 6371 km, one million km from the origin. *)
Definition planet : Body := mkBall 6371 (mkUniversalCoord 1000000 0 0).

(** A ball of unit radius at the origin. *)
Definition unitBall : Body := mkBall 1 UC.Zero.


(** A point beyond the bounds. *)
Definition farPoint : UniversalCoord := mkUniversalCoord 2e20 0 0.

(** A fresh observer sent on a one-second journey to the point
    (2, 0, 0). *)
Definition traveller : Observer :=
  gotoLocation (mkUniversalCoord 2 0 0) Quat.Identity 1 observer0.

(** The same journey, started after a target speed of 1 km/s was set. *)
Definition cruiser : Observer :=
  gotoLocation (mkUniversalCoord 2 0 0) Quat.Identity 1
               (setTargetSpeed 1 observer0).

(** An eight-second Linear journey of one kilometre with
    [accelTime = 0.5]. *)
Definition shortJourney : JourneyParams :=
  mkJourneyParams 8 0 UC.Zero (mkUniversalCoord 1 0 0) Quat.Identity Quat.Identity
                  0.25 0.75 0 0.5 Quat.Identity Sel_Nil Linear.

Definition voyager : Observer := gotoJourney shortJourney observer0.

(** A Linear journey of 2000 km with [accelTime = 0.01]. *)
Definition steepJourney : JourneyParams :=
  mkJourneyParams 5 0 UC.Zero (mkUniversalCoord 2000 0 0) Quat.Identity
                  Quat.Identity 0.25 0.75 0 0.01 Quat.Identity Sel_Nil Linear.

(** A Linear journey of 20 km with [accelTime = 0.5]. *)
Definition easyJourney : JourneyParams :=
  mkJourneyParams 5 0 UC.Zero (mkUniversalCoord 20 0 0) Quat.Identity
                  Quat.Identity 0.25 0.75 0 0.5 Quat.Identity Sel_Nil Linear.

(** An observer 3 km from the unit ball, in the ecliptical frame of
    the ball, and a half turn about the y axis. *)
Definition orbiter : Observer :=
  setFrame_ref 1 Ecliptical (Sel_Body unitBall)
               (setPosition (mkUniversalCoord 3 0 0) observer0).

Definition halfTurn : Quaterniond := mkQuaterniond 0 0 1 0.

(** An observer at the universal origin in the ecliptical frame of the
    planet. *)
Definition visitor : Observer :=
  setFrame_ref 1 Ecliptical (Sel_Body planet) observer0.



End StaticWorld.

(* ------------------------------------------------------------------ *)
(** ** A universe with one multiple-star system

    Star 0 is the invisible barycentre of the system; stars 1 and 2
    move round it on orbits of bounding radius 10 and 30. *)

Module BinaryWorld.

Definition catalogue : CelestialObjects := {|
  Body := Empty_set;
  Star := nat;
  DeepSky := Empty_set;
  Location := Empty_set;
  PlanetarySystem := Empty_set;
  body_isInvisible := fun b => match b with end;
  body_getRadius := fun b => match b with end;
  body_frameTreeRadius := fun b => match b with end;
  body_getSystem := fun b => match b with end;
  system_getPrimaryBody := fun s => match s with end;
  system_getStar := fun s => match s with end;
  body_getPosition := fun b => match b with end;
  star_getVisibility := fun s => negb (Nat.eqb s 0);
  star_getRadius := fun _ => 700000;
  star_getOrbitingStars := fun s => if Nat.eqb s 0 then Some [1%nat; 2%nat] else None;
  star_orbitBoundingRadius := fun s =>
    match s with
    | 1%nat => Some 10
    | 2%nat => Some 30
    | _ => None
    end;
  star_getPosition := fun _ _ => UC.Zero;
  deepsky_getRadius := fun d => match d with end;
  deepsky_getPosition := fun d => match d with end;
  location_getParentBody := fun l => match l with end;
  location_getSize := fun l => match l with end;
  location_getBoundingRadius := fun l => match l with end;
  location_getPosition := fun l => match l with end;
  lightYearsToKilometers := fun ly => ly * 9460730472580.8;
  AUtoKilometers := fun au => au * 149597870.7
|}.

End BinaryWorld.

(* ------------------------------------------------------------------ *)
(** ** Vocabulary of the statements *)

Section Vocabulary.
Context {O : CelestialObjects} {C : Collaborators}.

(** The journey fields that are not frame-local end points agree. *)
Definition sameJourneyShape (j j' : JourneyParams) : Prop :=
  duration j' = duration j /\ startTime j' = startTime j /\
  startInterpolation j' = startInterpolation j /\
  endInterpolation j' = endInterpolation j /\
  expFactor j' = expFactor j /\ accelTime j' = accelTime j /\
  rotation1 j' = rotation1 j /\ centerObject j' = centerObject j /\
  traj j' = traj j.

(** Everything but the frame, the frame-local position and orientation
    and the frame-local end points of the journey agrees. *)
Definition sameOutsideFrame (o o' : Observer) : Prop :=
  simTime o' = simTime o /\ realTime o' = realTime o /\
  positionUniv o' = positionUniv o /\ orientationUniv o' = orientationUniv o /\
  velocity o' = velocity o /\ angularVelocity o' = angularVelocity o /\
  targetSpeed o' = targetSpeed o /\ targetVelocity o' = targetVelocity o /\
  initialVelocity o' = initialVelocity o /\ beginAccelTime o' = beginAccelTime o /\
  observerMode o' = observerMode o /\ trackObject o' = trackObject o /\
  trackingOrientation o' = trackingOrientation o /\ fov o' = fov o /\
  reverseFlag o' = reverseFlag o /\ locationFilter o' = locationFilter o /\
  displayedSurface o' = displayedSurface o /\
  sameJourneyShape (journey o) (journey o').

(** The frame-local values of [o'] are those of [o] expressed in
    [newFrame]: position and orientation from the universal mirrors, the
    journey end points through the universal frame as pivot. *)
Definition reencodedFor (newFrame : ObserverFrame) (o o' : Observer) : Prop :=
  let cur := ptr_target (frame o) in
  let now := simTime o in
  position o' = convertFromUniversal newFrame (positionUniv o) now /\
  orientation o' = convertFromUniversalQ newFrame (orientationUniv o) now /\
  from (journey o') = convert cur newFrame (from (journey o)) now /\
  to (journey o') = convert cur newFrame (to (journey o)) now /\
  initialOrientation (journey o') =
    convertQ cur newFrame (initialOrientation (journey o)) now /\
  finalOrientation (journey o') =
    convertQ cur newFrame (finalOrientation (journey o)) now.

(** The dual representation is consistent when the frame-local values
    are the universal mirrors taken into the frame. *)
Definition frameConsistent (o : Observer) : Prop :=
  position o =
    convertFromUniversal (ptr_target (frame o)) (positionUniv o) (simTime o).

(** The coordinate-system tag of the frame a goto installs: a direct
    goto turns [PhaseLock] into [Ecliptical]; otherwise the current tag
    is kept. *)
Definition directGotoTag (cs : CoordinateSystem) : CoordinateSystem :=
  match cs with PhaseLock => Ecliptical | _ => cs end.

(** The centre of the frame built from a tag and a reference object. *)
Definition anchorOf (cs : CoordinateSystem) (refObj : Selection) : Selection :=
  match cs with Universal | ObserverLocal => Sel_Nil | _ => refObj end.

(** [o'] is [o] with frame [f] installed and a journey started whose
    departure point is the unchanged universal position and orientation
    of [o], expressed in [f]. *)
Definition gotoInstalls (f : FramePtr) (o o' : Observer) : Prop :=
  frame o' = f /\
  getPosition o' = getPosition o /\ getOrientation o' = getOrientation o /\
  observerMode o' = Travelling /\
  from (journey o') =
    convertFromUniversal (ptr_target f) (getPosition o) (simTime o) /\
  initialOrientation (journey o') =
    convertFromUniversalQ (ptr_target f) (getOrientation o) (simTime o).

(** The two exact senses in which the pair (frame-local value, universal
    mirror) is consistent after an operation. *)
Definition positionSynced (o : Observer) : Prop :=
  convertToUniversal (ptr_target (frame o)) (position o) (simTime o) = positionUniv o \/
  position o = convertFromUniversal (ptr_target (frame o)) (positionUniv o) (simTime o).

Definition orientationSynced (o : Observer) : Prop :=
  convertToUniversalQ (ptr_target (frame o)) (orientation o) (simTime o)
    = orientationUniv o \/
  orientation o
    = convertFromUniversalQ (ptr_target (frame o)) (orientationUniv o) (simTime o).


(** The four mutators of the consistency invariant, as data. *)
Inductive Call : Type :=
| CallSetPosition (p : UniversalCoord)
| CallSetOrientation (q : Quaterniond)
| CallUpdate (dt timeScale : R)
| CallSetFrame (fresh : nat) (cs : CoordinateSystem) (refObj targetObj : Selection)
| CallSetFrameRef (fresh : nat) (cs : CoordinateSystem) (refObj : Selection)
| CallSetFrameShared (f : FramePtr).

Definition call (c : Call) (o : Observer) : Observer :=
  match c with
  | CallSetPosition p => setPosition p o
  | CallSetOrientation q => setOrientation q o
  | CallUpdate dt timeScale => update dt timeScale o
  | CallSetFrame fresh cs refObj targetObj => setFrame fresh cs refObj targetObj o
  | CallSetFrameRef fresh cs refObj => setFrame_ref fresh cs refObj o
  | CallSetFrameShared f => setFrame_shared f o
  end.

(** The observer after a sequence of calls, first call first. *)
Definition calls (cs : list Call) (o : Observer) : Observer :=
  fold_left (fun o c => call c o) cs o.

(** The first block of [update]: both clocks advance and [simTime] is
    clamped. *)
Definition updateClock (dt timeScale : R) (o : Observer) : Observer :=
  let o := set_realTime (realTime o + dt) o in
  let o := set_simTime (simTime o + (dt / 86400.0) * timeScale) o in
  let o := if Rge_dec (simTime o) maximumSimTime
           then set_simTime maximumSimTime o else o in
  if Rle_dec (simTime o) minimumSimTime
  then set_simTime minimumSimTime o else o.

(** The blocks of [update] that follow the journey block and precede
    [updateUniversal]: velocity blending, position integration and, in
    [Free] mode, orientation integration. *)
Definition updateManual (dt : R) (o : Observer) : Observer :=
  let o := updateVelocity o in
  let o := set_position
             (UC.offsetKm (position o) (Vec.scale (getVelocity o) dt)) o in
  match observerMode o with
  | Free => updateOrientation dt o
  | Travelling => o
  end.

(** The state in which the journey block leaves a completed Linear or
    GreatCircle journey. *)
Definition arrived (o : Observer) : Observer :=
  setVelocity Vec.Zero
    (set_observerMode Free
       (set_orientation (finalOrientation (journey o))
          (set_position (to (journey o)) o))).

End Vocabulary.

Section MoreVocabulary.
Context {O : CelestialObjects} {C : Collaborators}.

(** The members a tick never writes agree: the frame, the journey
    parameters, the tracked object and the tracking orientation, the
    angular velocity, the target speed and velocity with the time the
    acceleration began, and the view settings. *)
Definition sameControls (o o' : Observer) : Prop :=
  frame o' = frame o /\ journey o' = journey o /\
  trackObject o' = trackObject o /\ angularVelocity o' = angularVelocity o /\
  targetSpeed o' = targetSpeed o /\ targetVelocity o' = targetVelocity o /\
  initialVelocity o' = initialVelocity o /\ beginAccelTime o' = beginAccelTime o /\
  trackingOrientation o' = trackingOrientation o /\ fov o' = fov o /\
  reverseFlag o' = reverseFlag o /\ locationFilter o' = locationFilter o /\
  displayedSurface o' = displayedSurface o.

(** The conversions of a frame to and from universal coordinates are
    inverse to each other at time [t], on positions and on
    orientations. *)
Definition exactFrame (f : ObserverFrame) (t : R) : Prop :=
  (forall u, convertToUniversal f (convertFromUniversal f u t) t = u) /\
  (forall p, convertFromUniversal f (convertToUniversal f p t) t = p) /\
  (forall q, convertToUniversalQ f (convertFromUniversalQ f q t) t = q) /\
  (forall q, convertFromUniversalQ f (convertToUniversalQ f q t) t = q).

(** The step of the [std::accumulate] in the star case of
    [getPreferredDistance]: the larger of the radius so far and the
    bounding radius of the orbit of the next star, if it has an orbit. *)
Definition widest (r : R) (s' : Star) : R :=
  match star_orbitBoundingRadius s' with
  | None => r
  | Some bounding => maxR r bounding
  end.

(** The quaternion with every coefficient negated: the same rotation. *)
Definition negated (q : Quaterniond) : Quaterniond :=
  mkQuaterniond (- qw q) (- qx q) (- qy q) (- qz q).

End MoreVocabulary.

(* ------------------------------------------------------------------ *)
(** ** Frame switches *)

Section FrameSwitch.
Context {O : CelestialObjects} {C : Collaborators}.

Lemma sameJourneyShape_refl (j : JourneyParams) : sameJourneyShape j j.
Proof. unfold sameJourneyShape; repeat split. Qed.

Lemma sameOutsideFrame_refl (o : Observer) : sameOutsideFrame o o.
Proof. unfold sameOutsideFrame, sameJourneyShape; repeat split. Qed.

Lemma convertFrameCoordinates_spec (newFrame : FramePtr) (o : Observer) :
  let o' := convertFrameCoordinates newFrame o in
  sameOutsideFrame o o' /\ reencodedFor (ptr_target newFrame) o o' /\
  frame o' = frame o.
Proof.
  unfold convertFrameCoordinates, sameOutsideFrame, sameJourneyShape, reencodedFor.
  cbn. repeat split.
Qed.

Lemma setFrame_spec (fresh : nat) (cs : CoordinateSystem)
      (refObj targetObj : Selection) (o : Observer) :
  let o' := setFrame fresh cs refObj targetObj o in
  sameOutsideFrame o o' /\
  reencodedFor (ObserverFrame_new cs refObj targetObj) o o' /\
  frame o' = mkFramePtr fresh (ObserverFrame_new cs refObj targetObj).
Proof.
  unfold setFrame, convertFrameCoordinates, sameOutsideFrame, sameJourneyShape,
    reencodedFor.
  cbn. repeat split.
Qed.

(** C2.  Whatever the observer, its current frame and the new frame,
    each of the three [setFrame] overloads leaves the universal position
    [getPosition] and the universal orientation [getOrientation] as they
    were, together with every field that is not frame-local; what changes
    is the frame and the frame-local position, orientation and journey
    end points ([from], [to], [initialOrientation], [finalOrientation]),
    which are recomputed for the new frame.  The shared-pointer overload
    does nothing at all when handed the pointer the observer already
    holds. *)
Theorem setFrame_keeps_universal
        (fresh : nat) (cs : CoordinateSystem) (refObj targetObj : Selection)
        (f : FramePtr) (o : Observer) :
  (let o' := setFrame fresh cs refObj targetObj o in
   getPosition o' = getPosition o /\ getOrientation o' = getOrientation o /\
   sameOutsideFrame o o' /\
   reencodedFor (ObserverFrame_new cs refObj targetObj) o o' /\
   frame o' = mkFramePtr fresh (ObserverFrame_new cs refObj targetObj)) /\
  (let o' := setFrame_ref fresh cs refObj o in
   getPosition o' = getPosition o /\ getOrientation o' = getOrientation o /\
   sameOutsideFrame o o' /\
   reencodedFor (ObserverFrame_new cs refObj Sel_Nil) o o' /\
   frame o' = mkFramePtr fresh (ObserverFrame_new cs refObj Sel_Nil)) /\
  (let o' := setFrame_shared f o in
   getPosition o' = getPosition o /\ getOrientation o' = getOrientation o /\
   sameOutsideFrame o o' /\
   if ptr_eqb (frame o) f then o' = o
   else reencodedFor (ptr_target f) o o' /\ frame o' = f).
Proof.
  split; [ | split ].
  - destruct (setFrame_spec fresh cs refObj targetObj o) as (Hs & Hr & Hf).
    cbv zeta. repeat split; try assumption; apply Hs.
  - destruct (setFrame_spec fresh cs refObj Sel_Nil o) as (Hs & Hr & Hf).
    unfold setFrame_ref. cbv zeta. repeat split; try assumption; apply Hs.
  - unfold setFrame_shared. cbv zeta.
    destruct (ptr_eqb (frame o) f); cbn [negb].
    + repeat split; try reflexivity; apply sameOutsideFrame_refl.
    + destruct (convertFrameCoordinates_spec f o) as (Hs & Hr & Hf).
      cbv zeta in Hs, Hr, Hf.
      assert (Hs' : sameOutsideFrame o (set_frame f (convertFrameCoordinates f o))).
      { unfold sameOutsideFrame in *. cbn. exact Hs. }
      repeat split; try apply Hs'; try apply Hr.
Qed.

End FrameSwitch.

(* ------------------------------------------------------------------ *)
(** ** Frames installed by the goto operations *)

Section GotoFrames.
Context {O : CelestialObjects} {C : Collaborators}.

Lemma createFrame_center (cs : CoordinateSystem) (refObj targetObj : Selection) :
  getCenter (createFrame cs refObj targetObj) = anchorOf cs refObj.
Proof. destruct cs; reflexivity. Qed.

Lemma computeGotoParameters_installs
      (fresh : nat) (destination : Selection)
      (gotoTime startInter endInter accelTime_ : R)
      (offset : Vector3d) (offsetCoordSys : CoordinateSystem)
      (up : Vector3d) (upCoordSys : CoordinateSystem) (o : Observer) :
  let cs := getCoordinateSystem (ptr_target (frame o)) in
  gotoInstalls
    (mkFramePtr fresh (ObserverFrame_new (directGotoTag cs) destination Sel_Nil)) o
    (set_observerMode Travelling
       (computeGotoParameters fresh destination gotoTime startInter endInter
          accelTime_ offset offsetCoordSys up upCoordSys o)).
Proof.
  unfold gotoInstalls, computeGotoParameters, getCoordinateSystem.
  destruct (coordSys (ptr_target (frame o)));
    destruct offsetCoordSys; cbn; repeat split.
Qed.

Lemma computeGotoParametersGC_installs
      (fresh : nat) (destination : Selection) (gotoTime : R)
      (offset : Vector3d) (offsetCoordSys : CoordinateSystem)
      (up : Vector3d) (upCoordSys : CoordinateSystem)
      (centerObj : Selection) (o : Observer) :
  let cs := getCoordinateSystem (ptr_target (frame o)) in
  gotoInstalls
    (mkFramePtr fresh (ObserverFrame_new cs destination Sel_Nil)) o
    (set_observerMode Travelling
       (computeGotoParametersGC fresh destination gotoTime offset offsetCoordSys
          up upCoordSys centerObj o)).
Proof.
  unfold gotoInstalls, computeGotoParametersGC, getCoordinateSystem.
  cbn; repeat split.
Qed.

(** C10 (as amended).  For every non-empty destination, each direct goto
    ([gotoSelection] in its three overloads, [gotoSelectionLongLat]) and
    each great-circle goto ([gotoSelectionGC] in its two overloads)
    replaces the frame through [setFrame] before the journey is
    installed: the new frame is built from the current coordinate-system
    tag -- a direct goto replacing [PhaseLock] by [Ecliptical] -- with
    the destination as reference object, the universal position and
    orientation are unchanged, and the journey departs from them as
    expressed in the new frame.  The new frame is centred on the
    destination for every tag except [Universal] and [ObserverLocal],
    whose frame is centred on the barycentre (the empty selection). *)
Theorem goto_replaces_frame
        (fresh : nat) (destination : Selection)
        (gotoTime startInter endInter accelTime_ distance longitude latitude : R)
        (up : Vector3d) (upFrame : CoordinateSystem) (o : Observer) :
  sel_empty destination = false ->
  let cs := getCoordinateSystem (ptr_target (frame o)) in
  let direct :=
    mkFramePtr fresh (ObserverFrame_new (directGotoTag cs) destination Sel_Nil) in
  let greatCircle :=
    mkFramePtr fresh (ObserverFrame_new cs destination Sel_Nil) in
  (gotoInstalls direct o (gotoSelection fresh destination gotoTime up upFrame o) /\
   gotoInstalls direct o
     (gotoSelection_inter fresh destination gotoTime startInter endInter
        accelTime_ up upFrame o) /\
   gotoInstalls direct o
     (gotoSelection_distance fresh destination gotoTime distance up upFrame o) /\
   gotoInstalls direct o
     (gotoSelectionLongLat fresh destination gotoTime distance longitude
        latitude up o) /\
   gotoInstalls greatCircle o
     (gotoSelectionGC fresh destination gotoTime up upFrame o) /\
   gotoInstalls greatCircle o
     (gotoSelectionGC_distance fresh destination gotoTime distance up upFrame o)) /\
  (getCoordinateSystem (ptr_target direct) = directGotoTag cs /\
   getRefObject (ptr_target direct) = anchorOf (directGotoTag cs) destination) /\
  (getCoordinateSystem (ptr_target greatCircle) = cs /\
   getRefObject (ptr_target greatCircle) = anchorOf cs destination).
Proof.
  intros Hne cs direct greatCircle.
  split; [ | split ].
  - unfold gotoSelection, gotoSelection_inter, gotoSelection_distance,
      gotoSelectionLongLat, gotoSelectionGC, gotoSelectionGC_distance.
    rewrite Hne; cbn [negb].
    repeat split;
      first [ apply computeGotoParameters_installs
            | apply computeGotoParametersGC_installs ].
  - split; [ reflexivity | ].
    unfold direct, getRefObject, ObserverFrame_new; cbn [ptr_target of_frame].
    apply createFrame_center.
  - split; [ reflexivity | ].
    unfold greatCircle, getRefObject, ObserverFrame_new; cbn [ptr_target of_frame].
    apply createFrame_center.
Qed.

End GotoFrames.

(* ------------------------------------------------------------------ *)
(** ** Operations on an empty selection *)

Section EmptySelection.
Context {O : CelestialObjects} {C : Collaborators}.

(** C7 (as amended).  On the empty selection the goto operations
    ([gotoSelection] in its three overloads, [gotoSelectionGC] in its
    two, [gotoSelectionLongLat]), the centre operations
    ([centerSelection], [centerSelectionCO]), [chase] and
    [geosynchronousFollow] return the observer they were given: mode,
    position, orientation, frame and journey are unchanged, and the
    functions are total, so nothing is raised.  [follow] is not among
    them: on the empty selection it installs an ecliptical frame centred
    on the barycentre, recomputing the frame-local values for it while
    the mode and the universal position and orientation stay. *)
Theorem empty_selection_noop
        (fresh : nat) (gotoTime startInter endInter accelTime_ distance : R)
        (longitude latitude centerTime : R)
        (up : Vector3d) (upFrame : CoordinateSystem) (o : Observer) :
  gotoSelection fresh Sel_Nil gotoTime up upFrame o = o /\
  gotoSelection_inter fresh Sel_Nil gotoTime startInter endInter accelTime_
                      up upFrame o = o /\
  gotoSelection_distance fresh Sel_Nil gotoTime distance up upFrame o = o /\
  gotoSelectionGC fresh Sel_Nil gotoTime up upFrame o = o /\
  gotoSelectionGC_distance fresh Sel_Nil gotoTime distance up upFrame o = o /\
  gotoSelectionLongLat fresh Sel_Nil gotoTime distance longitude latitude up o = o /\
  centerSelection Sel_Nil centerTime o = o /\
  centerSelectionCO Sel_Nil centerTime o = o /\
  chase fresh Sel_Nil o = o /\
  geosynchronousFollow fresh Sel_Nil o = o /\
  (let o' := follow fresh Sel_Nil o in
   frame o' = mkFramePtr fresh (ObserverFrame_new Ecliptical Sel_Nil Sel_Nil) /\
   getRefObject (ptr_target (frame o')) = Sel_Nil /\
   sameOutsideFrame o o' /\
   reencodedFor (ObserverFrame_new Ecliptical Sel_Nil Sel_Nil) o o').
Proof.
  repeat (split; [ reflexivity | ]).
  destruct (setFrame_spec fresh Ecliptical Sel_Nil Sel_Nil o) as (Hs & Hr & Hf).
  split; [ exact Hs | exact Hr ].
Qed.

(** [gotoSurface] has no test of its selection: it starts a journey
    whatever it is given. *)
Lemma gotoSurface_travels (sel : Selection) (duration_ : R) (o : Observer) :
  observerMode (gotoSurface sel duration_ o) = Travelling.
Proof. reflexivity. Qed.

End EmptySelection.

(* ------------------------------------------------------------------ *)
(** ** Consistency of the dual representation *)

Section Consistency.
Context {O : CelestialObjects} {C : Collaborators}.

Lemma updateUniversal_frame (o : Observer) :
  frame (updateUniversal o) = frame o /\ simTime (updateUniversal o) = simTime o /\
  orientation (updateUniversal o) = orientation o /\
  observerMode (updateUniversal o) = observerMode o /\
  velocity (updateUniversal o) = velocity o /\
  journey (updateUniversal o) = journey o /\
  trackObject (updateUniversal o) = trackObject o.
Proof.
  unfold updateUniversal.
  destruct (isOutOfBounds _); cbn; repeat split.
Qed.

(** What [updateUniversal] does to the position pair: an in-bounds
    result is committed to [positionUniv]; an out-of-bounds one is
    dropped, [positionUniv] keeps its value and [position] is recomputed
    from it.  The orientation is resynchronised in both cases. *)
Lemma updateUniversal_spec (o : Observer) :
  let o' := updateUniversal o in
  let attempt := convertToUniversal (ptr_target (frame o)) (position o) (simTime o) in
  (if isOutOfBounds attempt
   then positionUniv o' = positionUniv o /\
        position o' =
          convertFromUniversal (ptr_target (frame o')) (positionUniv o') (simTime o')
   else positionUniv o' = attempt /\ position o' = position o) /\
  orientationUniv o' =
    convertToUniversalQ (ptr_target (frame o')) (orientation o') (simTime o').
Proof.
  unfold updateUniversal. cbv zeta.
  destruct (isOutOfBounds _); cbn; repeat split.
Qed.

Lemma updateUniversal_synced (o : Observer) :
  positionSynced (updateUniversal o) /\ orientationSynced (updateUniversal o).
Proof.
  unfold positionSynced, orientationSynced, updateUniversal.
  destruct (isOutOfBounds _) eqn:E; cbn; split; auto.
Qed.

Lemma setPosition_synced (p : UniversalCoord) (o : Observer) :
  orientationSynced o ->
  positionSynced (setPosition p o) /\ orientationSynced (setPosition p o).
Proof.
  unfold positionSynced, orientationSynced, setPosition; cbn; intros H; split; auto.
Qed.

Lemma setOrientation_synced (q : Quaterniond) (o : Observer) :
  positionSynced o ->
  positionSynced (setOrientation q o) /\ orientationSynced (setOrientation q o).
Proof.
  unfold positionSynced, orientationSynced, setOrientation; cbn; intros H; split; auto.
Qed.

Lemma setFrame_synced (fresh : nat) (cs : CoordinateSystem)
      (refObj targetObj : Selection) (o : Observer) :
  positionSynced (setFrame fresh cs refObj targetObj o) /\
  orientationSynced (setFrame fresh cs refObj targetObj o).
Proof.
  unfold positionSynced, orientationSynced, setFrame, convertFrameCoordinates; cbn.
  split; right; reflexivity.
Qed.

Lemma setFrame_shared_synced (f : FramePtr) (o : Observer) :
  positionSynced o -> orientationSynced o ->
  positionSynced (setFrame_shared f o) /\ orientationSynced (setFrame_shared f o).
Proof.
  intros Hp Ho. unfold setFrame_shared.
  destruct (ptr_eqb (frame o) f); cbn [negb]; [ split; assumption | ].
  unfold positionSynced, orientationSynced, convertFrameCoordinates; cbn.
  split; right; reflexivity.
Qed.

Lemma updateTracking_synced (o : Observer) :
  positionSynced o -> orientationSynced o ->
  positionSynced (updateTracking o) /\ orientationSynced (updateTracking o).
Proof.
  intros Hp Ho. unfold updateTracking.
  destruct (sel_empty (trackObject o)); [ split; assumption | ].
  apply setOrientation_synced; assumption.
Qed.

Lemma update_synced (dt timeScale : R) (o : Observer) :
  positionSynced (update dt timeScale o) /\ orientationSynced (update dt timeScale o).
Proof.
  unfold update. cbv zeta.
  match goal with
  | |- positionSynced (updateTracking (updateUniversal ?x)) /\ _ =>
      destruct (updateUniversal_synced x) as [Hp Ho]
  end.
  apply updateTracking_synced; assumption.
Qed.

End Consistency.

(* ------------------------------------------------------------------ *)
(** ** The per-tick update *)

Section Tick.
Context {O : CelestialObjects} {C : Collaborators}.

Lemma update_blocks (dt timeScale : R) (o : Observer) :
  update dt timeScale o =
  updateTracking
    (updateUniversal
       (updateManual dt
          (match observerMode (updateClock dt timeScale o) with
           | Travelling => updateJourney (updateClock dt timeScale o)
           | Free => updateClock dt timeScale o
           end))).
Proof. reflexivity. Qed.

Lemma updateClock_fields (dt timeScale : R) (o : Observer) :
  let o' := updateClock dt timeScale o in
  realTime o' = realTime o + dt /\ observerMode o' = observerMode o /\
  journey o' = journey o /\ frame o' = frame o /\
  targetVelocity o' = targetVelocity o /\ angularVelocity o' = angularVelocity o /\
  trackObject o' = trackObject o /\ positionUniv o' = positionUniv o /\
  beginAccelTime o' = beginAccelTime o.
Proof.
  unfold updateClock. cbv zeta.
  destruct (Rge_dec _ _); destruct (Rle_dec _ _); cbn; repeat split.
Qed.

Lemma clamp_upper (x : R) : 1 <= x -> clamp x 0 1 = 1.
Proof.
  intros H. unfold clamp.
  destruct (Rlt_dec x 0); [ lra | ].
  destruct (Rlt_dec 1 x); lra.
Qed.

Lemma journeyProgress_done (j : JourneyParams) (now : R) :
  0 < duration j -> startTime j + duration j <= now ->
  journeyProgress j now = 1.
Proof.
  intros Hd Hn. unfold journeyProgress.
  destruct (Rlt_dec 0 (duration j)); [ | lra ].
  apply clamp_upper.
  apply Rmult_le_reg_r with (duration j); [ assumption | ].
  unfold Rdiv. rewrite Rmult_assoc, Rinv_l by lra. lra.
Qed.

Lemma updateJourney_done (o : Observer) :
  0 < duration (journey o) ->
  traj (journey o) <> CircularOrbit ->
  startTime (journey o) + duration (journey o) <= realTime o ->
  updateJourney o = arrived o.
Proof.
  intros Hd Ht Hn. unfold updateJourney. cbv zeta.
  rewrite (journeyProgress_done _ _ Hd Hn).
  destruct (Req_dec_T 1 1) as [_ | N]; [ | contradiction N; reflexivity ].
  destruct (traj (journey o)); try reflexivity.
  contradiction Ht; reflexivity.
Qed.

Lemma offsetKm_zero_velocity (p : UniversalCoord) (dt : R) :
  UC.offsetKm p (Vec.scale Vec.Zero dt) = p.
Proof.
  destruct p as [x y z]. unfold UC.offsetKm, Vec.scale, Vec.Zero. cbn.
  f_equal; ring.
Qed.

Lemma updateVelocity_fields (o : Observer) :
  let o' := updateVelocity o in
  observerMode o' = observerMode o /\ journey o' = journey o /\
  frame o' = frame o /\ simTime o' = simTime o /\
  position o' = position o /\ orientation o' = orientation o /\
  angularVelocity o' = angularVelocity o /\ trackObject o' = trackObject o /\
  positionUniv o' = positionUniv o.
Proof.
  unfold updateVelocity. cbv zeta.
  destruct (Vec.eq_dec _ _); [ repeat split | ].
  destruct (Rlt_dec _ _); cbn; repeat split.
Qed.

Lemma updateVelocity_at_target (o : Observer) :
  velocity o = targetVelocity o -> updateVelocity o = o.
Proof.
  intros H. unfold updateVelocity, getVelocity.
  destruct (Vec.eq_dec _ _) as [_ | N]; [ reflexivity | contradiction ].
Qed.

Lemma updateManual_fields (dt : R) (o : Observer) :
  let o' := updateManual dt o in
  observerMode o' = observerMode o /\ journey o' = journey o /\
  frame o' = frame o /\ simTime o' = simTime o /\
  trackObject o' = trackObject o /\ positionUniv o' = positionUniv o /\
  velocity o' = velocity (updateVelocity o) /\
  position o' =
    UC.offsetKm (position o) (Vec.scale (velocity (updateVelocity o)) dt).
Proof.
  destruct (updateVelocity_fields o) as (Hm & Hj & Hf & Hs & Hp & Ho & Ha & Ht & Hu).
  unfold updateManual, getVelocity. cbv zeta. cbn [observerMode set_position].
  cbv zeta in Hm. rewrite Hm.
  destruct (observerMode o); unfold updateOrientation; cbn;
    rewrite ?Hm, ?Hj, ?Hf, ?Hs, ?Hp, ?Ht, ?Hu; repeat split.
Qed.

Lemma updateTracking_fields (o : Observer) :
  let o' := updateTracking o in
  observerMode o' = observerMode o /\ journey o' = journey o /\
  frame o' = frame o /\ simTime o' = simTime o /\
  position o' = position o /\ positionUniv o' = positionUniv o /\
  velocity o' = velocity o.
Proof.
  unfold updateTracking. cbv zeta.
  destruct (sel_empty _); cbn; repeat split.
Qed.

Lemma normalized_unit (q : Quaterniond) :
  Quat.squaredNorm q = 1 -> Quat.normalized q = q.
Proof.
  intros H. unfold Quat.normalized, Quat.norm. rewrite H.
  destruct (Rlt_dec 0 1); [ | lra ].
  rewrite sqrt_1. destruct q as [w x y z]. cbn. f_equal; field.
Qed.

Lemma updateOrientation_still (dt : R) (o : Observer) :
  angularVelocity o = Vec.Zero -> Quat.squaredNorm (orientation o) = 1 ->
  orientation (updateOrientation dt o) = orientation o.
Proof.
  intros Ha Hn. unfold updateOrientation, getAngularVelocity. cbv zeta.
  rewrite Ha. cbn [orientation set_orientation].
  match goal with
  | |- Quat.normalized ?a = _ => assert (E : a = orientation o)
  end.
  { destruct (orientation o) as [w x y z].
    unfold Quat.addScaled, Quat.mul, Vec.scale, Vec.Zero. cbn. f_equal; ring. }
  rewrite E. apply normalized_unit; exact Hn.
Qed.

Lemma update_on_arrival (dt timeScale : R) (o : Observer) :
  observerMode o = Travelling ->
  0 < duration (journey o) ->
  traj (journey o) <> CircularOrbit ->
  startTime (journey o) + duration (journey o) <= realTime o + dt ->
  let j := journey o in
  let snap := updateJourney (updateClock dt timeScale o) in
  let o' := update dt timeScale o in
  (observerMode snap = Free /\ position snap = to j /\
   orientation snap = finalOrientation j /\ velocity snap = Vec.Zero) /\
  observerMode o' = Free /\ journey o' = j /\
  (targetVelocity o = Vec.Zero ->
   velocity o' = Vec.Zero /\
   (isOutOfBounds
      (convertToUniversal (ptr_target (frame o)) (to j) (simTime o')) = false ->
    position o' = to j /\
    positionUniv o' =
      convertToUniversal (ptr_target (frame o)) (to j) (simTime o'))) /\
  (angularVelocity o = Vec.Zero ->
   Quat.squaredNorm (finalOrientation j) = 1 ->
   sel_empty (trackObject o) = true ->
   orientation o' = finalOrientation j).
Proof.
  intros Hmode Hd Ht Hn j snap o'. subst j.
  destruct (updateClock_fields dt timeScale o)
    as (Hcr & Hcm & Hcj & Hcf & Hctv & Hcav & Hcto & Hcpu & Hcb).
  cbv zeta in *.
  set (oc := updateClock dt timeScale o) in *.
  assert (Hsnap : snap = arrived oc).
  { unfold snap. apply updateJourney_done; rewrite Hcj, ?Hcr; assumption. }
  assert (Ho' : o' = updateTracking (updateUniversal (updateManual dt (arrived oc)))).
  { unfold o'. rewrite update_blocks. fold oc. rewrite Hcm, Hmode.
    fold snap. rewrite Hsnap. reflexivity. }
  set (oa := arrived oc) in *.
  destruct (updateManual_fields dt oa)
    as (Hmm & Hmj & Hmf & Hms & Hmt & Hmu & Hmv & Hmp).
  cbv zeta in *.
  set (om := updateManual dt oa) in *.
  destruct (updateUniversal_frame om) as (Huf & Hus & Huo & Hum & Huv & Huj & Hut).
  destruct (updateTracking_fields (updateUniversal om))
    as (Htm & Htj & Htf & Hts & Htp & Htu & Htv).
  cbv zeta in *.
  split; [ | split; [ | split; [ | split ] ] ].
  - rewrite Hsnap. unfold oa, arrived. cbn. rewrite Hcj. repeat split.
  - rewrite Ho', Htm, Hum, Hmm. reflexivity.
  - rewrite Ho', Htj, Huj, Hmj. unfold oa, arrived; cbn. exact Hcj.
  - intros Htv0.
    assert (Hv : updateVelocity oa = oa).
    { apply updateVelocity_at_target. unfold oa, arrived; cbn.
      rewrite Hctv. symmetry; exact Htv0. }
    split.
    + rewrite Ho', Htv, Huv, Hmv, Hv. reflexivity.
    + intros Hin.
      assert (Hpm : position om = to (journey o)).
      { rewrite Hmp, Hv. unfold oa at 2, arrived; cbn [velocity setVelocity set_velocity].
        rewrite offsetKm_zero_velocity. unfold oa, arrived; cbn. rewrite Hcj.
        reflexivity. }
      pose proof (updateUniversal_spec om) as [Hpos _]. cbv zeta in Hpos.
      assert (Hsim : simTime o' = simTime om).
      { rewrite Ho', Hts, Hus. reflexivity. }
      rewrite Hsim in Hin.
      rewrite Hpm, Hmf in Hpos.
      replace (frame oa) with (frame o) in Hpos
        by (unfold oa, arrived; cbn; symmetry; exact Hcf).
      rewrite Hin in Hpos. destruct Hpos as [Hpu Hpos].
      split; [ rewrite Ho', Htp, Hpos; reflexivity | ].
      rewrite Hsim, Ho', Htu, Hpu. reflexivity.
  - intros Hav Hunit Htrack.
    rewrite Ho'. unfold updateTracking.
    rewrite Hut, Hmt.
    replace (trackObject oa) with (trackObject o)
      by (unfold oa, arrived; cbn; symmetry; exact Hcto).
    rewrite Htrack. rewrite Huo.
    unfold om, updateManual. cbv zeta.
    destruct (updateVelocity_fields oa) as (Hvm & Hvj & Hvf & Hvs & Hvp & Hvo & Hva & _).
    cbv zeta in *. cbn [observerMode set_position]. rewrite Hvm.
    replace (observerMode oa) with Free by reflexivity.
    rewrite updateOrientation_still.
    + cbn. rewrite Hvo. unfold oa, arrived; cbn. rewrite Hcj. reflexivity.
    + cbn. rewrite Hva. unfold oa, arrived; cbn. rewrite Hcav. exact Hav.
    + cbn. rewrite Hvo. unfold oa, arrived; cbn. rewrite Hcj. exact Hunit.
Qed.

(** C3 (as amended).  For every journey of positive duration with a
    Linear or GreatCircle trajectory that is under way (mode
    [Travelling]), the [update] call that takes [realTime] to at least
    [startTime + duration] ends in mode [Free], and its journey block
    sets the frame-local position to [journey.to], the orientation to
    [journey.finalOrientation] and the velocity to zero.  The remaining
    blocks of the same call then act on these values: at the end of the
    call the velocity is zero and the position is [journey.to], with
    the universal position its image, provided [targetVelocity] is zero
    (and [journey.to] is in bounds); the
    orientation is [journey.finalOrientation] provided the angular
    velocity is zero, [finalOrientation] has unit norm and no object is
    tracked. *)
Theorem journey_completion (dt timeScale : R) (o : Observer) :
  observerMode o = Travelling ->
  0 < duration (journey o) ->
  traj (journey o) <> CircularOrbit ->
  startTime (journey o) + duration (journey o) <= realTime o + dt ->
  let j := journey o in
  let snap := updateJourney (updateClock dt timeScale o) in
  let o' := update dt timeScale o in
  (observerMode snap = Free /\ position snap = to j /\
   orientation snap = finalOrientation j /\ velocity snap = Vec.Zero) /\
  observerMode o' = Free /\ journey o' = j /\
  (targetVelocity o = Vec.Zero ->
   velocity o' = Vec.Zero /\
   (isOutOfBounds
      (convertToUniversal (ptr_target (frame o)) (to j) (simTime o')) = false ->
    position o' = to j /\
    positionUniv o' =
      convertToUniversal (ptr_target (frame o)) (to j) (simTime o'))) /\
  (angularVelocity o = Vec.Zero ->
   Quat.squaredNorm (finalOrientation j) = 1 ->
   sel_empty (trackObject o) = true ->
   orientation o' = finalOrientation j).
Proof. exact (update_on_arrival dt timeScale o). Qed.

End Tick.

(* ------------------------------------------------------------------ *)
(** ** Vector algebra and the travel profile *)

Section VectorFacts.

Lemma squaredNorm_nonneg (v : Vector3d) : 0 <= Vec.squaredNorm v.
Proof. unfold Vec.squaredNorm, Vec.dot. nra. Qed.

Lemma norm_nonneg (v : Vector3d) : 0 <= Vec.norm v.
Proof. apply sqrt_pos. Qed.

Lemma norm_nonzero_pos (v : Vector3d) : Vec.norm v <> 0 -> 0 < Vec.squaredNorm v.
Proof.
  intros H. destruct (Rle_lt_dec (Vec.squaredNorm v) 0) as [Hle | Hlt]; [ | exact Hlt ].
  exfalso; apply H. unfold Vec.norm. apply sqrt_neg_0; exact Hle.
Qed.

Lemma norm_scale (v : Vector3d) (a : R) :
  Vec.norm (Vec.scale v a) = Rabs a * Vec.norm v.
Proof.
  unfold Vec.norm.
  replace (Vec.squaredNorm (Vec.scale v a)) with (Rsqr a * Vec.squaredNorm v)
    by (unfold Vec.squaredNorm, Vec.dot, Vec.scale, Rsqr; cbn; ring).
  rewrite sqrt_mult; [ | apply Rle_0_sqr | apply squaredNorm_nonneg ].
  rewrite sqrt_Rsqr_abs. reflexivity.
Qed.

Lemma norm_neg (v : Vector3d) : Vec.norm (Vec.neg v) = Vec.norm v.
Proof.
  unfold Vec.norm. f_equal.
  unfold Vec.squaredNorm, Vec.dot, Vec.neg; cbn; ring.
Qed.

Lemma norm_normalized (v : Vector3d) :
  0 < Vec.squaredNorm v -> Vec.norm (Vec.normalized v) = 1.
Proof.
  intros H. unfold Vec.normalized.
  destruct (Rlt_dec 0 (Vec.squaredNorm v)) as [_ | N]; [ | contradiction ].
  assert (Hn : 0 < Vec.norm v) by (apply sqrt_lt_R0; exact H).
  replace (Vec.divide v (Vec.norm v)) with (Vec.scale v (/ Vec.norm v))
    by (unfold Vec.divide, Vec.scale, Rdiv; reflexivity).
  rewrite norm_scale, Rabs_right.
  - field. lra.
  - left. apply Rinv_0_lt_compat; exact Hn.
Qed.

Lemma offsetFromKm_offsetKm (p : UniversalCoord) (v : Vector3d) :
  UC.offsetFromKm (UC.offsetKm p v) p = v.
Proof.
  destruct p, v. unfold UC.offsetFromKm, UC.offsetKm; cbn. f_equal; ring.
Qed.

End VectorFacts.

Section Profile.
Context {O : CelestialObjects} {C : Collaborators}.

Lemma exp_profile_slope (k s : R) :
  derivable_pt_lim (fun u => exp (k * u) - 1) s (k * exp (k * s)).
Proof.
  replace (k * exp (k * s)) with (exp (k * s) * (k * 1) - 0) by ring.
  apply (derivable_pt_lim_minus (fun u => exp (k * u)) (fun _ => 1)).
  - apply (derivable_pt_lim_comp (fun u => k * u) exp).
    + apply (derivable_pt_lim_scal id k s 1). apply derivable_pt_lim_id.
    + apply derivable_pt_lim_exp.
  - apply derivable_pt_lim_const.
Qed.

Lemma linear_profile_facts (o : Observer) (t : R) :
  traj (journey o) = Linear ->
  Vec.norm (UC.offsetFromKm (to (journey o)) (from (journey o))) <> 0 ->
  let j := journey o in
  let k := expFactor j in
  let s := accelTime j in
  let u := if Rlt_dec t 0.5 then t * 2 else (1 - t) * 2 in
  let x := travelProfile j t in
  let dir := Vec.normalized (UC.offsetFromKm (to j) (from j)) in
  (if Rlt_dec u s then x = exp (k * u) - 1
   else x = (exp (k * s) - 1) + k * exp (k * s) * (u - s)) /\
  derivable_pt_lim (fun u => exp (k * u) - 1) s (k * exp (k * s)) /\
  (if Rlt_dec t 0.5
   then journeyPosition o t = UC.offsetKm (from j) (Vec.scale dir x) /\
        Vec.norm (UC.offsetFromKm (journeyPosition o t) (from j)) = Rabs x
   else journeyPosition o t = UC.offsetKm (to j) (Vec.scale (Vec.neg dir) x) /\
        Vec.norm (UC.offsetFromKm (journeyPosition o t) (to j)) = Rabs x).
Proof.
  intros Htraj Hjv j k s u x dir. subst j k s.
  assert (Hdir : Vec.norm dir = 1)
    by (apply norm_normalized, norm_nonzero_pos; exact Hjv).
  split; [ | split ].
  - unfold x, travelProfile. fold u.
    destruct (Rlt_dec u _); [ reflexivity | ring ].
  - apply exp_profile_slope.
  - unfold journeyPosition. rewrite Htraj. cbv zeta.
    destruct (Req_dec_T _ 0) as [E | _]; [ contradiction | ].
    fold dir. fold x.
    destruct (Rlt_dec t 0.5); (split; [ reflexivity | ]);
      rewrite offsetFromKm_offsetKm, norm_scale, ?norm_neg, Hdir; ring.
Qed.


(** C4 (as amended).  For a Linear journey between distinct end points
    at progress [t], with [u = 2t] for [t < 0.5] and [u = 2(1 - t)]
    otherwise, [s = accelTime] and [k = expFactor], the profile is
    [x(u) = exp(k u) - 1] while [u < s] -- the exponent is [k u], not
    [k s u] -- and for [u >= s] it is the line through the value
    [exp(k s) - 1] with the slope [k exp(k s)], which are the value and
    the derivative of [exp(k u) - 1] at [u = s].  In the first half the
    position is [x] along the unit vector from [from] to [to], measured
    from [from]; in the second half it is [x] back from [to]: the same
    shape mirrored, at distance [|x|] from the nearer end point. *)
Theorem linear_travel_profile (o : Observer) (t : R) :
  traj (journey o) = Linear ->
  Vec.norm (UC.offsetFromKm (to (journey o)) (from (journey o))) <> 0 ->
  let j := journey o in
  let k := expFactor j in
  let s := accelTime j in
  let u := if Rlt_dec t 0.5 then t * 2 else (1 - t) * 2 in
  let x := travelProfile j t in
  let dir := Vec.normalized (UC.offsetFromKm (to j) (from j)) in
  (if Rlt_dec u s then x = exp (k * u) - 1
   else x = (exp (k * s) - 1) + k * exp (k * s) * (u - s)) /\
  derivable_pt_lim (fun u => exp (k * u) - 1) s (k * exp (k * s)) /\
  (if Rlt_dec t 0.5
   then journeyPosition o t = UC.offsetKm (from j) (Vec.scale dir x) /\
        Vec.norm (UC.offsetFromKm (journeyPosition o t) (from j)) = Rabs x
   else journeyPosition o t = UC.offsetKm (to j) (Vec.scale (Vec.neg dir) x) /\
        Vec.norm (UC.offsetFromKm (journeyPosition o t) (to j)) = Rabs x).
Proof. exact (linear_profile_facts o t). Qed.

End Profile.

(* ------------------------------------------------------------------ *)
(** ** The destination of a direct goto *)

Section OrbitDistance.
Context {O : CelestialObjects} {C : Collaborators}.

Lemma maxR_lower (a b : R) : b <= maxR a b.
Proof. unfold maxR. destruct (Rlt_dec a b); lra. Qed.

Lemma rotate_identity (v : Vector3d) :
  Quat.rotate (Quat.conjugate Quat.Identity) v = v.
Proof.
  destruct v as [x y z].
  unfold Quat.rotate, Quat.conjugate, Quat.Identity, Quat.vec, Vec.cross,
    Vec.add, Vec.scale. cbn. f_equal; ring.
Qed.

Lemma computeGotoParameters_to_universal
      (fresh : nat) (destination : Selection)
      (gotoTime startInter endInter accelTime_ : R)
      (offset : Vector3d) (up : Vector3d) (upCoordSys : CoordinateSystem)
      (o : Observer) :
  let o' := computeGotoParameters fresh destination gotoTime startInter endInter
              accelTime_ offset Universal up upCoordSys o in
  to (journey o') =
    convertFromUniversal (ptr_target (frame o'))
      (UC.offsetKm (sel_getPosition destination (simTime o))
         (Quat.rotate
            (Quat.conjugate (rf_getOrientation (J2000EclipticFrame Sel_Nil) (simTime o)))
            offset))
      (simTime o) /\
  startInterpolation (journey o') = minR startInter endInter /\
  endInterpolation (journey o') = maxR startInter endInter /\
  accelTime (journey o') = accelTime_ /\
  duration (journey o') = gotoTime /\
  startTime (journey o') = realTime o /\
  traj (journey o') = Linear /\
  simTime o' = simTime o /\ realTime o' = realTime o /\
  targetVelocity o' = targetVelocity o /\ trackObject o' = trackObject o /\
  angularVelocity o' = angularVelocity o.
Proof.
  unfold computeGotoParameters, getCoordinateSystem.
  destruct (coordSys (ptr_target (frame o))); cbn; repeat split.
Qed.

(** C6 (as amended).  For a non-empty selection of non-negative radius
    and an observer at distance [distance > 0] from it, the destination
    distance of a direct selection goto is the preferred distance when
    the observer is far (further than ten times the preferred distance)
    and one tenth of the current distance otherwise, in both cases
    raised to [1.01] times the radius when it is below it.  With the
    axes of the universal frame being the identity rotation, the
    destination lies on the line from the target towards the current
    position, at that distance from the target, and [journey.to] is this
    point in the coordinates of the new frame. *)
Theorem orbit_distance_policy
        (fresh : nat) (selection : Selection)
        (gotoTime startInter endInter accelTime_ : R)
        (up : Vector3d) (upFrame : CoordinateSystem) (o : Observer) :
  sel_empty selection = false ->
  0 <= sel_radius selection ->
  rf_getOrientation (J2000EclipticFrame Sel_Nil) (simTime o) = Quat.Identity ->
  let target := sel_getPosition selection (simTime o) in
  let distance := Vec.norm (UC.offsetFromKm target (getPosition o)) in
  distance <> 0 ->
  let preferred := getPreferredDistance selection in
  let orbitDistance := getOrbitDistance selection distance in
  let o' := gotoSelection_inter fresh selection gotoTime startInter endInter
              accelTime_ up upFrame o in
  let destination :=
    UC.offsetKm target
      (Vec.scale (UC.offsetFromKm (getPosition o) target) (orbitDistance / distance)) in
  (if Rlt_dec (preferred * 10) distance
   then orbitDistance = maxR preferred (1.01 * sel_radius selection)
   else orbitDistance = maxR (distance * 0.1) (1.01 * sel_radius selection)) /\
  1.01 * sel_radius selection <= orbitDistance /\
  to (journey o') =
    convertFromUniversal (ptr_target (frame o')) destination (simTime o) /\
  Vec.norm (UC.offsetFromKm destination target) = orbitDistance.
Proof.
  intros Hne Hrad Hori target distance Hdist preferred orbitDistance o' destination.
  assert (Hlow : 1.01 * sel_radius selection <= orbitDistance)
    by apply maxR_lower.
  split; [ | split; [ exact Hlow | split ] ].
  - unfold orbitDistance, getOrbitDistance. fold preferred.
    destruct (Rlt_dec (preferred * 10.0) distance) as [H | H];
      destruct (Rlt_dec (preferred * 10) distance) as [H' | H'];
      try reflexivity; lra.
  - unfold o', gotoSelection_inter. rewrite Hne. cbn [negb].
    cbn [journey frame set_observerMode].
    destruct (computeGotoParameters_to_universal fresh selection gotoTime
                startInter endInter accelTime_
                (Vec.scale
                   (UC.offsetFromKm (sel_getPosition selection (getTime o))
                                    (getPosition o))
                   (- (getOrbitDistance selection
                         (Vec.norm
                            (UC.offsetFromKm (sel_getPosition selection (getTime o))
                                             (getPosition o))) /
                       Vec.norm
                         (UC.offsetFromKm (sel_getPosition selection (getTime o))
                                          (getPosition o)))))
                up upFrame o) as [Hto _].
    cbv zeta in Hto. rewrite Hto, Hori, rotate_identity.
    f_equal. unfold destination, target, orbitDistance, distance, getTime.
    f_equal.
    destruct (sel_getPosition selection (simTime o)), (getPosition o).
    unfold Vec.scale, UC.offsetFromKm. cbn. f_equal; ring.
  - unfold destination. rewrite offsetFromKm_offsetKm, norm_scale.
    replace (Vec.norm (UC.offsetFromKm (getPosition o) target)) with distance.
    + rewrite Rabs_right.
      * field. exact Hdist.
      * apply Rle_ge. apply Rmult_le_pos; [ lra | ].
        left. apply Rinv_0_lt_compat.
        destruct (norm_nonneg (UC.offsetFromKm target (getPosition o))); [ assumption | ].
        exfalso; apply Hdist; symmetry; assumption.
    + unfold distance. rewrite <- (norm_neg (UC.offsetFromKm (getPosition o) target)).
      f_equal. destruct target, (getPosition o).
      unfold Vec.neg, UC.offsetFromKm. cbn. f_equal; ring.
Qed.

End OrbitDistance.

(* ------------------------------------------------------------------ *)
(** ** Orbiting the reference object *)

Section Rotation.

Lemma quat_squaredNorm_nonneg (q : Quaterniond) : 0 <= Quat.squaredNorm q.
Proof. unfold Quat.squaredNorm. nra. Qed.

Lemma conjugate_squaredNorm (q : Quaterniond) :
  Quat.squaredNorm (Quat.conjugate q) = Quat.squaredNorm q.
Proof. unfold Quat.squaredNorm, Quat.conjugate; cbn; ring. Qed.

(** The defect of [rotate] from an isometry is a multiple of the defect
    of the quaternion from unit norm. *)
Lemma rotate_squaredNorm (q : Quaterniond) (v : Vector3d) :
  Vec.squaredNorm (Quat.rotate q v) =
  Vec.squaredNorm v +
  (1 - Quat.squaredNorm q) *
  (4 * (Vec.dot (Quat.vec q) v * Vec.dot (Quat.vec q) v)
   - 4 * (Vec.squaredNorm (Quat.vec q) * Vec.squaredNorm v)).
Proof.
  destruct q as [w x y z], v as [a b c].
  unfold Quat.rotate, Quat.squaredNorm, Quat.vec, Vec.squaredNorm, Vec.dot,
    Vec.cross, Vec.add, Vec.scale. cbn. ring.
Qed.

Lemma normalized_squaredNorm (q : Quaterniond) :
  0 < Quat.squaredNorm q -> Quat.squaredNorm (Quat.normalized q) = 1.
Proof.
  intros H. unfold Quat.normalized.
  destruct (Rlt_dec 0 (Quat.squaredNorm q)) as [_ | N]; [ | contradiction ].
  assert (Hn : 0 < Quat.norm q) by (apply sqrt_lt_R0; exact H).
  assert (Hs : Quat.norm q * Quat.norm q = Quat.squaredNorm q)
    by (apply sqrt_sqrt; lra).
  destruct q as [w x y z].
  unfold Quat.squaredNorm in *. cbn in *.
  set (n := Quat.norm _) in *.
  replace (w / n * (w / n) + x / n * (x / n) + y / n * (y / n) + z / n * (z / n))
    with ((w * w + x * x + y * y + z * z) / (n * n)) by (field; lra).
  rewrite Hs. field. lra.
Qed.

Lemma rotate_normalized_isometry (q : Quaterniond) (v : Vector3d) :
  Vec.squaredNorm (Quat.rotate (Quat.conjugate (Quat.normalized q)) v) =
  Vec.squaredNorm v.
Proof.
  rewrite rotate_squaredNorm, conjugate_squaredNorm.
  destruct (Rlt_dec 0 (Quat.squaredNorm q)) as [Hpos | Hzero].
  - rewrite (normalized_squaredNorm q Hpos). lra.
  - unfold Quat.normalized.
    destruct (Rlt_dec 0 (Quat.squaredNorm q)) as [ | _ ]; [ contradiction | ].
    destruct q as [w x y z]. unfold Quat.squaredNorm in Hzero.
    cbn in Hzero.
    assert (x = 0 /\ y = 0 /\ z = 0) as (-> & -> & ->) by (repeat split; nra).
    unfold Quat.squaredNorm, Quat.conjugate, Quat.vec, Vec.dot, Vec.squaredNorm.
    cbn. unfold Vec.dot; cbn. ring.
Qed.

Lemma renormalised_norm (r : Vector3d) (d : R) :
  Vec.norm r = d -> Vec.norm (Vec.scale (Vec.normalized r) d) = d.
Proof.
  intros H.
  assert (Hd : 0 <= d) by (rewrite <- H; apply norm_nonneg).
  rewrite norm_scale, Rabs_right by lra.
  destruct (Rlt_dec 0 (Vec.squaredNorm r)) as [Hpos | Hzero].
  - rewrite norm_normalized by exact Hpos. ring.
  - unfold Vec.normalized.
    destruct (Rlt_dec 0 (Vec.squaredNorm r)); [ contradiction | ].
    assert (Hd0 : d = 0).
    { rewrite <- H. unfold Vec.norm. apply sqrt_neg_0. lra. }
    rewrite Hd0. ring.
Qed.

End Rotation.

Section Orbit.
Context {O : CelestialObjects} {C : Collaborators}.

Lemma orbitCenter_consistent (fresh : nat) (selection : Selection) (o : Observer) :
  frameConsistent o -> frameConsistent (snd (orbitCenter fresh selection o)).
Proof.
  intros H. unfold orbitCenter.
  destruct (sel_empty (getRefObject (ptr_target (frame o))) && negb (sel_empty selection));
    [ | exact H ].
  unfold frameConsistent, setFrame_ref, setFrame, convertFrameCoordinates.
  cbn. reflexivity.
Qed.

(** C8.  For every selection and rotation [q], and every observer whose
    frame-local position is the image of its universal position, [orbit]
    keeps the distance between the frame-local position and the focus:
    the focus is the position of the frame's reference object, or of the
    passed selection when the frame had no reference object and the
    selection is non-empty, in which case the frame is first centred on
    it and both distances are taken in that frame.  With neither a
    reference object nor a selection nothing moves.  In exact arithmetic
    the distance is preserved exactly. *)
Theorem orbit_preserves_distance
        (fresh : nat) (selection : Selection) (q : Quaterniond) (o : Observer) :
  frameConsistent o ->
  let center := fst (orbitCenter fresh selection o) in
  let o1 := snd (orbitCenter fresh selection o) in
  let focus := orbitFocus center o1 in
  Vec.norm (UC.offsetFromKm (position (orbit fresh selection q o)) focus) =
  Vec.norm (UC.offsetFromKm (position o1) focus).
Proof.
  intros Hcons center o1 focus.
  pose proof (orbitCenter_consistent fresh selection o Hcons) as Hc1.
  fold o1 in Hc1.
  unfold orbit.
  destruct (orbitCenter fresh selection o) as [c o1'] eqn:E.
  cbn [fst snd] in center, o1. subst center o1.
  destruct (sel_empty c); cbn [negb]; [ reflexivity | ].
  cbv zeta. fold focus.
  unfold updateUniversal. cbv zeta.
  cbn [frame position simTime positionUniv set_position set_orientation].
  destruct (isOutOfBounds _).
  - cbn [position set_orientationUniv set_position frame simTime positionUniv
           set_orientation].
    unfold frameConsistent in Hc1. rewrite <- Hc1. reflexivity.
  - cbn [position set_orientationUniv set_position set_positionUniv set_orientation].
    rewrite offsetFromKm_offsetKm.
    apply renormalised_norm.
    unfold Vec.norm. f_equal. apply rotate_normalized_isometry.
Qed.

End Orbit.

(* ------------------------------------------------------------------ *)
(** ** Calibration of the exponential factor *)

Section Bisection.

Lemma exp_monotone (x y : R) : x <= y -> exp x <= exp y.
Proof.
  intros [H | H]; [ left; apply exp_increasing; exact H | subst; right; reflexivity ].
Qed.

Lemma exp_upper (x : R) : 0 <= x -> x < 1 -> exp x <= / (1 - x).
Proof.
  intros H0 H1.
  pose proof (exp_ineq1_le (- x)) as Hlow.
  rewrite exp_Ropp in Hlow.
  pose proof (exp_pos x) as Hpos.
  apply Rmult_le_reg_r with (1 - x); [ lra | ].
  rewrite Rinv_l by lra.
  apply Rmult_le_reg_r with (/ exp x); [ apply Rinv_0_lt_compat; exact Hpos | ].
  replace (exp x * (1 - x) * / exp x) with (1 - x) by (field; lra).
  lra.
Qed.

Lemma bisection_in_interval (n : nat) (f : R -> R) (lower upper err : R) :
  lower <= upper ->
  lower <= fst (bisection n f lower upper err) <= upper.
Proof.
  revert lower upper. induction n as [ | n IH]; intros lower upper Hle; cbn.
  - lra.
  - destruct (Rlt_dec (upper - lower) (2 * err)); [ cbn; lra | ].
    destruct (Rlt_dec (f ((lower + upper) * 0.5)) 0).
    + assert (H : (lower + upper) * 0.5 <= upper) by lra.
      specialize (IH _ _ H). lra.
    + assert (H : lower <= (lower + upper) * 0.5) by lra.
      specialize (IH _ _ H). lra.
Qed.

(** With enough halvings for the tolerance, the returned point is the
    midpoint of a sub-interval narrower than twice the tolerance across
    which the function changes sign. *)
Lemma bisection_bracket (n : nat) (f : R -> R) (lower upper err : R) :
  lower <= upper -> f lower < 0 -> 0 <= f upper ->
  (upper - lower) * (/ 2) ^ n < 2 * err ->
  exists lo hi,
    lower <= lo /\ lo <= hi /\ hi <= upper /\ hi - lo < 2 * err /\
    f lo < 0 /\ 0 <= f hi /\
    fst (bisection n f lower upper err) = (lo + hi) * 0.5.
Proof.
  revert lower upper. induction n as [ | n IH]; intros lower upper Hle Hlo Hhi Hw.
  - exists lower, upper. cbn in *. repeat split; try assumption; lra.
  - cbn [bisection].
    destruct (Rlt_dec (upper - lower) (2 * err)) as [Hdone | Hmore].
    + exists lower, upper. cbn. repeat split; try assumption; lra.
    + cbn [pow] in Hw.
      destruct (Rlt_dec (f ((lower + upper) * 0.5)) 0) as [Hneg | Hpos].
      * assert (Hw' : (upper - (lower + upper) * 0.5) * (/ 2) ^ n < 2 * err).
        { replace ((upper - (lower + upper) * 0.5) * (/ 2) ^ n)
            with ((upper - lower) * (/ 2 * (/ 2) ^ n)) by (replace 0.5 with (/ 2) by lra; field).
          exact Hw. }
        destruct (IH ((lower + upper) * 0.5) upper ltac:(lra) Hneg Hhi Hw')
          as (lo & hi & H1 & H2 & H3 & H4 & H5 & H6 & H7).
        exists lo, hi. repeat split; try assumption; lra.
      * assert (Hw' : ((lower + upper) * 0.5 - lower) * (/ 2) ^ n < 2 * err).
        { replace (((lower + upper) * 0.5 - lower) * (/ 2) ^ n)
            with ((upper - lower) * (/ 2 * (/ 2) ^ n)) by (replace 0.5 with (/ 2) by lra; field).
          exact Hw. }
        destruct (IH lower ((lower + upper) * 0.5) ltac:(lra) Hlo ltac:(lra) Hw')
          as (lo & hi & H1 & H2 & H3 & H4 & H5 & H6 & H7).
        exists lo, hi. repeat split; try assumption; lra.
Qed.

Lemma halvings_suffice : (100.0 - 0.0001) * (/ 2) ^ 100 < 2 * 1e-10.
Proof.
  assert (H10 : (/ 2) ^ 10 < 1e-3) by (cbn; lra).
  assert (Hpos : 0 < (/ 2) ^ 10) by (apply pow_lt; lra).
  replace 100%nat with (10 * 10)%nat by reflexivity.
  rewrite pow_mult.
  set (h := (/ 2) ^ 10) in *.
  assert (H2 : h ^ 2 < 1e-6) by (cbn; nra).
  assert (H4 : h ^ 4 < 1e-12).
  { replace (h ^ 4) with (h ^ 2 * h ^ 2) by ring.
    assert (0 < h ^ 2) by (apply pow_lt; exact Hpos). nra. }
  assert (H10' : h ^ 10 <= h ^ 4).
  { replace (h ^ 10) with (h ^ 4 * h ^ 6) by ring.
    assert (0 < h ^ 4) by (apply pow_lt; exact Hpos).
    assert (h ^ 6 <= 1).
    { replace 1 with (1 ^ 6) by ring. apply pow_incr. lra. }
    nra. }
  lra.
Qed.

End Bisection.

Section Calibration.

Lemma TravelExpFunc_growth (d s k : R) :
  TravelExpFunc d s k = travelGrowth s k - 1 - d.
Proof. reflexivity. Qed.

Lemma travelGrowth_monotone (s a b : R) :
  0 < s < 1 -> 0 <= a -> a <= b -> travelGrowth s a <= travelGrowth s b.
Proof.
  intros Hs Ha Hab. unfold travelGrowth.
  assert (He : exp (a * s) <= exp (b * s)) by (apply exp_monotone; nra).
  pose proof (exp_pos (a * s)). 
  assert (0 < a * (1 - s) + 1) by nra.
  assert (a * (1 - s) + 1 <= b * (1 - s) + 1) by nra.
  nra.
Qed.

Lemma travelGrowth_step (s a b : R) :
  0 < s < 1 -> 0 <= a -> a <= b ->
  travelGrowth s b <= travelGrowth s a * exp (b - a).
Proof.
  intros Hs Ha Hab. unfold travelGrowth.
  set (dl := b - a).
  assert (Hdl : 0 <= dl) by (unfold dl; lra).
  replace (b * s) with (a * s + dl * s) by (unfold dl; ring).
  replace (exp dl) with (exp (dl * s) * exp (dl * (1 - s)))
    by (rewrite <- exp_plus; f_equal; ring).
  rewrite exp_plus.
  pose proof (exp_pos (a * s)) as H1.
  pose proof (exp_pos (dl * s)) as H2.
  pose proof (exp_ineq1_le (dl * (1 - s))) as H3.
  assert (H4 : b * (1 - s) + 1 <= (a * (1 - s) + 1) * exp (dl * (1 - s))).
  { replace (b * (1 - s) + 1) with (a * (1 - s) + 1 + dl * (1 - s))
      by (unfold dl; ring).
    assert (1 <= a * (1 - s) + 1) by nra.
    assert (0 <= dl * (1 - s)) by nra.
    nra. }
  assert (H5 : 0 < exp (a * s) * exp (dl * s)) by nra.
  replace (exp (a * s) * (a * (1 - s) + 1) *
           (exp (dl * s) * exp (dl * (1 - s))))
    with (exp (a * s) * exp (dl * s) * ((a * (1 - s) + 1) * exp (dl * (1 - s))))
    by ring.
  apply Rmult_le_compat_l; [ lra | exact H4 ].
Qed.

Lemma calibrateExpFactor_range (d s : R) :
  0.0001 <= calibrateExpFactor d s <= 100.0.
Proof.
  unfold calibrateExpFactor, solve_bisection. apply bisection_in_interval. lra.
Qed.

Lemma calibration_residual (d s : R) :
  0 < s < 1 ->
  TravelExpFunc d s 0.0001 < 0 ->
  0 <= TravelExpFunc d s 100.0 ->
  Rabs (TravelExpFunc d s (calibrateExpFactor d s)) <= (1 + d) * 2.1e-10.
Proof.
  intros Hs Hlo Hhi.
  unfold calibrateExpFactor, solve_bisection.
  assert (Hk : 0.0001 <= fst (bisection 100 (TravelExpFunc d s) 0.0001 100.0 1e-10)
               <= 100.0) by (apply bisection_in_interval; lra).
  destruct (bisection_bracket 100 (TravelExpFunc d s) 0.0001 100.0 1e-10)
    as (lo & hi & H1 & H2 & H3 & H4 & H5 & H6 & H7);
    [ lra | exact Hlo | exact Hhi | exact halvings_suffice | ].
  set (k := fst (bisection 100 (TravelExpFunc d s) 0.0001 100.0 1e-10)) in *.
  clearbody k.
  rewrite TravelExpFunc_growth in H5, H6.
  assert (Hmono1 : travelGrowth s lo <= travelGrowth s k)
    by (apply travelGrowth_monotone; lra).
  assert (Hmono2 : travelGrowth s k <= travelGrowth s hi)
    by (apply travelGrowth_monotone; lra).
  pose proof (travelGrowth_step s lo hi Hs ltac:(lra) H2) as Hstep.
  assert (Hexp : exp (hi - lo) <= / (1 - (hi - lo))) by (apply exp_upper; lra).
  assert (Hinv : / (1 - (hi - lo)) <= 1 + 2.1e-10).
  { apply Rmult_le_reg_r with (1 - (hi - lo)); [ lra | ].
    rewrite Rinv_l by lra. nra. }
  assert (Hg0 : 0 < travelGrowth s lo).
  { unfold travelGrowth. pose proof (exp_pos (lo * s)).
    assert (0 < lo * (1 - s) + 1) by nra. nra. }
  rewrite TravelExpFunc_growth.
  assert (travelGrowth s hi - travelGrowth s lo <= (1 + d) * 2.1e-10) by nra.
  unfold Rabs. destruct (Rcase_abs _); lra.
Qed.

Lemma calibrateExpFactor_facts (d s : R) :
  let k := calibrateExpFactor d s in
  k = fst (solve_bisection (TravelExpFunc d s) 0.0001 100.0 1e-10) /\
  0.0001 <= k <= 100.0 /\
  (0 < s < 1 ->
   TravelExpFunc d s 0.0001 < 0 ->
   0 <= TravelExpFunc d s 100.0 ->
   Rabs (TravelExpFunc d s k) <= (1 + d) * 2.1e-10 /\
   (d <= 46 -> Rabs (TravelExpFunc d s k) < 1e-8)).
Proof.
  intros k.
  split; [ unfold k, calibrateExpFactor; reflexivity | ].
  split; [ apply calibrateExpFactor_range | ].
  intros Hs Hlo Hhi.
  pose proof (calibration_residual d s Hs Hlo Hhi) as Hbound. fold k in Hbound.
  split; [ exact Hbound | ].
  intros Hd.
  assert (Hpos : 0 < travelGrowth s 0.0001).
  { unfold travelGrowth. pose proof (exp_pos (0.0001 * s)).
    assert (0 < 0.0001 * (1 - s) + 1) by nra. nra. }
  rewrite TravelExpFunc_growth in Hlo.
  assert (0 < 1 + d) by lra. nra.
Qed.

End Calibration.

Section CalibratedJourneys.
Context {O : CelestialObjects} {C : Collaborators}.

Lemma computeGotoParameters_calibrates
      (fresh : nat) (destination : Selection)
      (gotoTime startInter endInter accelTime_ : R)
      (offset : Vector3d) (offsetCoordSys : CoordinateSystem)
      (up : Vector3d) (upCoordSys : CoordinateSystem) (o : Observer) :
  accelTime (journey (computeGotoParameters fresh destination gotoTime startInter
                        endInter accelTime_ offset offsetCoordSys up upCoordSys o))
  = accelTime_ /\
  expFactor (journey (computeGotoParameters fresh destination gotoTime startInter
                        endInter accelTime_ offset offsetCoordSys up upCoordSys o))
  = calibrateExpFactor
      (Vec.norm
         (UC.offsetFromKm (getPosition o)
            (UC.offsetKm (sel_getPosition destination (simTime o))
               (Quat.rotate
                  (Quat.conjugate
                     match offsetCoordSys with
                     | ObserverLocal => orientationUniv o
                     | _ => rf_getOrientation
                              (createFrame offsetCoordSys destination Sel_Nil)
                              (simTime o)
                     end)
                  offset))) / 2.0)
      accelTime_.
Proof.
  unfold computeGotoParameters, getCoordinateSystem.
  destruct (coordSys (ptr_target (frame o))); destruct offsetCoordSys; cbn;
    split; reflexivity.
Qed.

Lemma computeGotoParametersGC_calibrates
      (fresh : nat) (destination : Selection) (gotoTime : R)
      (offset : Vector3d) (offsetCoordSys : CoordinateSystem)
      (up : Vector3d) (upCoordSys : CoordinateSystem)
      (centerObj : Selection) (o : Observer) :
  accelTime (journey (computeGotoParametersGC fresh destination gotoTime offset
                        offsetCoordSys up upCoordSys centerObj o))
  = AccelerationTime /\
  expFactor (journey (computeGotoParametersGC fresh destination gotoTime offset
                        offsetCoordSys up upCoordSys centerObj o))
  = calibrateExpFactor
      (Vec.norm
         (UC.offsetFromKm (getPosition o)
            (UC.offsetKm (sel_getPosition destination (simTime o))
               (Quat.rotate
                  (Quat.conjugate
                     (rf_getOrientation (createFrame offsetCoordSys destination Sel_Nil)
                                        (simTime o)))
                  offset))) / 2.0)
      AccelerationTime.
Proof.
  unfold computeGotoParametersGC, getCoordinateSystem. cbn. split; reflexivity.
Qed.

Lemma gotoJourney_calibrates (params : JourneyParams) (o : Observer) :
  accelTime (journey (gotoJourney params o)) = accelTime params /\
  expFactor (journey (gotoJourney params o))
  = calibrateExpFactor (Vec.norm (UC.offsetFromKm (from params) (to params)) / 2.0)
                       (accelTime params).
Proof. unfold gotoJourney. cbn. split; reflexivity. Qed.

Lemma gotoLocation_calibrates (toPosition : UniversalCoord)
      (toOrientation : Quaterniond) (duration_ : R) (o : Observer) :
  accelTime (journey (gotoLocation toPosition toOrientation duration_ o))
  = AccelerationTime /\
  expFactor (journey (gotoLocation toPosition toOrientation duration_ o))
  = calibrateExpFactor (Vec.norm (UC.offsetFromKm (position o) toPosition) / 2.0)
                       AccelerationTime.
Proof. unfold gotoLocation. cbn. split; reflexivity. Qed.

(** C5 (as amended).  Each of the four functions that start a journey
    -- [computeGotoParameters], [computeGotoParametersGC], [gotoJourney]
    and [gotoLocation] -- stores as [expFactor] the first component of
    the bisection of [exp(k s) (k (1 - s) + 1) - 1 - d] over [k] in
    [[1e-4, 100]] to tolerance [1e-10], where [d] is half the distance
    between the two end points the function has at that moment and [s]
    is the [accelTime] it stores; so the [expFactor] lies in that
    interval.  When [s] is in [(0,1)] and the interval brackets [d] (the
    function is negative at [1e-4] and non-negative at [100]) the
    residual is at most [(1 + d) * 2.1e-10] in absolute value, hence
    below [1e-8] when moreover [d <= 46].  For a [d] the interval does
    not bracket no bound on the residual holds. *)
Theorem expFactor_calibration
        (fresh : nat) (destination : Selection)
        (gotoTime startInter endInter accelTime_ : R)
        (offset : Vector3d) (offsetCoordSys : CoordinateSystem)
        (up : Vector3d) (upCoordSys : CoordinateSystem) (centerObj : Selection)
        (params : JourneyParams)
        (toPosition : UniversalCoord) (toOrientation : Quaterniond) (duration_ : R)
        (o : Observer) :
  let halfTrip (a b : UniversalCoord) := Vec.norm (UC.offsetFromKm a b) / 2.0 in
  let calibrated (j : JourneyParams) (d s : R) :=
    accelTime j = s /\
    expFactor j = fst (solve_bisection (TravelExpFunc d s) 0.0001 100.0 1e-10) /\
    0.0001 <= expFactor j <= 100.0 /\
    (0 < s < 1 ->
     TravelExpFunc d s 0.0001 < 0 ->
     0 <= TravelExpFunc d s 100.0 ->
     Rabs (TravelExpFunc d s (expFactor j)) <= (1 + d) * 2.1e-10 /\
     (d <= 46 -> Rabs (TravelExpFunc d s (expFactor j)) < 1e-8)) in
  let target := sel_getPosition destination (simTime o) in
  let frameAxes :=
    rf_getOrientation (createFrame offsetCoordSys destination Sel_Nil) (simTime o) in
  let axes := match offsetCoordSys with
              | ObserverLocal => orientationUniv o
              | _ => frameAxes
              end in
  calibrated
    (journey (computeGotoParameters fresh destination gotoTime startInter endInter
                accelTime_ offset offsetCoordSys up upCoordSys o))
    (halfTrip (getPosition o)
              (UC.offsetKm target (Quat.rotate (Quat.conjugate axes) offset)))
    accelTime_ /\
  calibrated
    (journey (computeGotoParametersGC fresh destination gotoTime offset offsetCoordSys
                up upCoordSys centerObj o))
    (halfTrip (getPosition o)
              (UC.offsetKm target (Quat.rotate (Quat.conjugate frameAxes) offset)))
    AccelerationTime /\
  calibrated (journey (gotoJourney params o))
             (halfTrip (from params) (to params)) (accelTime params) /\
  calibrated (journey (gotoLocation toPosition toOrientation duration_ o))
             (halfTrip (position o) toPosition) AccelerationTime.
Proof.
  intros halfTrip calibrated target frameAxes axes.
  assert (K : forall j d s,
             accelTime j = s /\ expFactor j = calibrateExpFactor d s ->
             calibrated j d s).
  { intros j d s [Ha He]. unfold calibrated. rewrite He.
    split; [ exact Ha | ]. exact (calibrateExpFactor_facts d s). }
  split; [ | split; [ | split ] ]; apply K.
  - pose proof (computeGotoParameters_calibrates fresh destination gotoTime startInter
                  endInter accelTime_ offset offsetCoordSys up upCoordSys o) as H.
    unfold halfTrip, target, axes, frameAxes. destruct offsetCoordSys; exact H.
  - exact (computeGotoParametersGC_calibrates fresh destination gotoTime offset
             offsetCoordSys up upCoordSys centerObj o).
  - exact (gotoJourney_calibrates params o).
  - exact (gotoLocation_calibrates toPosition toOrientation duration_ o).
Qed.

End CalibratedJourneys.


(* ------------------------------------------------------------------ *)
(** ** A goto followed by one tick *)

Section Scenario.
Context {O : CelestialObjects} {C : Collaborators}.

Lemma minR_0_half : minR 0.0 0.5 = 0.
Proof. unfold minR. destruct (Rlt_dec 0.5 0.0); lra. Qed.

Lemma maxR_0_half : maxR 0.0 0.5 = 0.5.
Proof. unfold maxR. destruct (Rlt_dec 0.0 0.5); lra. Qed.

Lemma norm_scaled_back (v : Vector3d) (od : R) :
  Vec.norm v <> 0 -> 0 <= od ->
  Vec.norm (Vec.scale v (- (od / Vec.norm v))) = od.
Proof.
  intros Hv Hod.
  assert (Hpos : 0 < Vec.norm v).
  { destruct (norm_nonneg v) as [H | H]; [ exact H | congruence ]. }
  rewrite norm_scale, Rabs_Ropp, Rabs_right.
  - field. exact Hv.
  - apply Rle_ge. apply Rmult_le_pos; [ exact Hod | ].
    left. apply Rinv_0_lt_compat. exact Hpos.
Qed.

Lemma preferred_ordinary_body (B : Body) :
  body_isInvisible B = false ->
  getPreferredDistance (Sel_Body B) = 5 * body_getRadius B.
Proof.
  intros H. unfold getPreferredDistance, getPreferredDistance_body, sel_radius.
  rewrite H. lra.
Qed.

Lemma getOrbitDistance_lower (selection : Selection) (currentDistance : R) :
  1.01 * sel_radius selection <= getOrbitDistance selection currentDistance.
Proof. apply maxR_lower. Qed.

Lemma goto_then_tick
        (fresh : nat) (B : Body) (up : Vector3d) (upFrame : CoordinateSystem)
        (o : Observer) :
  body_isInvisible B = false ->
  body_getRadius B = 6371 ->
  (forall c p t, rf_toUniversal (J2000EclipticFrame c) p t =
                 UC.offsetKm (sel_getPosition c t) (UC.offsetFromKm p UC.Zero)) ->
  (forall c u t, rf_fromUniversal (J2000EclipticFrame c) u t =
                 UC.offsetKm UC.Zero (UC.offsetFromKm u (sel_getPosition c t))) ->
  (forall c t, rf_getOrientation (J2000EclipticFrame c) t = Quat.Identity) ->
  ptr_target (frame o) = ObserverFrame_new Ecliptical (Sel_Body B) Sel_Nil ->
  getPosition o = UC.Zero ->
  targetVelocity o = Vec.Zero ->
  let D := Vec.norm (UC.offsetFromKm (body_getPosition B (simTime o)) UC.Zero) in
  D <> 0 ->
  let o1 := gotoSelection fresh (Sel_Body B) 5.0 up upFrame o in
  let o2 := update 5.0 1.0 o1 in
  isOutOfBounds
    (convertToUniversal (ptr_target (frame o1)) (to (journey o1)) (simTime o2)) = false ->
  (startInterpolation (journey o1) = 0 /\ endInterpolation (journey o1) = 0.5 /\
   accelTime (journey o1) = 0.5) /\
  observerMode o2 = Free /\
  Vec.norm (UC.offsetFromKm (getPosition o2)
                            (sel_getPosition (Sel_Body B) (getTime o2)))
    = getOrbitDistance (Sel_Body B) D /\
  getPreferredDistance (Sel_Body B) = 5 * 6371 /\
  (if Rlt_dec (10 * (5 * 6371)) D
   then getOrbitDistance (Sel_Body B) D = 5 * 6371
   else getOrbitDistance (Sel_Body B) D = maxR (D * 0.1) (1.01 * 6371)).
Proof.
  intros Hvis Hrad HtoU HfromU Hori Hframe Hpos Htv D HD o1 o2 Hin.
  assert (Hpref : getPreferredDistance (Sel_Body B) = 5 * 6371).
  { rewrite (preferred_ordinary_body B Hvis), Hrad. reflexivity. }
  assert (Hod : 0 <= getOrbitDistance (Sel_Body B) D).
  { pose proof (getOrbitDistance_lower (Sel_Body B) D) as H.
    cbn [sel_radius] in H. rewrite Hrad in H. lra. }
  (* the state after the goto *)
  set (offset := Vec.scale (UC.offsetFromKm (sel_getPosition (Sel_Body B) (getTime o))
                                            (getPosition o))
                           (- (getOrbitDistance (Sel_Body B)
                                 (Vec.norm (UC.offsetFromKm
                                              (sel_getPosition (Sel_Body B) (getTime o))
                                              (getPosition o))) /
                               Vec.norm (UC.offsetFromKm
                                           (sel_getPosition (Sel_Body B) (getTime o))
                                           (getPosition o))))).
  assert (Ho1 : o1 = set_observerMode Travelling
                       (computeGotoParameters fresh (Sel_Body B) 5.0 0.0 0.5
                          AccelerationTime offset Universal up upFrame o))
    by reflexivity.
  destruct (computeGotoParameters_to_universal fresh (Sel_Body B) 5.0 0.0 0.5
              AccelerationTime offset up upFrame o)
    as (Hto & Hsi & Hei & Hat & Hdur & Hst & Htraj & Hsim & Hreal & Htv1 & Htrk & Hav).
  pose proof (computeGotoParameters_installs fresh (Sel_Body B) 5.0 0.0 0.5
                AccelerationTime offset Universal up upFrame o)
    as (Hfr & _).
  cbv zeta in *. rewrite <- Ho1 in Hfr.
  rewrite Hframe in Hfr. cbn [getCoordinateSystem coordSys ObserverFrame_new directGotoTag] in Hfr.
  assert (Hj1 : journey o1 =
                journey (computeGotoParameters fresh (Sel_Body B) 5.0 0.0 0.5
                           AccelerationTime offset Universal up upFrame o))
    by (rewrite Ho1; reflexivity).
  split.
  { rewrite Hj1, Hsi, Hei, Hat, minR_0_half, maxR_0_half.
    unfold AccelerationTime. repeat split; lra. }
  (* the tick *)
  destruct (update_on_arrival 5.0 1.0 o1) as (_ & Hmode & _ & Harr & _).
  - rewrite Ho1; reflexivity.
  - rewrite Hj1, Hdur. lra.
  - rewrite Hj1, Htraj. discriminate.
  - rewrite Hj1, Hst, Hdur. rewrite Ho1. cbn [realTime set_observerMode].
    rewrite Hreal. lra.
  - fold o2 in Hmode, Harr.
    destruct Harr as (_ & Harr).
    { rewrite Ho1. cbn [targetVelocity set_observerMode]. rewrite Htv1. exact Htv. }
    specialize (Harr Hin). destruct Harr as (_ & HpU).
    split; [ exact Hmode | ].
    split; [ | split; [ exact Hpref | ] ].
    + unfold getPosition at 1. rewrite HpU. rewrite Hfr.
      unfold convertToUniversal. cbn [ptr_target of_frame ObserverFrame_new createFrame].
      rewrite HtoU.
      rewrite Hj1, Hto.
      replace (frame (computeGotoParameters fresh (Sel_Body B) 5.0 0.0 0.5
                        AccelerationTime offset Universal up upFrame o))
        with (frame o1) by (rewrite Ho1; reflexivity).
      rewrite Hfr. unfold convertFromUniversal.
      cbn [ptr_target of_frame ObserverFrame_new createFrame].
      rewrite HfromU, Hori, rotate_identity.
      unfold getTime.
      match goal with
      | |- Vec.norm ?w = _ => replace w with offset
      end.
      * unfold offset, getTime. rewrite Hpos. cbn [sel_getPosition].
        apply norm_scaled_back; assumption.
      * destruct offset as [a b c].
        destruct (sel_getPosition (Sel_Body B) (simTime o2)) as [x y z].
        destruct (sel_getPosition (Sel_Body B) (simTime o)) as [x0 y0 z0].
        unfold UC.offsetFromKm, UC.offsetKm, UC.Zero. cbn. f_equal; ring.
    + unfold getOrbitDistance. rewrite Hpref. cbn [sel_radius]. rewrite Hrad.
      destruct (Rlt_dec (5 * 6371 * 10.0) D) as [H | H];
        destruct (Rlt_dec (10 * (5 * 6371)) D) as [H' | H']; try lra;
        try reflexivity.
      unfold maxR. destruct (Rlt_dec _ _); lra.
Qed.


(** C9 (as amended).  An observer at the universal origin whose frame
    is the ecliptical frame of an ordinary body [B] of radius 6371 km,
    at distance [D > 0] from it, with no manual target velocity; the
    J2000 ecliptic frames are the translations to their centre with
    identity axes.  [gotoSelection(B, 5.0, up, upFrame)] interpolates the
    orientation over the window [[0, 0.5]] with [accelTime = 0.5], and
    after the single tick [update(5.0, 1.0)] the mode is [Free] and the
    distance to the position of [B] is the orbit distance of [B]: the
    preferred distance [5 * 6371] km when [D] exceeds ten times that
    distance, and the larger of [D / 10] and [1.01 * 6371] km
    otherwise. *)
Theorem goto_scenario
        (fresh : nat) (B : Body) (up : Vector3d) (upFrame : CoordinateSystem)
        (o : Observer) :
  body_isInvisible B = false ->
  body_getRadius B = 6371 ->
  (forall c p t, rf_toUniversal (J2000EclipticFrame c) p t =
                 UC.offsetKm (sel_getPosition c t) (UC.offsetFromKm p UC.Zero)) ->
  (forall c u t, rf_fromUniversal (J2000EclipticFrame c) u t =
                 UC.offsetKm UC.Zero (UC.offsetFromKm u (sel_getPosition c t))) ->
  (forall c t, rf_getOrientation (J2000EclipticFrame c) t = Quat.Identity) ->
  ptr_target (frame o) = ObserverFrame_new Ecliptical (Sel_Body B) Sel_Nil ->
  getPosition o = UC.Zero ->
  targetVelocity o = Vec.Zero ->
  let D := Vec.norm (UC.offsetFromKm (body_getPosition B (simTime o)) UC.Zero) in
  D <> 0 ->
  let o1 := gotoSelection fresh (Sel_Body B) 5.0 up upFrame o in
  let o2 := update 5.0 1.0 o1 in
  isOutOfBounds
    (convertToUniversal (ptr_target (frame o1)) (to (journey o1)) (simTime o2)) = false ->
  (startInterpolation (journey o1) = 0 /\ endInterpolation (journey o1) = 0.5 /\
   accelTime (journey o1) = 0.5) /\
  observerMode o2 = Free /\
  Vec.norm (UC.offsetFromKm (getPosition o2)
                            (sel_getPosition (Sel_Body B) (getTime o2)))
    = getOrbitDistance (Sel_Body B) D /\
  getPreferredDistance (Sel_Body B) = 5 * 6371 /\
  (if Rlt_dec (10 * (5 * 6371)) D
   then getOrbitDistance (Sel_Body B) D = 5 * 6371
   else getOrbitDistance (Sel_Body B) D = maxR (D * 0.1) (1.01 * 6371)).
Proof.
  exact (goto_then_tick fresh B up upFrame o).
Qed.

End Scenario.

(* ------------------------------------------------------------------ *)
(** ** Sequences of calls and the bounds check *)

Section TickAtRest.
Context {O : CelestialObjects} {C : Collaborators}.

Lemma updateClock_motion (dt timeScale : R) (o : Observer) :
  let o' := updateClock dt timeScale o in
  position o' = position o /\ velocity o' = velocity o /\
  orientation o' = orientation o /\ orientationUniv o' = orientationUniv o.
Proof.
  unfold updateClock. cbv zeta.
  destruct (Rge_dec _ _); destruct (Rle_dec _ _); cbn; repeat split.
Qed.

(** A tick of a free observer at rest: the position pair after the
    tick is decided by the bounds check alone. *)
Lemma update_at_rest (dt timeScale : R) (o : Observer) :
  observerMode o = Free -> velocity o = Vec.Zero -> targetVelocity o = Vec.Zero ->
  let o' := update dt timeScale o in
  let attempt :=
    convertToUniversal (ptr_target (frame o)) (position o) (simTime o') in
  if isOutOfBounds attempt
  then positionUniv o' = positionUniv o /\
       position o' =
         convertFromUniversal (ptr_target (frame o)) (positionUniv o) (simTime o')
  else positionUniv o' = attempt /\ position o' = position o.
Proof.
  intros Hmode Hv Htv o' attempt.
  destruct (updateClock_fields dt timeScale o)
    as (Hcr & Hcm & Hcj & Hcf & Hctv & Hcav & Hcto & Hcpu & Hcb).
  destruct (updateClock_motion dt timeScale o) as (Hcp & Hcv & Hco & Hcou).
  cbv zeta in *.
  set (oc := updateClock dt timeScale o) in *.
  assert (Ho' : o' = updateTracking (updateUniversal (updateManual dt oc))).
  { unfold o'. rewrite update_blocks. fold oc. rewrite Hcm, Hmode. reflexivity. }
  destruct (updateManual_fields dt oc)
    as (Hmm & Hmj & Hmf & Hms & Hmt & Hmu & Hmv & Hmp).
  cbv zeta in *.
  set (om := updateManual dt oc) in *.
  assert (Hrest : updateVelocity oc = oc).
  { apply updateVelocity_at_target. rewrite Hcv, Hctv, Hv, Htv. reflexivity. }
  rewrite Hrest, Hcv, Hv, offsetKm_zero_velocity, Hcp in Hmp.
  destruct (updateUniversal_frame om) as (Huf & Hus & _).
  destruct (updateTracking_fields (updateUniversal om))
    as (_ & _ & _ & Hts & Htp & Htu & _).
  cbv zeta in *.
  assert (Hsim : simTime o' = simTime om) by (rewrite Ho', Hts, Hus; reflexivity).
  pose proof (updateUniversal_spec om) as [Hpos _]. cbv zeta in Hpos.
  rewrite Hmp, Hmf, Hcf, Huf, Hus, Hmf, Hcf, Hmu, Hcpu in Hpos.
  unfold attempt. rewrite Hsim.
  destruct (isOutOfBounds _).
  - destruct Hpos as [H1 H2]. rewrite Ho', Htu, Htp.
    split; [ exact H1 | rewrite H2, H1; reflexivity ].
  - destruct Hpos as [H1 H2]. rewrite Ho', Htu, Htp. split; assumption.
Qed.

End TickAtRest.

Section CallSequences.
Context {O : CelestialObjects} {C : Collaborators}.

Lemma call_synced (c : Call) (o : Observer) :
  positionSynced o -> orientationSynced o ->
  positionSynced (call c o) /\ orientationSynced (call c o).
Proof.
  intros Hp Ho. destruct c; cbn [call].
  - apply setPosition_synced; assumption.
  - apply setOrientation_synced; assumption.
  - apply update_synced.
  - apply setFrame_synced.
  - apply setFrame_synced.
  - apply setFrame_shared_synced; assumption.
Qed.

(** Whatever the frames do, a constructed observer stays synchronised,
    in one of the two exact senses, under every sequence of
    [setPosition], [setOrientation], [update] and [setFrame] calls. *)
Lemma calls_synced (cs : list Call) (o : Observer) :
  positionSynced o -> orientationSynced o ->
  positionSynced (calls cs o) /\ orientationSynced (calls cs o).
Proof.
  revert o. induction cs as [ | c cs IH]; intros o Hp Ho; cbn.
  - split; assumption.
  - destruct (call_synced c o Hp Ho) as [Hp' Ho']. apply IH; assumption.
Qed.

Lemma Observer_new_synced (fresh : nat) (journey0 : JourneyParams)
      (positionUniv0 : UniversalCoord) (orientationUniv0 : Quaterniond) :
  positionSynced (Observer_new fresh journey0 positionUniv0 orientationUniv0) /\
  orientationSynced (Observer_new fresh journey0 positionUniv0 orientationUniv0).
Proof. apply updateUniversal_synced. Qed.

(** When the conversions of the current frame are exact inverses, the two
    senses coincide and the universal mirrors are the images of the
    frame-local values. *)
Lemma synced_exact (o : Observer) :
  (forall u, convertToUniversal (ptr_target (frame o))
               (convertFromUniversal (ptr_target (frame o)) u (simTime o))
               (simTime o) = u) ->
  (forall q, convertToUniversalQ (ptr_target (frame o))
               (convertFromUniversalQ (ptr_target (frame o)) q (simTime o))
               (simTime o) = q) ->
  positionSynced o -> orientationSynced o ->
  convertToUniversal (ptr_target (frame o)) (position o) (simTime o)
    = positionUniv o /\
  convertToUniversalQ (ptr_target (frame o)) (orientation o) (simTime o)
    = orientationUniv o.
Proof.
  intros Hu Hq [Hp | Hp] [Ho | Ho]; split; try assumption;
    try (rewrite Hp; apply Hu); try (rewrite Ho; apply Hq).
Qed.

End CallSequences.

Section TickMoving.
Context {O : CelestialObjects} {C : Collaborators}.

(** The velocity blend once the change time has passed: the velocity is
    the target velocity, unless that is negligible. *)
Lemma updateVelocity_reached (o : Observer) :
  velocity o = Vec.Zero ->
  VELOCITY_CHANGE_TIME <= realTime o - beginAccelTime o ->
  1.0e-12 <= Vec.norm (targetVelocity o) ->
  velocity (updateVelocity o) = targetVelocity o.
Proof.
  intros Hv Ht Hn. unfold updateVelocity, getVelocity. cbv zeta.
  destruct (Vec.eq_dec (velocity o) (targetVelocity o)) as [E | N];
    [ rewrite <- E; reflexivity | ].
  rewrite clamp_upper.
  - assert (Hblend : Vec.add (Vec.scale (velocity o) (1 - 1))
                             (Vec.scale (targetVelocity o) 1) = targetVelocity o).
    { rewrite Hv. destruct (targetVelocity o) as [a b c].
      unfold Vec.add, Vec.scale, Vec.Zero. cbn. f_equal; ring. }
    rewrite Hblend.
    destruct (Rlt_dec (Vec.norm (targetVelocity o)) 1.0e-12); [ lra | ].
    reflexivity.
  - unfold VELOCITY_CHANGE_TIME in *. lra.
Qed.

(** The end of the tick that completes a journey, when the observer
    has a manual target velocity. *)
Lemma update_on_arrival_moving (dt timeScale : R) (o : Observer) :
  observerMode o = Travelling ->
  0 < duration (journey o) ->
  traj (journey o) <> CircularOrbit ->
  startTime (journey o) + duration (journey o) <= realTime o + dt ->
  let o' := update dt timeScale o in
  let snap := arrived (updateClock dt timeScale o) in
  velocity o' = velocity (updateVelocity snap) /\
  (isOutOfBounds
     (convertToUniversal (ptr_target (frame o))
        (UC.offsetKm (to (journey o)) (Vec.scale (velocity o') dt))
        (simTime o')) = false ->
   position o' = UC.offsetKm (to (journey o)) (Vec.scale (velocity o') dt)).
Proof.
  intros Hmode Hd Ht Hn o' snap.
  destruct (updateClock_fields dt timeScale o)
    as (Hcr & Hcm & Hcj & Hcf & _).
  cbv zeta in *.
  set (oc := updateClock dt timeScale o) in *.
  assert (Ho' : o' = updateTracking (updateUniversal (updateManual dt snap))).
  { unfold o'. rewrite update_blocks. fold oc. rewrite Hcm, Hmode.
    rewrite updateJourney_done by (rewrite Hcj, ?Hcr; assumption).
    reflexivity. }
  destruct (updateManual_fields dt snap)
    as (Hmm & Hmj & Hmf & Hms & Hmt & Hmu & Hmv & Hmp).
  cbv zeta in *.
  set (om := updateManual dt snap) in *.
  destruct (updateUniversal_frame om) as (Huf & Hus & Huo & Hum & Huv & Huj & Hut).
  destruct (updateTracking_fields (updateUniversal om))
    as (Htm & Htj & Htf & Hts & Htp & Htu & Htv).
  cbv zeta in *.
  assert (Hvel : velocity o' = velocity (updateVelocity snap)).
  { rewrite Ho', Htv, Huv, Hmv. reflexivity. }
  split; [ exact Hvel | ].
  intros Hin.
  assert (Hpm : position om =
                UC.offsetKm (to (journey o)) (Vec.scale (velocity o') dt)).
  { rewrite Hmp, Hvel. unfold snap at 1, arrived. cbn. rewrite Hcj. reflexivity. }
  assert (Hsim : simTime o' = simTime om) by (rewrite Ho', Hts, Hus; reflexivity).
  assert (Hcond : isOutOfBounds
                    (convertToUniversal (ptr_target (frame om)) (position om)
                                        (simTime om)) = false).
  { rewrite Hpm, Hmf, <- Hsim.
    replace (frame snap) with (frame o)
      by (unfold snap, arrived; cbn; symmetry; exact Hcf).
    exact Hin. }
  pose proof (updateUniversal_spec om) as [Hpos _]. cbv zeta in Hpos.
  rewrite Hcond in Hpos. destruct Hpos as [_ Hpos].
  rewrite <- Hpm, <- Hpos, Ho', Htp. reflexivity.
Qed.

End TickMoving.

(* ------------------------------------------------------------------ *)
(** ** The statements in the static universe *)

Section DirectGoto.
Context {O : CelestialObjects} {C : Collaborators}.

(** The frame and the destination a direct selection goto installs. *)
Lemma gotoSelection_inter_destination
      (fresh : nat) (selection : Selection)
      (gotoTime startInter endInter accelTime_ : R)
      (up : Vector3d) (upFrame : CoordinateSystem) (o : Observer) :
  sel_empty selection = false ->
  rf_getOrientation (J2000EclipticFrame Sel_Nil) (simTime o) = Quat.Identity ->
  let target := sel_getPosition selection (simTime o) in
  let v := UC.offsetFromKm target (getPosition o) in
  let o' := gotoSelection_inter fresh selection gotoTime startInter endInter
              accelTime_ up upFrame o in
  frame o' =
    mkFramePtr fresh
      (ObserverFrame_new
         (directGotoTag (getCoordinateSystem (ptr_target (frame o))))
         selection Sel_Nil) /\
  to (journey o') =
    convertFromUniversal (ptr_target (frame o'))
      (UC.offsetKm target
         (Vec.scale v (- (getOrbitDistance selection (Vec.norm v) / Vec.norm v))))
      (simTime o).
Proof.
  intros Hne Hori target v o'.
  set (offset := Vec.scale v (- (getOrbitDistance selection (Vec.norm v) / Vec.norm v))).
  assert (Ho' : o' = set_observerMode Travelling
                       (computeGotoParameters fresh selection gotoTime startInter
                          endInter accelTime_ offset Universal up upFrame o)).
  { unfold o', gotoSelection_inter. rewrite Hne. reflexivity. }
  clearbody o'. subst o'.
  destruct (computeGotoParameters_to_universal fresh selection gotoTime startInter
              endInter accelTime_ offset up upFrame o) as (Hto & _).
  pose proof (computeGotoParameters_installs fresh selection gotoTime startInter
                endInter accelTime_ offset Universal up upFrame o) as (Hfr & _).
  cbv zeta in Hto, Hfr.
  split; [ exact Hfr | ].
  cbn [journey frame set_observerMode].
  rewrite Hto, Hori, rotate_identity. reflexivity.
Qed.

End DirectGoto.

Module StaticFacts.
Import StaticWorld.
#[local] Existing Instance objects.
#[local] Existing Instance world.

Lemma outOfBounds_small (p : UniversalCoord) :
  Rabs (ux p) <= 1e20 -> Rabs (uy p) <= 1e20 -> Rabs (uz p) <= 1e20 ->
  outOfBounds p = false.
Proof.
  intros Hx Hy Hz. unfold outOfBounds, boundsLimit.
  destruct (Rlt_dec 1e20 (Rabs (ux p))); [ lra | ].
  destruct (Rlt_dec 1e20 (Rabs (uy p))); [ lra | ].
  destruct (Rlt_dec 1e20 (Rabs (uz p))); [ lra | ].
  reflexivity.
Qed.

Lemma outOfBounds_large_x (p : UniversalCoord) :
  1e20 < ux p -> outOfBounds p = true.
Proof.
  intros Hx. unfold outOfBounds, boundsLimit.
  destruct (Rlt_dec 1e20 (Rabs (ux p))) as [ | N]; [ reflexivity | ].
  exfalso; apply N. rewrite Rabs_right; lra.
Qed.

Ltac small_abs := unfold Rabs; destruct (Rcase_abs _); lra.

Lemma origin_in_bounds : outOfBounds UC.Zero = false.
Proof.
  apply outOfBounds_small; unfold UC.Zero; cbn [ux uy uz]; small_abs.
Qed.

Lemma observer0_value :
  observer0 =
  mkObserver 0 UC.Zero Quat.Identity Vec.Zero Vec.Zero UC.Zero Quat.Identity
    (mkFramePtr 0 ObserverFrame_default) 0 0 Vec.Zero Vec.Zero 0 Free journey0
    Sel_Nil Quat.Identity (PI / 4) false (N.ones 64) EmptyString.
Proof.
  unfold observer0, Observer_new, updateUniversal. cbv zeta.
  cbn [frame position simTime ptr_target].
  replace (convertToUniversal ObserverFrame_default (mkUniversalCoord 0 0 0) 0)
    with UC.Zero
    by (unfold convertToUniversal; cbn;
        unfold UC.Zero, UC.offsetKm, UC.offsetFromKm; cbn [ux uy uz vx vy vz];
        f_equal; lra).
  change (isOutOfBounds UC.Zero) with (outOfBounds UC.Zero).
  rewrite origin_in_bounds. reflexivity.
Qed.

(** C7, counterexample.  [follow] on the empty selection is not a
    no-op: it changes the frame of a fresh observer, whose universal
    frame becomes an ecliptical one. *)
Lemma follow_empty_changes_frame :
  follow 1 Sel_Nil observer0 <> observer0.
Proof.
  rewrite observer0_value. intros H.
  apply (f_equal (fun o => coordSys (ptr_target (frame o)))) in H.
  cbn in H. discriminate H.
Qed.

(** C10, counterexample.  A goto from the universal frame, the frame of
    a fresh observer, keeps the tag [Universal], and the frame it
    installs is centred on the barycentre, not on the destination. *)
Lemma goto_from_universal_not_anchored :
  let o' := gotoSelection 1 (Sel_Body planet) 5.0 Vec.UnitY Universal observer0 in
  getCoordinateSystem (ptr_target (frame observer0)) = Universal /\
  getRefObject (ptr_target (frame o')) = Sel_Nil /\
  getRefObject (ptr_target (frame o')) <> Sel_Body planet.
Proof.
  cbv zeta.
  rewrite observer0_value. cbn.
  repeat split. discriminate.
Qed.

Lemma farPoint_out_of_bounds : isOutOfBounds farPoint = true.
Proof. apply outOfBounds_large_x. unfold farPoint; cbn [ux]. lra. Qed.

(** C1, the code at the failing input.  [setPosition] stores an
    out-of-bounds coordinate in [positionUniv] as it is; the tick that
    follows finds the attempted universal position out of bounds and
    keeps [positionUniv], so the value kept is the out-of-bounds one. *)
Lemma setPosition_commits_out_of_bounds :
  let o1 := calls [CallSetPosition farPoint] observer0 in
  let o2 := calls [CallSetPosition farPoint; CallUpdate 1 1] observer0 in
  isOutOfBounds farPoint = true /\
  getPosition o1 = farPoint /\ isOutOfBounds (getPosition o1) = true /\
  getPosition o2 = farPoint /\ isOutOfBounds (getPosition o2) = true.
Proof.
  cbv zeta. unfold calls. cbn [fold_left call].
  assert (H1 : getPosition (setPosition farPoint observer0) = farPoint)
    by reflexivity.
  assert (H2 : getPosition (update 1 1 (setPosition farPoint observer0)) = farPoint).
  { pose proof (update_at_rest 1 1 (setPosition farPoint observer0)) as H.
    cbv zeta in H.
    assert (Hoob : isOutOfBounds
                     (convertToUniversal
                        (ptr_target (frame (setPosition farPoint observer0)))
                        (position (setPosition farPoint observer0))
                        (simTime (update 1 1 (setPosition farPoint observer0))))
                   = true).
    { apply outOfBounds_large_x. rewrite observer0_value.
      unfold setPosition, convertToUniversal, convertFromUniversal, farPoint.
      cbn [frame position set_position set_positionUniv ptr_target of_frame
           ObserverFrame_default rf_toUniversal rf_fromUniversal world
           createFrame getCenter sel_getPosition].
      unfold UC.offsetKm, UC.offsetFromKm, UC.Zero. cbn [ux uy uz vx vy vz]. lra. }
    rewrite Hoob in H.
    destruct H as [H _];
      try (rewrite observer0_value; reflexivity).
    exact H. }
  rewrite H1, H2. repeat split; apply farPoint_out_of_bounds.
Qed.


Lemma cruiser_targetVelocity : targetVelocity cruiser = mkVector3d 0 0 (-1).
Proof.
  unfold cruiser, gotoLocation, setTargetSpeed. rewrite observer0_value.
  cbn [targetVelocity set_observerMode set_journey set_beginAccelTime
       set_initialVelocity set_targetVelocity set_trackingOrientation
       set_targetSpeed trackObject sel_empty reverseFlag getOrientation
       orientationUniv trackingOrientation].
  unfold Quat.rotate, Quat.conjugate, Quat.Identity, Quat.vec, Vec.cross, Vec.add,
    Vec.scale. cbn [qw qx qy qz vx vy vz]. f_equal; ring.
Qed.

Lemma cruiser_fields :
  observerMode cruiser = Travelling /\ duration (journey cruiser) = 1 /\
  startTime (journey cruiser) = 0 /\ traj (journey cruiser) = Linear /\
  to (journey cruiser) = mkUniversalCoord 2 0 0 /\
  realTime cruiser = 0 /\ beginAccelTime cruiser = 0 /\
  frame cruiser = mkFramePtr 0 ObserverFrame_default.
Proof.
  unfold cruiser, gotoLocation, setTargetSpeed. rewrite observer0_value.
  repeat split.
Qed.

(** C3, counterexample.  A one-second journey started after a target
    speed was set: the tick that completes it blends the velocity to the
    target velocity and moves on, so at its end the velocity is not zero
    and the position is one kilometre past [journey.to]. *)
Lemma arrival_with_target_speed :
  let o' := update 1 0 cruiser in
  (observerMode cruiser = Travelling /\ 0 < duration (journey cruiser) /\
   traj (journey cruiser) = Linear /\
   startTime (journey cruiser) + duration (journey cruiser) <= realTime cruiser + 1) /\
  velocity o' = mkVector3d 0 0 (-1) /\
  position o' = mkUniversalCoord 2 0 (-1) /\
  velocity o' <> Vec.Zero /\ position o' <> to (journey cruiser).
Proof.
  cbv zeta.
  destruct cruiser_fields as (Hm & Hd & Hs & Ht & Hto & Hr & Hb & Hf).
  assert (Hpre : observerMode cruiser = Travelling /\ 0 < duration (journey cruiser) /\
                 traj (journey cruiser) = Linear /\
                 startTime (journey cruiser) + duration (journey cruiser)
                 <= realTime cruiser + 1).
  { rewrite Hm, Hd, Hs, Ht, Hr. repeat split; lra. }
  destruct Hpre as (P1 & P2 & P3 & P4).
  assert (P3' : traj (journey cruiser) <> CircularOrbit) by (rewrite P3; discriminate).
  destruct (update_on_arrival_moving 1 0 cruiser P1 P2 P3' P4) as [Hv Hp].
  cbv zeta in Hv, Hp.
  destruct (updateClock_fields 1 0 cruiser)
    as (Hcr & Hcm & Hcj & Hcf & Hctv & Hcav & Hcto & Hcpu & Hcb).
  cbv zeta in *.
  assert (Hvel : velocity (update 1 0 cruiser) = mkVector3d 0 0 (-1)).
  { rewrite Hv, updateVelocity_reached.
    - unfold arrived. cbn [targetVelocity setVelocity set_velocity set_observerMode
                             set_orientation set_position].
      rewrite Hctv. apply cruiser_targetVelocity.
    - reflexivity.
    - unfold arrived. cbn [realTime beginAccelTime setVelocity set_velocity
                             set_observerMode set_orientation set_position].
      rewrite Hcr, Hcb, Hr, Hb. unfold VELOCITY_CHANGE_TIME. lra.
    - unfold arrived. cbn [targetVelocity setVelocity set_velocity set_observerMode
                             set_orientation set_position].
      rewrite Hctv, cruiser_targetVelocity. unfold Vec.norm.
      replace (Vec.squaredNorm (mkVector3d 0 0 (-1))) with 1
        by (unfold Vec.squaredNorm, Vec.dot; cbn [vx vy vz]; ring).
      rewrite sqrt_1. lra. }
  assert (Hpos : position (update 1 0 cruiser) = mkUniversalCoord 2 0 (-1)).
  { rewrite Hp.
    - rewrite Hvel, Hto. unfold UC.offsetKm, Vec.scale. cbn [ux uy uz vx vy vz].
      f_equal; ring.
    - rewrite Hvel, Hto, Hf.
      apply outOfBounds_small;
        unfold convertToUniversal;
        cbn [ptr_target of_frame ObserverFrame_default rf_toUniversal world
             createFrame getCenter sel_getPosition];
        unfold UC.offsetKm, UC.offsetFromKm, UC.Zero, Vec.scale;
        cbn [ux uy uz vx vy vz]; small_abs. }
  split; [ repeat split; assumption | ].
  split; [ exact Hvel | split; [ exact Hpos | split ] ].
  - rewrite Hvel. intros H. apply (f_equal vz) in H. cbn [vz Vec.Zero] in H. lra.
  - rewrite Hpos, Hto. intros H. apply (f_equal uz) in H. cbn [uz] in H. lra.
Qed.


Lemma traveller_fields :
  observerMode traveller = Travelling /\ duration (journey traveller) = 1 /\
  startTime (journey traveller) = 0 /\ traj (journey traveller) = Linear /\
  to (journey traveller) = mkUniversalCoord 2 0 0 /\
  realTime traveller = 0 /\ targetVelocity traveller = Vec.Zero /\
  frame traveller = mkFramePtr 0 ObserverFrame_default.
Proof.
  unfold traveller, gotoLocation. rewrite observer0_value.
  repeat split.
Qed.

Lemma near_origin_in_bounds (x y z : R) (t : R) :
  Rabs x <= 1e19 -> Rabs y <= 1e19 -> Rabs z <= 1e19 ->
  isOutOfBounds
    (convertToUniversal ObserverFrame_default (mkUniversalCoord x y z) t) = false.
Proof.
  intros Hx Hy Hz.
  apply outOfBounds_small;
    unfold convertToUniversal;
    cbn [ptr_target of_frame ObserverFrame_default rf_toUniversal world
         createFrame getCenter sel_getPosition];
    unfold UC.offsetKm, UC.offsetFromKm, UC.Zero;
    cbn [ux uy uz vx vy vz]; unfold Rabs in *;
    repeat match goal with
           | H : context [Rcase_abs ?a] |- _ => destruct (Rcase_abs a)
           | |- context [Rcase_abs ?a] => destruct (Rcase_abs a)
           end; lra.
Qed.

(** C3, witness: the same journey without a target speed. *)
Lemma journey_completion_witness :
  (observerMode traveller = Travelling /\ 0 < duration (journey traveller) /\
   traj (journey traveller) <> CircularOrbit /\
   startTime (journey traveller) + duration (journey traveller)
   <= realTime traveller + 1) /\
  observerMode (update 1 0 traveller) = Free /\
  velocity (update 1 0 traveller) = Vec.Zero /\
  position (update 1 0 traveller) = to (journey traveller).
Proof.
  destruct traveller_fields as (Hm & Hd & Hs & Ht & Hto & Hr & Htv & Hf).
  assert (P2 : 0 < duration (journey traveller)) by (rewrite Hd; lra).
  assert (P3 : traj (journey traveller) <> CircularOrbit)
    by (rewrite Ht; discriminate).
  assert (P4 : startTime (journey traveller) + duration (journey traveller)
               <= realTime traveller + 1) by (rewrite Hs, Hd, Hr; lra).
  split; [ repeat split; assumption | ].
  destruct (journey_completion 1 0 traveller Hm P2 P3 P4)
    as (_ & Hmode & _ & Hrest & _).
  destruct (Hrest Htv) as [Hvel Hpos].
  split; [ exact Hmode | split; [ exact Hvel | ] ].
  apply Hpos. rewrite Hto, Hf. cbn [ptr_target].
  apply near_origin_in_bounds; unfold Rabs; destruct (Rcase_abs _); lra.
Defined.


Lemma voyager_fields :
  traj (journey voyager) = Linear /\ accelTime (journey voyager) = 0.5 /\
  from (journey voyager) = UC.Zero /\ to (journey voyager) = mkUniversalCoord 1 0 0 /\
  0.0001 <= expFactor (journey voyager).
Proof.
  unfold voyager, gotoJourney.
  cbn [journey set_observerMode set_journey traj accelTime from to expFactor
       set_startTime set_expFactor shortJourney].
  repeat split. apply calibrateExpFactor_range.
Qed.

Lemma voyager_distance :
  Vec.norm (UC.offsetFromKm (to (journey voyager)) (from (journey voyager))) = 1.
Proof.
  destruct voyager_fields as (_ & _ & Hfrom & Hto & _). rewrite Hfrom, Hto.
  unfold Vec.norm.
  replace (Vec.squaredNorm (UC.offsetFromKm (mkUniversalCoord 1 0 0) UC.Zero)) with 1
    by (unfold Vec.squaredNorm, Vec.dot, UC.offsetFromKm, UC.Zero;
        cbn [ux uy uz vx vy vz]; ring).
  apply sqrt_1.
Qed.

(** C4, counterexample.  At progress [t = 0.125] ([u = 0.25 < s = 0.5])
    of a one-kilometre Linear journey the distance travelled from
    [from] is [exp(k * 0.25) - 1], which differs from
    [exp(k * s * 0.25) - 1]. *)
Lemma profile_exponent_differs :
  let j := journey voyager in
  let k := expFactor j in
  let s := accelTime j in
  (traj j = Linear /\ s = 0.5 /\ 0.125 * 2 < s) /\
  travelProfile j 0.125 = exp (k * 0.25) - 1 /\
  Vec.norm (UC.offsetFromKm (journeyPosition voyager 0.125) (from j))
    = exp (k * 0.25) - 1 /\
  exp (k * 0.25) - 1 <> exp (k * s * 0.25) - 1.
Proof.
  cbv zeta.
  destruct voyager_fields as (Ht & Hs & Hfrom & Hto & Hk).
  assert (Hx : travelProfile (journey voyager) 0.125
               = exp (expFactor (journey voyager) * 0.25) - 1).
  { unfold travelProfile. rewrite Hs.
    destruct (Rlt_dec 0.125 0.5); [ | lra ].
    destruct (Rlt_dec (0.125 * 2) 0.5); [ | lra ].
    replace (0.125 * 2) with 0.25 by lra. reflexivity. }
  assert (Hpos : 0 <= exp (expFactor (journey voyager) * 0.25) - 1).
  { pose proof (exp_ineq1_le (expFactor (journey voyager) * 0.25)). lra. }
  split; [ rewrite Hs; repeat split; try exact Ht; lra | ].
  split; [ exact Hx | split ].
  - pose proof (linear_profile_facts voyager 0.125 Ht) as H.
    rewrite voyager_distance in H. specialize (H ltac:(lra)).
    cbv zeta in H. destruct H as (_ & _ & H).
    destruct (Rlt_dec 0.125 0.5); [ | lra ].
    destruct H as [_ H]. rewrite H, Hx. apply Rabs_right. lra.
  - rewrite Hs. intros H.
    assert (E : exp (expFactor (journey voyager) * 0.25)
                = exp (expFactor (journey voyager) * 0.5 * 0.25)) by lra.
    apply exp_inv in E. lra.
Qed.

(** C4, witness: the same journey. *)
Lemma linear_travel_profile_witness :
  (traj (journey voyager) = Linear /\
   Vec.norm (UC.offsetFromKm (to (journey voyager)) (from (journey voyager))) <> 0) /\
  derivable_pt_lim (fun u => exp (expFactor (journey voyager) * u) - 1)
                   (accelTime (journey voyager))
                   (expFactor (journey voyager) *
                    exp (expFactor (journey voyager) * accelTime (journey voyager))).
Proof.
  destruct voyager_fields as (Ht & _).
  assert (Hn : Vec.norm (UC.offsetFromKm (to (journey voyager))
                                         (from (journey voyager))) <> 0)
    by (rewrite voyager_distance; lra).
  split; [ split; assumption | ].
  exact (proj1 (proj2 (linear_travel_profile voyager 0.125 Ht Hn))).
Defined.

Lemma steep_distance :
  Vec.norm (UC.offsetFromKm (from steepJourney) (to steepJourney)) / 2.0 = 1000.
Proof.
  unfold Vec.norm.
  replace (Vec.squaredNorm (UC.offsetFromKm (from steepJourney) (to steepJourney)))
    with (Rsqr 2000)
    by (unfold Vec.squaredNorm, Vec.dot, UC.offsetFromKm, steepJourney, UC.Zero, Rsqr;
        cbn [from to ux uy uz vx vy vz]; ring).
  rewrite sqrt_Rsqr by lra. lra.
Qed.

(** C5, counterexample.  For a journey of 2000 km with
    [accelTime = 0.01] the half-trip distance is 1000 and no [k] of the
    bisection interval comes near a root: the residual at the calibrated
    [expFactor] is below [-700]. *)
Lemma steep_journey_residual :
  let o' := gotoJourney steepJourney observer0 in
  let k := expFactor (journey o') in
  let d := Vec.norm (UC.offsetFromKm (from (journey o')) (to (journey o'))) / 2.0 in
  let s := accelTime (journey o') in
  (0 < d /\ 0 < s < 1) /\
  d = 1000 /\ s = 0.01 /\ k = calibrateExpFactor d s /\
  TravelExpFunc d s k <= -700 /\
  ~ Rabs (TravelExpFunc d s k) < 1e-8.
Proof.
  cbv zeta. unfold gotoJourney.
  cbn [journey set_observerMode set_journey accelTime from to expFactor
       set_startTime set_expFactor].
  rewrite steep_distance.
  change (accelTime steepJourney) with 0.01.
  pose proof (calibrateExpFactor_range 1000 0.01) as Hk.
  set (k := calibrateExpFactor 1000 0.01) in *.
  assert (Hf : TravelExpFunc 1000 0.01 k <= -700).
  { unfold TravelExpFunc.
    assert (He : exp (k * 0.01) <= 3).
    { apply Rle_trans with (exp 1); [ apply exp_monotone; lra | apply exp_le_3 ]. }
    pose proof (exp_pos (k * 0.01)).
    assert (0 < k * (1 - 0.01) + 1 <= 100) by lra.
    nra. }
  repeat split; try lra.
  intros H. unfold Rabs in H. destruct (Rcase_abs _); lra.
Qed.

Lemma easy_distance :
  Vec.norm (UC.offsetFromKm (from easyJourney) (to easyJourney)) / 2.0 = 10.
Proof.
  unfold Vec.norm.
  replace (Vec.squaredNorm (UC.offsetFromKm (from easyJourney) (to easyJourney)))
    with (Rsqr 20)
    by (unfold Vec.squaredNorm, Vec.dot, UC.offsetFromKm, easyJourney, UC.Zero, Rsqr;
        cbn [from to ux uy uz vx vy vz]; ring).
  rewrite sqrt_Rsqr by lra. lra.
Qed.

Lemma easy_bracket :
  0 < 0.5 < 1 /\ TravelExpFunc 10 0.5 0.0001 < 0 /\ 0 <= TravelExpFunc 10 0.5 100.0.
Proof.
  assert (H2 : TravelExpFunc 10 0.5 0.0001 < 0).
  { unfold TravelExpFunc.
    assert (He : exp (0.0001 * 0.5) <= 3).
    { apply Rle_trans with (exp 1); [ apply exp_monotone; lra | apply exp_le_3 ]. }
    pose proof (exp_pos (0.0001 * 0.5)). nra. }
  assert (H3 : 0 <= TravelExpFunc 10 0.5 100.0).
  { unfold TravelExpFunc.
    pose proof (exp_ineq1_le (100.0 * 0.5)). nra. }
  repeat split; try assumption; lra.
Qed.

(** C5, witness: the journey of 20 km with [accelTime = 0.5], started
    by [gotoJourney]; its half-trip distance is 10. *)
Lemma expFactor_calibration_witness :
  (0 < 0.5 < 1 /\ TravelExpFunc 10 0.5 0.0001 < 0 /\ 0 <= TravelExpFunc 10 0.5 100.0) /\
  accelTime (journey (gotoJourney easyJourney observer0)) = 0.5 /\
  Rabs (TravelExpFunc 10 0.5 (expFactor (journey (gotoJourney easyJourney observer0))))
  < 1e-8.
Proof.
  split; [ exact easy_bracket | ].
  pose proof (expFactor_calibration 1 Sel_Nil 1 0.25 0.75 0.5 Vec.Zero Universal
                Vec.UnitY Universal Sel_Nil easyJourney UC.Zero Quat.Identity 1
                observer0) as H.
  cbv zeta in H. destruct H as (_ & _ & (Ha & _ & _ & H) & _).
  rewrite easy_distance in H.
  change (accelTime easyJourney) with 0.5 in H, Ha.
  split; [ exact Ha | ].
  destruct easy_bracket as (H1 & H2 & H3).
  apply (proj2 (H H1 H2 H3)). lra.
Defined.

Lemma unitBall_preferred : getPreferredDistance (Sel_Body unitBall) = 5.
Proof.
  unfold getPreferredDistance, getPreferredDistance_body, sel_radius.
  cbn [body_isInvisible body_getRadius objects unitBall ball_radius]. lra.
Qed.

(** C6, counterexample.  For the unit ball the preferred distance is 5.
    From 1000 km (far) the goto distance is the preferred distance 5,
    not one tenth of the current distance; from 20 km (near) it is one
    tenth of the current distance, 2, not the preferred distance. *)
Lemma far_goes_to_preferred :
  getPreferredDistance (Sel_Body unitBall) = 5 /\
  getOrbitDistance (Sel_Body unitBall) 1000 = 5 /\
  getOrbitDistance (Sel_Body unitBall) 1000 <> 1000 * 0.1 /\
  getOrbitDistance (Sel_Body unitBall) 20 = 2 /\
  getOrbitDistance (Sel_Body unitBall) 20 <> getPreferredDistance (Sel_Body unitBall).
Proof.
  assert (Hfar : getOrbitDistance (Sel_Body unitBall) 1000 = 5).
  { unfold getOrbitDistance. rewrite unitBall_preferred.
    cbn [sel_radius body_getRadius objects unitBall ball_radius].
    destruct (Rlt_dec (5 * 10.0) 1000); [ | lra ].
    unfold maxR. destruct (Rlt_dec 5 (1.01 * 1)); lra. }
  assert (Hnear : getOrbitDistance (Sel_Body unitBall) 20 = 2).
  { unfold getOrbitDistance. rewrite unitBall_preferred.
    cbn [sel_radius body_getRadius objects unitBall ball_radius].
    destruct (Rlt_dec (5 * 10.0) 20); [ lra | ].
    unfold maxR. destruct (Rlt_dec (20 * 0.1) (1.01 * 1)); lra. }
  rewrite Hfar, Hnear, unitBall_preferred. repeat split; lra.
Qed.


Lemma planet_distance :
  Vec.norm (UC.offsetFromKm (ball_position planet) UC.Zero) = 1000000.
Proof.
  unfold Vec.norm.
  replace (Vec.squaredNorm (UC.offsetFromKm (ball_position planet) UC.Zero))
    with (Rsqr 1000000)
    by (unfold Vec.squaredNorm, Vec.dot, UC.offsetFromKm, planet, UC.Zero, Rsqr;
        cbn [ball_position ux uy uz vx vy vz]; ring).
  apply sqrt_Rsqr. lra.
Qed.

Lemma planet_preferred : getPreferredDistance (Sel_Body planet) = 5 * 6371.
Proof.
  unfold getPreferredDistance, getPreferredDistance_body, sel_radius.
  cbn [body_isInvisible body_getRadius objects planet ball_radius]. lra.
Qed.

Lemma planet_orbit_distance :
  getOrbitDistance (Sel_Body planet) 1000000 = 5 * 6371.
Proof.
  unfold getOrbitDistance. rewrite planet_preferred.
  cbn [sel_radius body_getRadius objects planet ball_radius].
  destruct (Rlt_dec (5 * 6371 * 10.0) 1000000); [ | lra ].
  unfold maxR. destruct (Rlt_dec (5 * 6371) (1.01 * 6371)); lra.
Qed.

(** C6, witness: a goto of the planet from the origin. *)
Lemma orbit_distance_policy_witness :
  (sel_empty (Sel_Body planet) = false /\ 0 <= sel_radius (Sel_Body planet) /\
   rf_getOrientation (J2000EclipticFrame Sel_Nil) (simTime observer0) = Quat.Identity /\
   Vec.norm (UC.offsetFromKm (sel_getPosition (Sel_Body planet) (simTime observer0))
                             (getPosition observer0)) <> 0) /\
  1.01 * sel_radius (Sel_Body planet)
  <= getOrbitDistance (Sel_Body planet)
       (Vec.norm (UC.offsetFromKm (sel_getPosition (Sel_Body planet) (simTime observer0))
                                  (getPosition observer0))).
Proof.
  assert (H1 : sel_empty (Sel_Body planet) = false) by reflexivity.
  assert (H2 : 0 <= sel_radius (Sel_Body planet)).
  { cbn [sel_radius body_getRadius objects planet ball_radius]. lra. }
  assert (H3 : rf_getOrientation (J2000EclipticFrame Sel_Nil) (simTime observer0)
               = Quat.Identity) by reflexivity.
  assert (H4 : Vec.norm (UC.offsetFromKm
                           (sel_getPosition (Sel_Body planet) (simTime observer0))
                           (getPosition observer0)) <> 0).
  { rewrite observer0_value.
    cbn [sel_getPosition body_getPosition objects getPosition positionUniv simTime].
    rewrite planet_distance. lra. }
  split; [ repeat split; assumption | ].
  exact (proj1 (proj2 (orbit_distance_policy 1 (Sel_Body planet) 5 0 0.5 0.5
                         Vec.UnitY Universal observer0 H1 H2 H3 H4))).
Defined.

Lemma orbiter_consistent : frameConsistent orbiter.
Proof. unfold frameConsistent, orbiter. reflexivity. Qed.

(** C8, witness: a half turn about the unit ball from 3 km. *)
Lemma orbit_preserves_distance_witness :
  frameConsistent orbiter /\
  Vec.norm
    (UC.offsetFromKm
       (position (orbit 2 (Sel_Body unitBall) halfTurn orbiter))
       (orbitFocus (fst (orbitCenter 2 (Sel_Body unitBall) orbiter))
                   (snd (orbitCenter 2 (Sel_Body unitBall) orbiter)))) =
  Vec.norm
    (UC.offsetFromKm
       (position (snd (orbitCenter 2 (Sel_Body unitBall) orbiter)))
       (orbitFocus (fst (orbitCenter 2 (Sel_Body unitBall) orbiter))
                   (snd (orbitCenter 2 (Sel_Body unitBall) orbiter)))).
Proof.
  split; [ exact orbiter_consistent | ].
  exact (orbit_preserves_distance 2 (Sel_Body unitBall) halfTurn orbiter
           orbiter_consistent).
Defined.

(** C10, witness: a goto of the planet from its ecliptical frame. *)
Lemma goto_replaces_frame_witness :
  sel_empty (Sel_Body planet) = false /\
  frame (gotoSelection 2 (Sel_Body planet) 5 Vec.UnitY Universal visitor)
  = mkFramePtr 2 (ObserverFrame_new Ecliptical (Sel_Body planet) Sel_Nil).
Proof.
  split; [ reflexivity | ].
  exact (proj1 (proj1 (proj1 (goto_replaces_frame 2 (Sel_Body planet) 5 0 0.5 0.5
                                 1 0 0 Vec.UnitY Universal visitor eq_refl)))).
Defined.


Lemma visitor_fields :
  ptr_target (frame visitor) = ObserverFrame_new Ecliptical (Sel_Body planet) Sel_Nil /\
  getPosition visitor = UC.Zero /\ targetVelocity visitor = Vec.Zero /\
  simTime visitor = 0.
Proof.
  unfold visitor, setFrame_ref, setFrame, convertFrameCoordinates.
  rewrite observer0_value. repeat split.
Qed.

Lemma world_axes (f : ReferenceFrame) (t : R) :
  rf_getOrientation f t = Quat.Identity.
Proof. reflexivity. Qed.

Lemma visitor_goto_in_bounds :
  let o1 := gotoSelection 2 (Sel_Body planet) 5.0 Vec.UnitY Universal visitor in
  let o2 := update 5.0 1.0 o1 in
  isOutOfBounds
    (convertToUniversal (ptr_target (frame o1)) (to (journey o1)) (simTime o2)) = false.
Proof.
  cbv zeta. unfold gotoSelection.
  destruct visitor_fields as (Hframe & Hpos & Htv & Hsim).
  destruct (gotoSelection_inter_destination 2 (Sel_Body planet) 5.0 0.0 0.5
              AccelerationTime Vec.UnitY Universal visitor eq_refl
              (world_axes _ _))
    as [Hfr Hto].
  cbv zeta in Hfr, Hto.
  rewrite Hto, Hfr, Hframe, Hpos.
  cbn [sel_getPosition body_getPosition objects].
  rewrite planet_distance, planet_orbit_distance.
  apply outOfBounds_small;
    unfold convertToUniversal, convertFromUniversal;
    cbn [ptr_target of_frame ObserverFrame_new rf_toUniversal rf_fromUniversal
         world createFrame getCenter sel_getPosition body_getPosition objects
         getCoordinateSystem coordSys directGotoTag];
    unfold UC.offsetKm, UC.offsetFromKm, UC.Zero, Vec.scale, planet;
    cbn [ball_position ux uy uz vx vy vz]; small_abs.
Qed.

Lemma visitor_hypotheses :
  body_isInvisible planet = false /\ body_getRadius planet = 6371 /\
  (forall c p t, rf_toUniversal (J2000EclipticFrame c) p t =
                 UC.offsetKm (sel_getPosition c t) (UC.offsetFromKm p UC.Zero)) /\
  (forall c u t, rf_fromUniversal (J2000EclipticFrame c) u t =
                 UC.offsetKm UC.Zero (UC.offsetFromKm u (sel_getPosition c t))) /\
  (forall c t, rf_getOrientation (J2000EclipticFrame c) t = Quat.Identity) /\
  Vec.norm (UC.offsetFromKm (body_getPosition planet (simTime visitor)) UC.Zero) <> 0.
Proof.
  repeat split.
  cbn [body_getPosition objects]. rewrite planet_distance. lra.
Qed.

(** C9, counterexample.  In the scenario of the claim the orientation
    window is [[0, 0.5]], not [[0.25, 0.75]], and after the tick the
    distance to the planet is the preferred distance [5 * 6371] km, not
    five times it. *)
Lemma goto_window_and_distance :
  let o1 := gotoSelection 2 (Sel_Body planet) 5.0 Vec.UnitY Universal visitor in
  let o2 := update 5.0 1.0 o1 in
  let reached :=
    Vec.norm (UC.offsetFromKm (getPosition o2)
                              (sel_getPosition (Sel_Body planet) (getTime o2))) in
  (startInterpolation (journey o1) = 0 /\ endInterpolation (journey o1) = 0.5 /\
   observerMode o2 = Free /\ reached = 5 * 6371) /\
  startInterpolation (journey o1) <> 0.25 /\
  endInterpolation (journey o1) <> 0.75 /\
  reached <> 5 * (5 * 6371).
Proof.
  cbv zeta.
  destruct visitor_fields as (Hframe & Hpos & Htv & Hsim).
  destruct visitor_hypotheses as (H1 & H2 & H3 & H4 & H5 & H6).
  destruct (goto_then_tick 2 planet Vec.UnitY Universal visitor
              H1 H2 H3 H4 H5 Hframe Hpos Htv H6 visitor_goto_in_bounds)
    as ((Hs & He & _) & Hmode & Hdist & _ & _).
  assert (Hreach : Vec.norm
                     (UC.offsetFromKm
                        (getPosition
                           (update 5.0 1.0
                              (gotoSelection 2 (Sel_Body planet) 5.0 Vec.UnitY
                                             Universal visitor)))
                        (sel_getPosition (Sel_Body planet)
                           (getTime
                              (update 5.0 1.0
                                 (gotoSelection 2 (Sel_Body planet) 5.0 Vec.UnitY
                                                Universal visitor))))) = 5 * 6371).
  { rewrite Hdist. cbn [body_getPosition objects].
    rewrite planet_distance. apply planet_orbit_distance. }
  rewrite Hs, He, Hreach.
  repeat split; try assumption; lra.
Qed.

(** C9, witness: the scenario in the static universe. *)
Lemma goto_scenario_witness :
  (body_isInvisible planet = false /\ body_getRadius planet = 6371 /\
   ptr_target (frame visitor) = ObserverFrame_new Ecliptical (Sel_Body planet) Sel_Nil /\
   getPosition visitor = UC.Zero /\ targetVelocity visitor = Vec.Zero) /\
  observerMode
    (update 5.0 1.0 (gotoSelection 2 (Sel_Body planet) 5.0 Vec.UnitY Universal visitor))
  = Free.
Proof.
  destruct visitor_fields as (Hframe & Hpos & Htv & Hsim).
  destruct visitor_hypotheses as (H1 & H2 & H3 & H4 & H5 & H6).
  split; [ repeat split; assumption | ].
  exact (proj1 (proj2 (goto_scenario 2 planet Vec.UnitY Universal visitor
                         H1 H2 H3 H4 H5 Hframe Hpos Htv H6 visitor_goto_in_bounds))).
Defined.

End StaticFacts.

(* ------------------------------------------------------------------ *)
(** ** What a tick keeps *)

Section TickInvariants.
Context {O : CelestialObjects} {C : Collaborators}.

Lemma sameControls_refl (o : Observer) : sameControls o o.
Proof. unfold sameControls; repeat split. Qed.

Lemma sameControls_trans (a b c : Observer) :
  sameControls a b -> sameControls b c -> sameControls a c.
Proof.
  unfold sameControls.
  intros (A1 & A2 & A3 & A4 & A5 & A6 & A7 & A8 & A9 & A10 & A11 & A12 & A13)
         (B1 & B2 & B3 & B4 & B5 & B6 & B7 & B8 & B9 & B10 & B11 & B12 & B13).
  repeat split; congruence.
Qed.

Lemma updateClock_controls (dt timeScale : R) (o : Observer) :
  sameControls o (updateClock dt timeScale o).
Proof.
  unfold updateClock, sameControls. cbv zeta.
  destruct (Rge_dec _ _); destruct (Rle_dec _ _); cbn; repeat split.
Qed.

Lemma updateClock_time (dt timeScale : R) (o : Observer) :
  let o' := updateClock dt timeScale o in
  minimumSimTime <= simTime o' <= maximumSimTime /\
  (minimumSimTime < simTime o + dt / 86400.0 * timeScale < maximumSimTime ->
   simTime o' = simTime o + dt / 86400.0 * timeScale) /\
  (maximumSimTime <= simTime o + dt / 86400.0 * timeScale ->
   simTime o' = maximumSimTime) /\
  (simTime o + dt / 86400.0 * timeScale <= minimumSimTime ->
   simTime o' = minimumSimTime).
Proof.
  unfold updateClock. cbv zeta.
  assert (Hmm : minimumSimTime < maximumSimTime)
    by (unfold minimumSimTime, maximumSimTime; lra).
  cbn [simTime set_simTime set_realTime].
  destruct (Rge_dec _ _) as [H1 | H1]; cbn [simTime set_simTime];
    destruct (Rle_dec _ _) as [H2 | H2]; cbn [simTime set_simTime];
    repeat split; intros; lra.
Qed.

Lemma updateJourney_controls (o : Observer) :
  sameControls o (updateJourney o) /\
  simTime (updateJourney o) = simTime o /\ realTime (updateJourney o) = realTime o.
Proof.
  unfold updateJourney, sameControls. cbv zeta.
  destruct (Req_dec_T _ 1); [ destruct (traj (journey o)) | ]; cbn; repeat split.
Qed.

Lemma updateVelocity_controls (o : Observer) :
  sameControls o (updateVelocity o) /\
  simTime (updateVelocity o) = simTime o /\ realTime (updateVelocity o) = realTime o.
Proof.
  unfold updateVelocity, sameControls. cbv zeta.
  destruct (Vec.eq_dec _ _); [ repeat split | ].
  destruct (Rlt_dec _ _); cbn; repeat split.
Qed.

Lemma updateManual_controls (dt : R) (o : Observer) :
  sameControls o (updateManual dt o) /\
  simTime (updateManual dt o) = simTime o /\ realTime (updateManual dt o) = realTime o.
Proof.
  destruct (updateVelocity_controls o) as (Hc & Hs & Hr).
  destruct (updateVelocity_fields o) as (Hm & _).
  cbv zeta in Hm.
  unfold updateManual. cbv zeta. cbn [observerMode set_position].
  rewrite Hm.
  unfold sameControls in *.
  destruct Hc as (A1 & A2 & A3 & A4 & A5 & A6 & A7 & A8 & A9 & A10 & A11 & A12 & A13).
  destruct (observerMode o); unfold updateOrientation; cbn; repeat split; assumption.
Qed.

Lemma updateUniversal_controls (o : Observer) :
  sameControls o (updateUniversal o) /\
  simTime (updateUniversal o) = simTime o /\ realTime (updateUniversal o) = realTime o.
Proof.
  unfold updateUniversal, sameControls. cbv zeta.
  destruct (isOutOfBounds _); cbn; repeat split.
Qed.

Lemma updateTracking_controls (o : Observer) :
  sameControls o (updateTracking o) /\
  simTime (updateTracking o) = simTime o /\ realTime (updateTracking o) = realTime o.
Proof.
  unfold updateTracking, sameControls. cbv zeta.
  destruct (sel_empty _); cbn; repeat split.
Qed.

(** The state on which the last three blocks of [update] act. *)
Lemma update_after_journey (dt timeScale : R) (o : Observer) :
  let x := match observerMode o with
           | Travelling => updateJourney (updateClock dt timeScale o)
           | Free => updateClock dt timeScale o
           end in
  update dt timeScale o = updateTracking (updateUniversal (updateManual dt x)) /\
  sameControls o x /\
  simTime x = simTime (updateClock dt timeScale o) /\
  realTime x = realTime o + dt.
Proof.
  cbv zeta. rewrite update_blocks.
  destruct (updateClock_fields dt timeScale o) as (Hr & Hm & _).
  cbv zeta in Hr, Hm.
  pose proof (updateClock_controls dt timeScale o) as Hc.
  rewrite Hm.
  destruct (observerMode o) eqn:E.
  - split; [ reflexivity | ].
    split; [ exact Hc | ].
    split; [ reflexivity | exact Hr ].
  - destruct (updateJourney_controls (updateClock dt timeScale o)) as (Hj & Hs & Hjr).
    split; [ reflexivity | ].
    split; [ eapply sameControls_trans; eassumption | ].
    split; [ exact Hs | rewrite Hjr; exact Hr ].
Qed.

Lemma update_tail_controls (dt : R) (x : Observer) :
  let o' := updateTracking (updateUniversal (updateManual dt x)) in
  sameControls x o' /\ simTime o' = simTime x /\ realTime o' = realTime x.
Proof.
  cbv zeta.
  destruct (updateManual_controls dt x) as (C1 & S1 & R1).
  destruct (updateUniversal_controls (updateManual dt x)) as (C2 & S2 & R2).
  destruct (updateTracking_controls (updateUniversal (updateManual dt x)))
    as (C3 & S3 & R3).
  split; [ | split; congruence ].
  eapply sameControls_trans; [ exact C1 | ].
  eapply sameControls_trans; [ exact C2 | exact C3 ].
Qed.

Lemma update_tail_mode (dt : R) (x : Observer) :
  observerMode (updateTracking (updateUniversal (updateManual dt x))) = observerMode x.
Proof.
  destruct (updateManual_fields dt x) as (Hm & _).
  destruct (updateUniversal_frame (updateManual dt x)) as (_ & _ & _ & Hum & _).
  destruct (updateTracking_fields (updateUniversal (updateManual dt x))) as (Htm & _).
  cbv zeta in *. congruence.
Qed.

Lemma update_clock_facts (dt timeScale : R) (o : Observer) :
  let o' := update dt timeScale o in
  let wanted := simTime o + dt / 86400.0 * timeScale in
  realTime o' = realTime o + dt /\
  minimumSimTime <= simTime o' <= maximumSimTime /\
  (minimumSimTime < wanted < maximumSimTime -> simTime o' = wanted) /\
  (maximumSimTime <= wanted -> simTime o' = maximumSimTime) /\
  (wanted <= minimumSimTime -> simTime o' = minimumSimTime).
Proof.
  cbv zeta.
  destruct (update_after_journey dt timeScale o) as (Hu & Hc & Hs & Hr).
  cbv zeta in Hu, Hc, Hs, Hr.
  match type of Hu with _ = updateTracking (updateUniversal (updateManual dt ?x)) =>
    destruct (update_tail_controls dt x) as (_ & S & Rt) end.
  cbv zeta in S, Rt.
  rewrite Hu, S, Rt, Hs, Hr.
  split; [ reflexivity | ].
  exact (updateClock_time dt timeScale o).
Qed.

(** X1.  Whatever the observer, the time step and the time scale, a
    tick advances the real time by exactly [dt] and leaves the
    simulation time inside the supported range
    [[minimumSimTime, maximumSimTime]]: it is the advanced time
    [simTime + dt / 86400 * timeScale] when that lies strictly inside the
    range, and the bound of the range it reached or passed otherwise. *)
Theorem update_keeps_time_in_range (dt timeScale : R) (o : Observer) :
  let o' := update dt timeScale o in
  let wanted := simTime o + dt / 86400.0 * timeScale in
  realTime o' = realTime o + dt /\
  minimumSimTime <= simTime o' <= maximumSimTime /\
  (minimumSimTime < wanted < maximumSimTime -> simTime o' = wanted) /\
  (maximumSimTime <= wanted -> simTime o' = maximumSimTime) /\
  (wanted <= minimumSimTime -> simTime o' = minimumSimTime).
Proof. exact (update_clock_facts dt timeScale o). Qed.

(** X2.  A tick writes the clocks, the position and orientation pairs,
    the velocity and the mode, and nothing else: the frame pointer, the
    journey parameters, the tracked object and the tracking orientation,
    the angular velocity, the target speed and velocity, the time the
    acceleration began, the field of view, the reverse flag, the
    location filter and the displayed surface are as before, in every
    mode and whether or not a journey completes. *)
Theorem update_keeps_controls (dt timeScale : R) (o : Observer) :
  sameControls o (update dt timeScale o).
Proof.
  destruct (update_after_journey dt timeScale o) as (Hu & Hc & _).
  cbv zeta in Hu, Hc.
  match type of Hu with _ = updateTracking (updateUniversal (updateManual dt ?x)) =>
    destruct (update_tail_controls dt x) as (Ht & _) end.
  cbv zeta in Ht.
  rewrite Hu. eapply sameControls_trans; eassumption.
Qed.

Lemma clamp_range (x : R) : 0 <= clamp x 0 1 <= 1.
Proof.
  unfold clamp. destruct (Rlt_dec x 0); [ lra | ].
  destruct (Rlt_dec 1 x); lra.
Qed.

Lemma clamp_monotone (x y : R) : x <= y -> clamp x 0 1 <= clamp y 0 1.
Proof.
  intros H. unfold clamp.
  destruct (Rlt_dec x 0); destruct (Rlt_dec y 0); try lra;
    destruct (Rlt_dec 1 x); destruct (Rlt_dec 1 y); lra.
Qed.

Lemma clamp_inside (x : R) : 0 <= x <= 1 -> clamp x 0 1 = x.
Proof.
  intros H. unfold clamp. destruct (Rlt_dec x 0); [ lra | ].
  destruct (Rlt_dec 1 x); lra.
Qed.

Lemma clamp_lower (x : R) : x <= 0 -> clamp x 0 1 = 0.
Proof.
  intros H. unfold clamp. destruct (Rlt_dec x 0); [ lra | ].
  destruct (Rlt_dec 1 x); lra.
Qed.

Lemma journeyProgress_facts (j : JourneyParams) (now later : R) :
  0 <= journeyProgress j now <= 1 /\
  (duration j <= 0 -> journeyProgress j now = 1) /\
  (0 < duration j -> now <= startTime j -> journeyProgress j now = 0) /\
  (0 < duration j -> startTime j <= now <= startTime j + duration j ->
   journeyProgress j now = (now - startTime j) / duration j) /\
  (0 < duration j -> startTime j + duration j <= now -> journeyProgress j now = 1) /\
  (now <= later -> journeyProgress j now <= journeyProgress j later).
Proof.
  unfold journeyProgress.
  destruct (Rlt_dec 0 (duration j)) as [Hd | Hd].
  - assert (Hi : 0 < / duration j) by (apply Rinv_0_lt_compat; exact Hd).
    split; [ apply clamp_range | ].
    split; [ intros; lra | ].
    split; [ intros _ Hn; apply clamp_lower; unfold Rdiv; nra | ].
    split.
    { intros _ Hn. apply clamp_inside. unfold Rdiv. split; [ nra | ].
      apply Rmult_le_reg_r with (duration j); [ exact Hd | ].
      rewrite Rmult_assoc, Rinv_l by lra. lra. }
    split.
    { intros _ Hn. apply clamp_upper.
      apply Rmult_le_reg_r with (duration j); [ exact Hd | ].
      unfold Rdiv. rewrite Rmult_assoc, Rinv_l by lra. lra. }
    intros Hl. apply clamp_monotone. unfold Rdiv. nra.
  - repeat split; intros; lra.
Qed.

(** X3.  The fraction of a journey that has elapsed always lies in
    [[0, 1]] and never decreases as the real time grows.  A journey
    whose duration is zero or negative is complete at once (fraction 1,
    no division takes place); one of positive duration is at 0 until its
    start time, at [(now - startTime) / duration] during the trip and at
    1 from [startTime + duration] on. *)
Theorem journeyProgress_range (j : JourneyParams) (now later : R) :
  0 <= journeyProgress j now <= 1 /\
  (duration j <= 0 -> journeyProgress j now = 1) /\
  (0 < duration j -> now <= startTime j -> journeyProgress j now = 0) /\
  (0 < duration j -> startTime j <= now <= startTime j + duration j ->
   journeyProgress j now = (now - startTime j) / duration j) /\
  (0 < duration j -> startTime j + duration j <= now -> journeyProgress j now = 1) /\
  (now <= later -> journeyProgress j now <= journeyProgress j later).
Proof. exact (journeyProgress_facts j now later). Qed.

Lemma blend_at_one (v w : Vector3d) :
  Vec.add (Vec.scale v (1 - 1)) (Vec.scale w 1) = w.
Proof.
  destruct v, w. unfold Vec.add, Vec.scale. cbn. f_equal; ring.
Qed.

Lemma updateVelocity_settled (o : Observer) :
  VELOCITY_CHANGE_TIME <= realTime o - beginAccelTime o ->
  (1.0e-12 <= Vec.norm (targetVelocity o) ->
   velocity (updateVelocity o) = targetVelocity o) /\
  (Vec.norm (targetVelocity o) < 1.0e-12 ->
   velocity (updateVelocity o) = Vec.Zero \/
   velocity (updateVelocity o) = targetVelocity o).
Proof.
  intros Ht. unfold updateVelocity, getVelocity. cbv zeta.
  destruct (Vec.eq_dec (velocity o) (targetVelocity o)) as [E | N].
  - split; intros _; [ exact E | right; exact E ].
  - rewrite clamp_upper by (unfold VELOCITY_CHANGE_TIME in *; lra).
    rewrite blend_at_one.
    destruct (Rlt_dec (Vec.norm (targetVelocity o)) 1.0e-12); cbn;
      split; intros; try lra; auto.
Qed.

(** X4.  Once a quarter of a second of real time has passed since the
    target velocity was set ([beginAccelTime]), the tick leaves the
    velocity equal to the target velocity, whatever the velocity was
    and whatever the mode, provided the target is not negligible (norm
    at least [1e-12]).  A negligible target leaves the velocity either
    at the target or at exactly zero. *)
Theorem update_reaches_target_velocity (dt timeScale : R) (o : Observer) :
  VELOCITY_CHANGE_TIME <= realTime o + dt - beginAccelTime o ->
  let o' := update dt timeScale o in
  (1.0e-12 <= Vec.norm (targetVelocity o) -> velocity o' = targetVelocity o) /\
  (Vec.norm (targetVelocity o) < 1.0e-12 ->
   velocity o' = Vec.Zero \/ velocity o' = targetVelocity o).
Proof.
  intros Ht. cbv zeta.
  destruct (update_after_journey dt timeScale o) as (Hu & Hc & _ & Hr).
  cbv zeta in Hu, Hc, Hr.
  set (x := match observerMode o with
            | Travelling => updateJourney (updateClock dt timeScale o)
            | Free => updateClock dt timeScale o
            end) in *.
  rewrite Hu.
  destruct (updateManual_fields dt x) as (_ & _ & _ & _ & _ & _ & Hmv & _).
  destruct (updateUniversal_frame (updateManual dt x)) as (_ & _ & _ & _ & Huv & _).
  destruct (updateTracking_fields (updateUniversal (updateManual dt x)))
    as (_ & _ & _ & _ & _ & _ & Htv).
  cbv zeta in *.
  rewrite Htv, Huv, Hmv.
  destruct Hc as (_ & _ & _ & _ & _ & Htgt & _ & Hb & _).
  rewrite <- Htgt.
  apply updateVelocity_settled. rewrite Hr, Hb. exact Ht.
Qed.

Lemma updateJourney_ends (o : Observer) :
  journeyProgress (journey o) (realTime o) = 1 ->
  observerMode (updateJourney o) = Free.
Proof.
  intros H. unfold updateJourney. cbv zeta. rewrite H.
  destruct (Req_dec_T 1 1) as [_ | N]; [ | contradiction N; reflexivity ].
  destruct (traj (journey o)); reflexivity.
Qed.

(** X5.  For an observer on a journey, of any trajectory and any
    duration, the tick whose time step is the time left until
    [getArrivalTime] ends the journey: the mode is [Free] afterwards,
    the real time is the announced arrival time, and [getArrivalTime]
    now returns the real time, as it does for every observer that is
    not travelling. *)
Theorem tick_to_arrival_time (timeScale : R) (o : Observer) :
  observerMode o = Travelling ->
  let o' := update (getArrivalTime o - realTime o) timeScale o in
  observerMode o' = Free /\
  realTime o' = getArrivalTime o /\
  getArrivalTime o' = realTime o'.
Proof.
  intros Hm. cbv zeta.
  set (dt := getArrivalTime o - realTime o).
  assert (Hmode : observerMode (update dt timeScale o) = Free).
  { destruct (update_after_journey dt timeScale o) as (Hu & _).
    cbv zeta in Hu. rewrite Hm in Hu.
    rewrite Hu, update_tail_mode.
    apply updateJourney_ends.
    destruct (updateClock_fields dt timeScale o) as (Hcr & _ & Hcj & _).
    cbv zeta in Hcr, Hcj. rewrite Hcj, Hcr.
    destruct (journeyProgress_facts (journey o) (realTime o + dt) 0)
      as (_ & H0 & _ & _ & H1 & _).
    destruct (Rlt_dec 0 (duration (journey o))) as [Hd | Hd].
    + apply H1; [ exact Hd | ].
      unfold dt, getArrivalTime. rewrite Hm. lra.
    + apply H0. lra. }
  split; [ exact Hmode | ].
  destruct (update_clock_facts dt timeScale o) as (Hr & _).
  cbv zeta in Hr.
  split; [ rewrite Hr; unfold dt; lra | ].
  unfold getArrivalTime at 1. rewrite Hmode. reflexivity.
Qed.

End TickInvariants.

(* ------------------------------------------------------------------ *)
(** ** The two halves of a Linear journey *)

Section Mirror.
Context {O : CelestialObjects} {C : Collaborators}.

Lemma travelProfile_mirror (j : JourneyParams) (t : R) :
  travelProfile j (1 - t) = travelProfile j t.
Proof.
  unfold travelProfile.
  assert (E : (if Rlt_dec (1 - t) 0.5 then (1 - t) * 2 else (1 - (1 - t)) * 2)
              = (if Rlt_dec t 0.5 then t * 2 else (1 - t) * 2)).
  { destruct (Rlt_dec (1 - t) 0.5); destruct (Rlt_dec t 0.5); lra. }
  cbv zeta. rewrite E. reflexivity.
Qed.

Lemma travelProfile_ends (j : JourneyParams) :
  0 < accelTime j -> travelProfile j 0 = 0 /\ travelProfile j 1 = 0.
Proof.
  intros Hs. unfold travelProfile. cbv zeta.
  destruct (Rlt_dec 0 0.5); [ | lra ].
  destruct (Rlt_dec 1 0.5); [ lra | ].
  replace (0 * 2) with 0 by ring. replace ((1 - 1) * 2) with 0 by ring.
  destruct (Rlt_dec 0 (accelTime j)); [ | lra ].
  rewrite Rmult_0_r, exp_0. lra.
Qed.

Lemma squaredNorm_zero_vector (v : Vector3d) : Vec.squaredNorm v = 0 -> v = Vec.Zero.
Proof.
  destruct v as [a b c]. unfold Vec.squaredNorm, Vec.dot. cbn. intros H.
  assert (a = 0 /\ b = 0 /\ c = 0) as (-> & -> & ->) by (repeat split; nra).
  reflexivity.
Qed.

Lemma norm_zero_vector (v : Vector3d) : Vec.norm v = 0 -> v = Vec.Zero.
Proof.
  intros H. apply squaredNorm_zero_vector.
  apply sqrt_eq_0; [ apply squaredNorm_nonneg | exact H ].
Qed.

Lemma offsetFromKm_zero (p q : UniversalCoord) :
  UC.offsetFromKm p q = Vec.Zero -> p = q.
Proof.
  destruct p, q. unfold UC.offsetFromKm, Vec.Zero. cbn. intros H.
  injection H; intros. f_equal; lra.
Qed.

(** X6.  A Linear journey with a positive acceleration fraction starts
    exactly at [journey.from] (progress 0) and ends exactly at
    [journey.to] (progress 1), and its second half mirrors the first:
    the travel profile takes the same value at [t] and at [1 - t], so
    the position at progress [t < 0.5] is as far along from [from] as
    the position at [1 - t] is short of [to], in the same direction.
    Coincident end points give a journey that stays where it is: its
    position is [from] at every progress value. *)
Theorem linear_journey_mirrored (o : Observer) (t : R) :
  traj (journey o) = Linear ->
  0 < accelTime (journey o) ->
  let j := journey o in
  journeyPosition o 0 = from j /\ journeyPosition o 1 = to j /\
  travelProfile j (1 - t) = travelProfile j t /\
  (t < 0.5 ->
   UC.offsetFromKm (journeyPosition o t) (from j) =
   UC.offsetFromKm (to j) (journeyPosition o (1 - t))) /\
  (to j = from j -> journeyPosition o t = from j).
Proof.
  intros Htraj Hs j.
  destruct (travelProfile_ends (journey o) Hs) as [H0 H1].
  unfold journeyPosition. rewrite Htraj. cbv zeta. fold j.
  destruct (Req_dec_T (Vec.norm (UC.offsetFromKm (to j) (from j))) 0) as [E | N].
  - assert (Eq : to j = from j)
      by (apply offsetFromKm_zero, norm_zero_vector; exact E).
    split; [ reflexivity | ].
    split; [ symmetry; exact Eq | ].
    split; [ apply travelProfile_mirror | ].
    split; [ intros _; rewrite Eq; reflexivity | intros _; reflexivity ].
  - destruct (Rlt_dec 0 0.5); [ | lra ].
    destruct (Rlt_dec 1 0.5); [ lra | ].
    fold j in H0, H1. rewrite H0, H1.
    split.
    { destruct (from j), (Vec.normalized _).
      unfold UC.offsetKm, Vec.scale. cbn. f_equal; ring. }
    split.
    { destruct (to j), (Vec.normalized _).
      unfold UC.offsetKm, Vec.scale, Vec.neg. cbn. f_equal; ring. }
    split; [ apply travelProfile_mirror | ].
    split.
    + intros Ht.
      destruct (Rlt_dec t 0.5); [ | lra ].
      destruct (Rlt_dec (1 - t) 0.5); [ lra | ].
      rewrite travelProfile_mirror.
      destruct (from j), (to j), (Vec.normalized _).
      unfold UC.offsetFromKm, UC.offsetKm, Vec.scale, Vec.neg. cbn. f_equal; ring.
    + intros Eq. exfalso. apply N. rewrite Eq.
      replace (UC.offsetFromKm (from j) (from j)) with Vec.Zero
        by (destruct (from j); unfold UC.offsetFromKm, Vec.Zero; cbn; f_equal; ring).
      unfold Vec.norm.
      replace (Vec.squaredNorm Vec.Zero) with 0
        by (unfold Vec.squaredNorm, Vec.dot, Vec.Zero; cbn; ring).
      apply sqrt_0.
Qed.

End Mirror.

(* ------------------------------------------------------------------ *)
(** ** Orientation, rotation and target speed *)

Section Orientation.
Context {O : CelestialObjects} {C : Collaborators}.

Lemma mul_squaredNorm (a b : Quaterniond) :
  Quat.squaredNorm (Quat.mul a b) = Quat.squaredNorm a * Quat.squaredNorm b.
Proof.
  destruct a, b. unfold Quat.squaredNorm, Quat.mul. cbn. ring.
Qed.

Lemma mul_assoc (a b c : Quaterniond) :
  Quat.mul (Quat.mul a b) c = Quat.mul a (Quat.mul b c).
Proof.
  destruct a, b, c. unfold Quat.mul. cbn. f_equal; ring.
Qed.

(** One Euler step of the orientation along its angular velocity
    lengthens the quaternion, never shortens it. *)
Lemma euler_step_squaredNorm (q : Quaterniond) (h : Vector3d) (dt : R) :
  Quat.squaredNorm
    (Quat.addScaled q dt (Quat.mul (mkQuaterniond 0 (vx h) (vy h) (vz h)) q)) =
  Quat.squaredNorm q * (1 + dt * dt * Vec.squaredNorm h).
Proof.
  destruct q, h.
  unfold Quat.squaredNorm, Quat.addScaled, Quat.mul, Vec.squaredNorm, Vec.dot.
  cbn. ring.
Qed.

Lemma updateOrientation_unit (dt : R) (o : Observer) :
  0 < Quat.squaredNorm (orientation o) ->
  Quat.squaredNorm (orientation (updateOrientation dt o)) = 1.
Proof.
  intros H. unfold updateOrientation. cbv zeta. cbn [orientation set_orientation].
  apply normalized_squaredNorm.
  rewrite euler_step_squaredNorm.
  apply Rmult_lt_0_compat; [ exact H | ].
  assert (0 <= dt * dt * Vec.squaredNorm (Vec.scale (getAngularVelocity o) 0.5)).
  { apply Rmult_le_pos; [ nra | apply squaredNorm_nonneg ]. }
  lra.
Qed.

(** X7.  A tick of a free observer that tracks no object leaves the
    frame-local orientation a unit quaternion, whatever the angular
    velocity and the time step, from any orientation that is not the
    zero quaternion: the integration step only lengthens the
    quaternion, and the normalisation that follows brings it back to
    norm 1. *)
Theorem free_tick_keeps_unit_orientation (dt timeScale : R) (o : Observer) :
  observerMode o = Free ->
  sel_empty (trackObject o) = true ->
  0 < Quat.squaredNorm (orientation o) ->
  Quat.squaredNorm (orientation (update dt timeScale o)) = 1.
Proof.
  intros Hm Ht Hq.
  rewrite update_blocks.
  destruct (updateClock_fields dt timeScale o) as (_ & Hcm & _ & _ & _ & _ & Hct & _).
  destruct (updateClock_motion dt timeScale o) as (_ & _ & Hco & _).
  cbv zeta in *. rewrite Hcm, Hm.
  set (oc := updateClock dt timeScale o) in *.
  destruct (updateManual_fields dt oc) as (_ & _ & _ & _ & Hmt & _).
  destruct (updateUniversal_frame (updateManual dt oc)) as (_ & _ & Huo & _ & _ & _ & Hut).
  cbv zeta in *.
  unfold updateTracking. rewrite Hut, Hmt, Hct, Ht, Huo.
  unfold updateManual. cbv zeta. cbn [observerMode set_position].
  destruct (updateVelocity_fields oc) as (Hvm & _ & _ & _ & _ & Hvo & _).
  cbv zeta in *. rewrite Hvm, Hcm, Hm.
  apply updateOrientation_unit. cbn [orientation set_position].
  rewrite Hvo, Hco. exact Hq.
Qed.

(** X8.  [rotate] multiplies the frame-local orientation on the left:
    two rotations in a row are the rotation by the product, for the
    frame-local and for the universal orientation alike; the squared
    norm of the orientation is multiplied by that of the rotation, so a
    unit rotation keeps a unit orientation; and the velocity, the mode,
    the frame and the other members a tick does not write are
    untouched. *)
Theorem rotate_composes (q1 q2 : Quaterniond) (o : Observer) :
  orientation (rotate q1 o) = Quat.mul q1 (orientation o) /\
  orientation (rotate q2 (rotate q1 o)) = orientation (rotate (Quat.mul q2 q1) o) /\
  getOrientation (rotate q2 (rotate q1 o)) = getOrientation (rotate (Quat.mul q2 q1) o) /\
  Quat.squaredNorm (orientation (rotate q1 o)) =
    Quat.squaredNorm q1 * Quat.squaredNorm (orientation o) /\
  getOrientation (rotate q1 o) =
    convertToUniversalQ (ptr_target (frame o)) (Quat.mul q1 (orientation o)) (simTime o) /\
  sameControls o (rotate q1 o) /\ velocity (rotate q1 o) = velocity o /\
  observerMode (rotate q1 o) = observerMode o.
Proof.
  assert (Ho : forall q x, orientation (rotate q x) = Quat.mul q (orientation x)).
  { intros q x. unfold rotate.
    destruct (updateUniversal_frame (set_orientation (Quat.mul q (orientation x)) x))
      as (_ & _ & H & _). rewrite H. reflexivity. }
  assert (Hf : forall q x, frame (rotate q x) = frame x /\ simTime (rotate q x) = simTime x).
  { intros q x. unfold rotate.
    destruct (updateUniversal_frame (set_orientation (Quat.mul q (orientation x)) x))
      as (H1 & H2 & _). rewrite H1, H2. split; reflexivity. }
  assert (Hu : forall q x, getOrientation (rotate q x) =
                 convertToUniversalQ (ptr_target (frame x)) (Quat.mul q (orientation x))
                                     (simTime x)).
  { intros q x. unfold getOrientation.
    pose proof (updateUniversal_spec (set_orientation (Quat.mul q (orientation x)) x))
      as [_ H].
    cbv zeta in H. fold (rotate q x) in H. rewrite H.
    destruct (Hf q x) as [H1 H2]. rewrite H1, H2, Ho. reflexivity. }
  split; [ apply Ho | ].
  split; [ rewrite !Ho, mul_assoc; reflexivity | ].
  split.
  { rewrite !Hu, Ho. destruct (Hf q1 o) as [H1 H2].
    rewrite H1, H2, mul_assoc. reflexivity. }
  split; [ rewrite Ho; apply mul_squaredNorm | ].
  split; [ apply Hu | ].
  unfold rotate.
  destruct (updateUniversal_frame (set_orientation (Quat.mul q1 (orientation o)) o))
    as (_ & _ & _ & Hm & Hv & _).
  rewrite Hm, Hv.
  split; [ | split; reflexivity ].
  unfold updateUniversal, sameControls. cbv zeta.
  destruct (isOutOfBounds _); cbn; repeat split.
Qed.

Lemma halfTurnY : AngleAxisd PI Vec.UnitY = mkQuaterniond 0 0 1 0.
Proof.
  unfold AngleAxisd, Vec.UnitY. cbv zeta. cbn [vx vy vz].
  replace (0.5 * PI) with (PI / 2) by lra.
  rewrite cos_PI2, sin_PI2. f_equal; ring.
Qed.

Lemma rotate_negated (q : Quaterniond) (v : Vector3d) :
  Quat.rotate (Quat.conjugate (negated q)) v = Quat.rotate (Quat.conjugate q) v.
Proof.
  destruct q, v.
  unfold Quat.rotate, Quat.conjugate, negated, Quat.vec, Vec.cross, Vec.add, Vec.scale.
  cbn. f_equal; ring.
Qed.

(** X9.  [reverseOrientation] multiplies the universal orientation on
    the right by the half turn about the y axis, the quaternion
    [(0; 0, 1, 0)], re-encodes it for the frame and flips the reverse
    flag.  Reversing twice restores the flag and gives the universal
    orientation with every coefficient negated, which rotates every
    vector as the original orientation did; the position is never
    touched. *)
Theorem reverseOrientation_twice (o : Observer) :
  let o1 := reverseOrientation o in
  let o2 := reverseOrientation o1 in
  (getOrientation o1 = Quat.mul (getOrientation o) (mkQuaterniond 0 0 1 0) /\
   reverseFlag o1 = negb (reverseFlag o) /\
   orientation o1 =
     convertFromUniversalQ (ptr_target (frame o)) (getOrientation o1) (simTime o)) /\
  (getOrientation o2 = negated (getOrientation o) /\
   reverseFlag o2 = reverseFlag o /\
   (forall v, Quat.rotate (Quat.conjugate (getOrientation o2)) v =
              Quat.rotate (Quat.conjugate (getOrientation o)) v)) /\
  getPosition o2 = getPosition o /\ position o2 = position o /\
  frame o2 = frame o.
Proof.
  cbv zeta. unfold reverseOrientation. cbv zeta. rewrite !halfTurnY.
  unfold setOrientation, getOrientation, getTime. cbn.
  assert (E : Quat.mul (Quat.mul (orientationUniv o) (mkQuaterniond 0 0 1 0))
                       (mkQuaterniond 0 0 1 0) = negated (orientationUniv o)).
  { destruct (orientationUniv o). unfold Quat.mul, negated. cbn. f_equal; ring. }
  rewrite E.
  split; [ repeat split | ].
  split; [ split; [ reflexivity | split; [ apply negb_involutive | ] ] | ].
  - intros v. apply rotate_negated.
  - repeat split.
Qed.

Lemma rotate_unit_squaredNorm (q : Quaterniond) (v : Vector3d) :
  Quat.squaredNorm q = 1 ->
  Vec.squaredNorm (Quat.rotate (Quat.conjugate q) v) = Vec.squaredNorm v.
Proof.
  intros H. rewrite rotate_squaredNorm, conjugate_squaredNorm, H. ring.
Qed.

Lemma norm_rotate_unit (q : Quaterniond) (v : Vector3d) :
  Quat.squaredNorm q = 1 ->
  Vec.norm (Quat.rotate (Quat.conjugate q) v) = Vec.norm v.
Proof.
  intros H. unfold Vec.norm. f_equal. apply rotate_unit_squaredNorm. exact H.
Qed.

Lemma rotate_neg (q : Quaterniond) (v : Vector3d) :
  Quat.rotate q (Vec.neg v) = Vec.neg (Quat.rotate q v).
Proof.
  destruct q, v.
  unfold Quat.rotate, Quat.vec, Vec.cross, Vec.add, Vec.scale, Vec.neg.
  cbn. f_equal; ring.
Qed.

(** X10.  [setTargetSpeed(s)] aims the target velocity along the view
    axis of the heading -- the universal orientation when no object is
    tracked, the stored tracking orientation otherwise -- with the sign
    of [s] flipped when the reverse flag is set.  When the heading is a
    unit quaternion the target velocity has norm [|s|]; the opposite
    speed gives the opposite target velocity.  The call records the
    current velocity as [initialVelocity] and the real time as
    [beginAccelTime], stores the heading as tracking orientation, and
    leaves the velocity, the position, the orientation, the mode and the
    frame alone: the speed changes only in the ticks that follow. *)
Theorem setTargetSpeed_sets_speed (s : R) (o : Observer) :
  let o' := setTargetSpeed s o in
  let heading := if sel_empty (trackObject o)
                 then getOrientation o else trackingOrientation o in
  let signed := if reverseFlag o then - s else s in
  targetVelocity o' =
    Quat.rotate (Quat.conjugate heading) (mkVector3d 0 0 (- signed)) /\
  (Quat.squaredNorm heading = 1 -> Vec.norm (targetVelocity o') = Rabs s) /\
  targetVelocity (setTargetSpeed (- s) o) = Vec.neg (targetVelocity o') /\
  getTargetSpeed o' = s /\ beginAccelTime o' = realTime o /\
  initialVelocity o' = velocity o /\ velocity o' = velocity o /\
  trackingOrientation o' = heading /\
  getPosition o' = getPosition o /\ getOrientation o' = getOrientation o /\
  observerMode o' = observerMode o /\ frame o' = frame o.
Proof.
  cbv zeta. unfold setTargetSpeed. cbv zeta.
  destruct (sel_empty (trackObject o)) eqn:Et; cbn; rewrite ?Et; cbn; rewrite ?Et; cbn;
    unfold getOrientation;
    (split; [ reflexivity | ]);
    (split;
     [ intros Hn; unfold Vec.norm; rewrite (rotate_unit_squaredNorm _ _ Hn);
       replace (Vec.squaredNorm (mkVector3d 0 0 (- (if reverseFlag o then - s else s))))
         with (Rsqr s)
         by (unfold Vec.squaredNorm, Vec.dot, Rsqr; cbn;
             destruct (reverseFlag o); ring);
       apply sqrt_Rsqr_abs
     | ]);
    (split;
     [ rewrite <- rotate_neg; f_equal; unfold Vec.neg; cbn;
       destruct (reverseFlag o); f_equal; ring
     | repeat split ]).
Qed.

End Orientation.

(* ------------------------------------------------------------------ *)
(** ** Frames: conversion, switching, copying and phase lock *)

Section FrameAlgebra.
Context {O : CelestialObjects} {C : Collaborators}.

Lemma convert_through (f g h : ObserverFrame) (t : R) :
  exactFrame g t ->
  (forall uc, convert g h (convert f g uc t) t = convert f h uc t) /\
  (forall q, convertQ g h (convertQ f g q t) t = convertQ f h q t).
Proof.
  intros (Hu & _ & Hq & _). unfold convert, convertQ.
  split; intros x; [ rewrite Hu | rewrite Hq ]; reflexivity.
Qed.

(** X12.  [ObserverFrame::convert] goes through universal coordinates.
    Between frames whose conversions to and from universal coordinates
    are inverse to each other at time [t], conversions compose -- from
    [f] to [g] and on to [h] is the conversion from [f] to [h] -- the
    conversion back undoes the conversion there, and the conversion
    from a frame to itself changes nothing; for positions and for
    orientations. *)
Theorem convert_round_trip (f g h : ObserverFrame) (t : R) :
  exactFrame f t -> exactFrame g t ->
  (forall uc, convert g h (convert f g uc t) t = convert f h uc t) /\
  (forall q, convertQ g h (convertQ f g q t) t = convertQ f h q t) /\
  (forall uc, convert g f (convert f g uc t) t = uc) /\
  (forall q, convertQ g f (convertQ f g q t) t = q) /\
  (forall uc, convert f f uc t = uc) /\ (forall q, convertQ f f q t = q).
Proof.
  intros Hf Hg.
  destruct (convert_through f g h t Hg) as [H1 H2].
  destruct (convert_through f g f t Hg) as [H3 H4].
  destruct Hf as (_ & Hp & _ & Hq).
  assert (H5 : forall uc, convert f f uc t = uc) by (intros; apply Hp).
  assert (H6 : forall q, convertQ f f q t = q) by (intros; apply Hq).
  repeat split; intros; try apply H1; try apply H2; try apply H5; try apply H6.
  - rewrite H3. apply H5.
  - rewrite H4. apply H6.
Qed.

(** X11.  Of two frame switches in a row the last one wins: the
    observer ends in the frame of the second switch with the
    frame-local position and orientation the second switch alone would
    give, at the universal position and orientation it had at the
    start, and agrees with the direct switch in every member but the
    frame-local end points of the journey.  When the conversions of the
    intermediate frame are inverse to each other at the current time,
    the two results are the same observer. *)
Theorem setFrame_last_wins
      (fresh1 fresh2 : nat) (cs1 cs2 : CoordinateSystem)
      (ref1 tgt1 ref2 tgt2 : Selection) (o : Observer) :
  let o1 := setFrame fresh1 cs1 ref1 tgt1 o in
  let o2 := setFrame fresh2 cs2 ref2 tgt2 o1 in
  let direct := setFrame fresh2 cs2 ref2 tgt2 o in
  (frame o2 = frame direct /\ position o2 = position direct /\
   orientation o2 = orientation direct /\
   getPosition o2 = getPosition o /\ getOrientation o2 = getOrientation o /\
   sameOutsideFrame direct o2) /\
  (exactFrame (ObserverFrame_new cs1 ref1 tgt1) (simTime o) -> o2 = direct).
Proof.
  cbv zeta. unfold setFrame, convertFrameCoordinates. cbv zeta. cbn.
  split.
  - unfold sameOutsideFrame, sameJourneyShape. cbn. repeat split.
  - intros (Hu & _ & Hq & _).
    unfold convert, convertQ. cbn. rewrite !Hu, !Hq. reflexivity.
Qed.

Lemma Observer_copy_facts (o : Observer)
      (positionUniv0 : UniversalCoord) (orientationUniv0 : Quaterniond) :
  let c := Observer_copy o positionUniv0 orientationUniv0 in
  let attempt := convertToUniversal (ptr_target (frame o)) (position o) (simTime o) in
  frame c = frame o /\ sameJourneyShape (journey o) (journey c) /\
  journey c = journey o /\
  orientation c = orientation o /\
  getOrientation c =
    convertToUniversalQ (ptr_target (frame o)) (orientation o) (simTime o) /\
  initialVelocity c = Vec.Zero /\
  (if isOutOfBounds attempt
   then getPosition c = positionUniv0 /\
        position c =
          convertFromUniversal (ptr_target (frame o)) positionUniv0 (simTime o)
   else getPosition c = attempt /\ position c = position o) /\
  (isOutOfBounds attempt = false ->
   positionUniv o = attempt ->
   orientationUniv o =
     convertToUniversalQ (ptr_target (frame o)) (orientation o) (simTime o) ->
   initialVelocity o = Vec.Zero ->
   c = o).
Proof.
  cbv zeta. unfold Observer_copy, updateUniversal. cbv zeta.
  cbn [frame position simTime positionUniv ptr_target].
  destruct (isOutOfBounds _) eqn:E; cbn; unfold sameJourneyShape;
    repeat split; try discriminate.
  intros _ Hp Ho Hi. destruct o. cbn in *. subst. reflexivity.
Qed.

(** X13.  The copy constructor stores the frame pointer of the source,
    so the copy shares its frame object, and copies the journey and the
    frame-local orientation as they are; [initialVelocity] is not
    copied and is zero.  The universal position is recomputed from the
    frame-local one: when the result is out of bounds the copy keeps
    the universal position it was constructed with and takes its
    frame-local position from that.  The copy is the source itself when
    the recomputed position is in bounds, the universal mirrors of the
    source are those of its frame-local values and its
    [initialVelocity] is zero.  The assignment operator differs in
    keeping the [initialVelocity] of the observer assigned to. *)
Theorem copy_shares_frame (self o : Observer)
      (positionUniv0 : UniversalCoord) (orientationUniv0 : Quaterniond) :
  let c := Observer_copy o positionUniv0 orientationUniv0 in
  let attempt := convertToUniversal (ptr_target (frame o)) (position o) (simTime o) in
  (frame c = frame o /\ journey c = journey o /\
   orientation c = orientation o /\
   getOrientation c =
     convertToUniversalQ (ptr_target (frame o)) (orientation o) (simTime o) /\
   initialVelocity c = Vec.Zero) /\
  (if isOutOfBounds attempt
   then getPosition c = positionUniv0 /\
        position c =
          convertFromUniversal (ptr_target (frame o)) positionUniv0 (simTime o)
   else getPosition c = attempt /\ position c = position o) /\
  (isOutOfBounds attempt = false ->
   positionUniv o = attempt ->
   orientationUniv o =
     convertToUniversalQ (ptr_target (frame o)) (orientation o) (simTime o) ->
   initialVelocity o = Vec.Zero ->
   c = o) /\
  initialVelocity (Observer_assign self o) = initialVelocity self /\
  (initialVelocity self = Vec.Zero ->
   Observer_assign self o = Observer_copy o (positionUniv self) (orientationUniv self)).
Proof.
  pose proof (Observer_copy_facts o positionUniv0 orientationUniv0) as H.
  cbv zeta in *.
  destruct H as (H1 & _ & H3 & H4 & H5 & H6 & H7 & H8).
  split; [ repeat split; assumption | ].
  split; [ exact H7 | ].
  split; [ exact H8 | ].
  split.
  - unfold Observer_assign, updateUniversal. cbv zeta.
    destruct (isOutOfBounds _); reflexivity.
  - intros H. unfold Observer_assign, Observer_copy. rewrite H. reflexivity.
Qed.

(** X14.  [phaseLock] never changes the reference object of the frame,
    the universal position or orientation, or any member outside the
    frame: it either leaves the observer alone or installs a fresh
    [PhaseLock] frame about the same reference object, whose target is
    the selection when that differs from the reference object.  It does
    nothing when the reference object is neither a body nor a star and
    the selection is another object.  The one call without a result is
    phase lock to the reference object itself when that is a body
    without a planetary system. *)
Theorem phaseLock_keeps_reference (same : forall a b : Selection, {a = b} + {a <> b})
      (fresh : nat) (selection : Selection) (o : Observer) :
  let refObject := getRefObject (ptr_target (frame o)) in
  (phaseLock same fresh selection o = None <->
   selection = refObject /\
   exists b, sel_body selection = Some b /\ body_getSystem b = None) /\
  (forall o', phaseLock same fresh selection o = Some o' ->
     getRefObject (ptr_target (frame o')) = refObject /\
     getPosition o' = getPosition o /\ getOrientation o' = getOrientation o /\
     sameOutsideFrame o o' /\
     (o' = o \/
      (getCoordinateSystem (ptr_target (frame o')) = PhaseLock /\
       ptr_address (frame o') = fresh /\
       (selection <> refObject -> getTargetObject (ptr_target (frame o')) = selection)))) /\
  (sel_body refObject = None -> sel_star refObject = None -> selection <> refObject ->
   phaseLock same fresh selection o = Some o).
Proof.
  cbv zeta. unfold phaseLock. cbv zeta.
  set (refObject := getRefObject (ptr_target (frame o))).
  destruct (same selection refObject) as [E | N].
  - destruct (sel_body selection) as [b | ] eqn:Eb.
    + destruct (body_getSystem b) as [sys | ] eqn:Es.
      * split; [ split; [ discriminate | ] | split ].
        -- intros (_ & b' & Hb' & Hs'). injection Hb' as <-. congruence.
        -- intros o' H. injection H as <-.
           destruct (setFrame_spec fresh PhaseLock selection
                       (Selection_of_star (system_getStar sys)) o) as (Hs & _ & Hf).
           cbv zeta in Hs, Hf.
           split; [ rewrite Hf; cbn; exact E | ].
           split; [ apply Hs | split; [ apply Hs | split; [ exact Hs | ] ] ].
           right. rewrite Hf. cbn. repeat split. intros Hne; contradiction.
        -- intros _ _ Hne; contradiction.
      * split; [ split; [ intros _ | reflexivity ] | split ].
        -- split; [ exact E | exists b; split; [ reflexivity | exact Es ] ].
        -- intros o' H; discriminate.
        -- intros _ _ Hne; contradiction.
    + split; [ split; [ discriminate | ] | split ].
      * intros (_ & b' & Hb' & _). discriminate.
      * intros o' H. injection H as <-.
        repeat split; try apply sameOutsideFrame_refl. left; reflexivity.
      * intros _ _ Hne; contradiction.
  - assert (Hnone : forall x : option Observer,
               x <> None ->
               (x = None <->
                selection = refObject /\
                exists b, sel_body selection = Some b /\ body_getSystem b = None)).
    { intros x Hx. split; [ intros H; contradiction | intros (H & _); contradiction ]. }
    destruct (sel_body refObject) as [b | ] eqn:Eb;
      [ | destruct (sel_star refObject) as [st | ] eqn:Est ].
    1, 2: (split; [ apply Hnone; discriminate | split ];
      [ intros o' H; injection H as <-;
        destruct (setFrame_spec fresh PhaseLock refObject selection o) as (Hs & _ & Hf);
        cbv zeta in Hs, Hf;
        split; [ rewrite Hf; reflexivity | ];
        split; [ apply Hs | split; [ apply Hs | split; [ exact Hs | ] ] ];
        right; rewrite Hf; cbn; repeat split
      | intros; discriminate ]).
    split; [ apply Hnone; discriminate | split ].
    + intros o' H. injection H as <-.
      repeat split; try apply sameOutsideFrame_refl. left; reflexivity.
    + reflexivity.
Qed.

End FrameAlgebra.

(* ------------------------------------------------------------------ *)
(** ** Orbiting and dollying *)

Section OrbitMore.
Context {O : CelestialObjects} {C : Collaborators}.

Lemma conjugation_of_identity (q : Quaterniond) :
  0 < Quat.squaredNorm q ->
  Quat.normalized (Quat.mul (Quat.mul (Quat.conjugate q) Quat.Identity) q)
  = Quat.Identity.
Proof.
  intros H.
  assert (E : Quat.mul (Quat.mul (Quat.conjugate q) Quat.Identity) q
              = mkQuaterniond (Quat.squaredNorm q) 0 0 0).
  { destruct q. unfold Quat.mul, Quat.conjugate, Quat.Identity, Quat.squaredNorm.
    cbn. f_equal; ring. }
  rewrite E. unfold Quat.normalized.
  assert (Hs : Quat.squaredNorm (mkQuaterniond (Quat.squaredNorm q) 0 0 0)
               = Rsqr (Quat.squaredNorm q))
    by (unfold Quat.squaredNorm at 1, Rsqr; cbn; ring).
  unfold Quat.norm. rewrite Hs.
  destruct (Rlt_dec 0 (Rsqr (Quat.squaredNorm q))) as [_ | N].
  - rewrite sqrt_Rsqr by lra. unfold Quat.Identity. cbn. f_equal; field; lra.
  - exfalso. apply N. apply Rsqr_pos_lt. lra.
Qed.

Lemma normalized_rescaled (v : Vector3d) :
  Vec.scale (Vec.normalized v) (Vec.norm v) = v.
Proof.
  unfold Vec.normalized.
  destruct (Rlt_dec 0 (Vec.squaredNorm v)) as [H | H].
  - assert (Hn : 0 < Vec.norm v) by (apply sqrt_lt_R0; exact H).
    destruct v. unfold Vec.scale, Vec.divide. cbn. f_equal; field; lra.
  - assert (Hz : Vec.norm v = 0).
    { unfold Vec.norm. apply sqrt_neg_0. lra. }
    rewrite Hz.
    assert (Hs : Vec.squaredNorm v = 0).
    { pose proof (squaredNorm_nonneg v). lra. }
    destruct v as [a b c]. unfold Vec.squaredNorm, Vec.dot in Hs. cbn in Hs.
    assert (a = 0 /\ b = 0 /\ c = 0) as (-> & -> & ->) by (repeat split; nra).
    unfold Vec.scale. cbn. f_equal; ring.
Qed.

Lemma mul_identity_r (q : Quaterniond) : Quat.mul q Quat.Identity = q.
Proof. destruct q. unfold Quat.mul, Quat.Identity. cbn. f_equal; ring. Qed.

Lemma offsetKm_offsetFromKm (p q : UniversalCoord) :
  UC.offsetKm q (UC.offsetFromKm p q) = p.
Proof. destruct p, q. unfold UC.offsetKm, UC.offsetFromKm. cbn. f_equal; ring. Qed.

(** X15.  Orbiting by the identity rotation moves nothing: when the
    frame has a reference object and the orientation is not the zero
    quaternion, [orbit] with the identity does exactly what a bare
    [updateUniversal] does, so the frame-local position and orientation
    stay as they are.  Without a reference object and without a
    selection [orbit] has no centre and returns the observer
    unchanged, whatever the rotation. *)
Theorem orbit_by_identity (fresh : nat) (selection : Selection) (q : Quaterniond)
      (o : Observer) :
  (sel_empty (getRefObject (ptr_target (frame o))) = false ->
   0 < Quat.squaredNorm (orientation o) ->
   orbit fresh selection Quat.Identity o = updateUniversal o) /\
  (sel_empty (getRefObject (ptr_target (frame o))) = true ->
   orbit fresh Sel_Nil q o = o).
Proof.
  split.
  - intros Hc Hq. unfold orbit, orbitCenter. rewrite Hc. cbn [andb].
    rewrite Hc. cbn [negb]. cbv zeta.
    rewrite (conjugation_of_identity _ Hq), rotate_identity, normalized_rescaled,
      mul_identity_r, offsetKm_offsetFromKm.
    destruct o; reflexivity.
  - intros Hc. unfold orbit, orbitCenter. rewrite Hc. cbn. rewrite Hc. reflexivity.
Qed.

Lemma expLog_scales (r d : R) : 0 <= r -> expLog r d = r * exp d.
Proof.
  intros Hr. unfold expLog.
  destruct (Req_dec_T r 0) as [E | N]; [ rewrite E; ring | ].
  rewrite exp_plus, exp_ln by lra. reflexivity.
Qed.

Lemma dollyDistance_value (size cur d : R) :
  0 < size -> 0 <= cur ->
  let minD := if Rlt_dec cur size then cur * 0.5 else size in
  dollyDistance size cur d = Some (minD + (cur - minD) * exp d).
Proof.
  intros Hs Hc. cbv zeta. unfold dollyDistance. cbv zeta.
  set (minD := if Rlt_dec cur size then cur * 0.5 else size).
  assert (Hm : minD <= cur) by (unfold minD; destruct (Rlt_dec cur size); lra).
  destruct (Rge_dec cur minD) as [_ | N]; [ | lra ].
  destruct (Req_dec_T (4.0 * size) 0) as [E | _]; [ lra | ].
  f_equal. f_equal.
  rewrite expLog_scales.
  - field. lra.
  - unfold Rdiv. apply Rmult_le_pos; [ lra | ].
    left. apply Rinv_0_lt_compat. lra.
Qed.

Lemma dollyDistance_pointlike (cur d : R) : dollyDistance 0 cur d = None.
Proof.
  unfold dollyDistance. cbv zeta.
  destruct (Rge_dec _ _); [ | reflexivity ].
  destruct (Req_dec_T (4.0 * 0) 0) as [_ | N]; [ reflexivity | lra ].
Qed.

Lemma dollyDistance_steps (size cur d1 d2 : R) :
  0 < size -> size <= cur ->
  exists n1,
    dollyDistance size cur d1 = Some n1 /\ size <= n1 /\
    n1 = size + (cur - size) * exp d1 /\
    dollyDistance size n1 d2 = dollyDistance size cur (d1 + d2) /\
    dollyDistance size n1 (- d1) = Some cur /\
    dollyDistance size cur 0 = Some cur.
Proof.
  intros Hs Hc.
  exists (size + (cur - size) * exp d1).
  assert (He : 0 < exp d1) by apply exp_pos.
  assert (Hn : size <= size + (cur - size) * exp d1) by nra.
  assert (V : forall c d, size <= c ->
              dollyDistance size c d = Some (size + (c - size) * exp d)).
  { intros c d H. rewrite dollyDistance_value by lra.
    destruct (Rlt_dec c size); [ lra | reflexivity ]. }
  split; [ apply V; exact Hc | ].
  split; [ exact Hn | ].
  split; [ reflexivity | ].
  rewrite !V by assumption.
  split; [ | split ].
  - rewrite exp_plus. f_equal. ring.
  - f_equal. rewrite exp_Ropp. field. lra.
  - rewrite exp_0. f_equal. ring.
Qed.

(** X17.  From a distance [cur] at or beyond the radius [size > 0] of
    the centre, a dolly by [d] leads to the distance
    [size + (cur - size) * exp d], never inside the radius.  Dolly
    steps add up: a step by [d1] followed by a step by [d2] reaches the
    distance of one step by [d1 + d2]; the step back by [- d1] returns
    to [cur], and a step by [0] stays there.  About a centre of radius
    zero the guard [naturalOrbitDistance != 0] fails and there is no
    new distance at all. *)
Theorem dolly_steps_compose (size cur d1 d2 : R) :
  0 < size -> size <= cur ->
  (exists n1,
    dollyDistance size cur d1 = Some n1 /\ size <= n1 /\
    n1 = size + (cur - size) * exp d1 /\
    dollyDistance size n1 d2 = dollyDistance size cur (d1 + d2) /\
    dollyDistance size n1 (- d1) = Some cur /\
    dollyDistance size cur 0 = Some cur) /\
  dollyDistance 0 cur d1 = None.
Proof.
  intros Hs Hc.
  split; [ exact (dollyDistance_steps size cur d1 d2 Hs Hc) | ].
  apply dollyDistance_pointlike.
Qed.

Lemma orbitCenter_keeps (fresh : nat) (selection : Selection) (o : Observer) :
  getPosition (snd (orbitCenter fresh selection o)) = getPosition o /\
  simTime (snd (orbitCenter fresh selection o)) = simTime o /\
  (sel_empty (getRefObject (ptr_target (frame o))) = false ->
   orbitCenter fresh selection o = (getRefObject (ptr_target (frame o)), o)) /\
  (sel_empty (getRefObject (ptr_target (frame o))) = true ->
   sel_empty selection = false ->
   fst (orbitCenter fresh selection o) = selection /\
   frame (snd (orbitCenter fresh selection o)) =
     mkFramePtr fresh
       (ObserverFrame_new (getCoordinateSystem (ptr_target (frame o))) selection Sel_Nil)) /\
  (sel_empty (getRefObject (ptr_target (frame o))) = true ->
   sel_empty selection = true ->
   orbitCenter fresh selection o = (Sel_Nil, o)).
Proof.
  unfold orbitCenter.
  destruct (sel_empty (getRefObject (ptr_target (frame o)))) eqn:E;
    destruct (sel_empty selection) eqn:Es; cbn;
    repeat split; try discriminate; try reflexivity.
  destruct (getRefObject (ptr_target (frame o))); try discriminate. reflexivity.
Qed.

(** X16.  [changeOrbitDistance] moves the camera along the ray from
    the centre of the orbit through its position.  With a centre of
    positive radius [size], the camera at distance [cur > 0] from it, a
    frame whose conversions are inverse to each other and a
    destination in bounds, the new universal position is at distance
    [minD + (cur - minD) * exp d] from the centre in the same
    direction, where [minD] is [size], or [cur / 2] when the camera is
    already inside the radius.  The new distance is never below
    [minD], hence never below the radius for a camera outside it; it is
    [cur] for [d = 0], at least [cur] for [d >= 0] and at most [cur]
    for [d <= 0].  The simulation time is unchanged.  The frame is the
    one the choice of the centre left: the frame of the observer when
    that has a reference object, and otherwise a fresh frame with the
    same coordinate system about the selection, which the call
    adopts as centre. *)
Theorem changeOrbitDistance_law (fresh : nat) (selection : Selection) (d : R)
      (o : Observer) :
  let center := fst (orbitCenter fresh selection o) in
  let o1 := snd (orbitCenter fresh selection o) in
  let focus := sel_getPosition center (simTime o) in
  let size := sel_radius center in
  let cur := Vec.norm (UC.offsetFromKm (getPosition o) focus) in
  let minD := if Rlt_dec cur size then cur * 0.5 else size in
  let newD := minD + (cur - minD) * exp d in
  sel_empty center = false -> 0 < size -> cur <> 0 ->
  exactFrame (ptr_target (frame o1)) (simTime o) ->
  isOutOfBounds (dollyTarget center newD o1) = false ->
  let o' := changeOrbitDistance fresh selection d o in
  getPosition o' = dollyTarget center newD o1 /\
  UC.offsetFromKm (getPosition o') focus =
    Vec.scale (UC.offsetFromKm (getPosition o) focus) (newD / cur) /\
  Vec.norm (UC.offsetFromKm (getPosition o') focus) = newD /\
  minD <= newD /\ (size <= cur -> size <= newD) /\ (d = 0 -> newD = cur) /\
  (0 <= d -> cur <= newD) /\ (d <= 0 -> newD <= cur) /\
  frame o' = frame o1 /\ simTime o' = simTime o /\
  (sel_empty (getRefObject (ptr_target (frame o))) = false -> frame o' = frame o) /\
  (sel_empty (getRefObject (ptr_target (frame o))) = true ->
   frame o' =
     mkFramePtr fresh
       (ObserverFrame_new (getCoordinateSystem (ptr_target (frame o))) selection
                          Sel_Nil)).
Proof.
  intros center o1 focus size cur minD newD Hne Hsize Hcur Hexact Hin o'.
  destruct (orbitCenter_keeps fresh selection o) as (Hp1 & Hs1 & _).
  fold o1 in Hp1, Hs1.
  assert (Hcpos : 0 < cur).
  { destruct (norm_nonneg (UC.offsetFromKm (getPosition o) focus)) as [H | H];
      [ exact H | exfalso; apply Hcur; symmetry; exact H ]. }
  assert (Ho' : o' = updateUniversal
                       (set_position
                          (convertFromUniversal (ptr_target (frame o1))
                             (dollyTarget center newD o1) (simTime o)) o1)).
  { unfold o', changeOrbitDistance.
    destruct (orbitCenter fresh selection o) as [c x] eqn:Eoc.
    cbn [fst snd] in center, o1. subst center o1.
    rewrite Hne. cbn [negb]. cbv zeta.
    unfold getTime. rewrite Hp1, Hs1.
    fold focus. fold size. fold cur.
    rewrite (dollyDistance_value size cur d Hsize (Rlt_le _ _ Hcpos)).
    cbv zeta. fold minD. fold newD. reflexivity. }
  assert (Hex : 0 < exp d) by apply exp_pos.
  assert (Hmin : minD <= cur /\ 0 < minD).
  { unfold minD. destruct (Rlt_dec cur size); lra. }
  assert (HnewD : minD <= newD) by (unfold newD; nra).
  assert (Htarget : UC.offsetFromKm (dollyTarget center newD o1) focus =
                    Vec.scale (UC.offsetFromKm (getPosition o) focus) (newD / cur)).
  { unfold dollyTarget. cbv zeta. unfold getTime. rewrite Hp1, Hs1.
    fold focus. fold cur. apply offsetFromKm_offsetKm. }
  assert (Hget : getPosition o' = dollyTarget center newD o1).
  { rewrite Ho'. unfold getPosition, updateUniversal. cbv zeta.
    cbn [frame position simTime set_position].
    destruct Hexact as (Hu & _). rewrite Hs1, Hu, Hin. reflexivity. }
  split; [ exact Hget | ].
  split; [ rewrite Hget; exact Htarget | ].
  split.
  { rewrite Hget, Htarget, norm_scale. fold cur.
    rewrite Rabs_right.
    - field. lra.
    - apply Rle_ge. unfold Rdiv. apply Rmult_le_pos; [ lra | ].
      left. apply Rinv_0_lt_compat. exact Hcpos. }
  split; [ exact HnewD | ].
  split.
  { intros Hle. unfold minD in HnewD. destruct (Rlt_dec cur size); lra. }
  split; [ intros ->; unfold newD; rewrite exp_0; ring | ].
  split.
  { intros Hd. assert (1 <= exp d).
    { rewrite <- exp_0. apply exp_monotone. exact Hd. }
    unfold newD. nra. }
  split.
  { intros Hd. assert (exp d <= 1).
    { rewrite <- exp_0. apply exp_monotone. exact Hd. }
    unfold newD. nra. }
  assert (Hfr : frame o' = frame o1 /\ simTime o' = simTime o).
  { rewrite Ho'.
    match goal with |- frame (updateUniversal ?x) = _ /\ _ =>
      destruct (updateUniversal_frame x) as (Hf & Hs & _) end.
    rewrite Hf, Hs. cbn. split; [ reflexivity | exact Hs1 ]. }
  destruct Hfr as [Hfr Hst].
  split; [ exact Hfr | ].
  split; [ exact Hst | ].
  destruct (orbitCenter_keeps fresh selection o) as (_ & _ & Hk3 & Hk4 & Hk5).
  split.
  - intros Hr. rewrite Hfr. unfold o1. rewrite (Hk3 Hr). reflexivity.
  - intros Hr. rewrite Hfr. unfold o1.
    destruct (sel_empty selection) eqn:Es.
    + exfalso. unfold center in Hne. rewrite (Hk5 Hr eq_refl) in Hne.
      cbn in Hne. discriminate.
    + apply (Hk4 Hr eq_refl).
Qed.

End OrbitMore.

(* ------------------------------------------------------------------ *)
(** ** Where the gotos lead *)

Section GotoGeometry.
Context {O : CelestialObjects} {C : Collaborators}.


Lemma offsetFromKm_self (p : UniversalCoord) : UC.offsetFromKm p p = Vec.Zero.
Proof. destruct p. unfold UC.offsetFromKm, Vec.Zero. cbn. f_equal; ring. Qed.

Lemma norm_Zero : Vec.norm Vec.Zero = 0.
Proof.
  unfold Vec.norm.
  replace (Vec.squaredNorm Vec.Zero) with 0
    by (unfold Vec.squaredNorm, Vec.dot, Vec.Zero; cbn; ring).
  apply sqrt_0.
Qed.

Lemma journeyPosition_still (o : Observer) (t : R) :
  traj (journey o) = Linear -> to (journey o) = from (journey o) ->
  journeyPosition o t = from (journey o).
Proof.
  intros Ht Hto. unfold journeyPosition. cbv zeta.
  rewrite Ht, Hto, offsetFromKm_self, norm_Zero.
  destruct (Req_dec_T 0 0) as [_ | N]; [ reflexivity | contradiction N; reflexivity ].
Qed.

Lemma updateJourney_position (o : Observer) :
  position (updateJourney o) =
  let t := journeyProgress (journey o) (realTime o) in
  if Req_dec_T t 1 then
    match traj (journey o) with
    | CircularOrbit => journeyPosition o t
    | _ => to (journey o)
    end
  else journeyPosition o t.
Proof.
  unfold updateJourney. cbv zeta.
  destruct (Req_dec_T _ 1); [ destruct (traj (journey o)) | ]; reflexivity.
Qed.

Lemma computeCenterParameters_journey (destination : Selection) (centerTime : R)
      (o : Observer) :
  let o' := computeCenterParameters destination centerTime o in
  let j := journey o' in
  frame o' = frame o /\ getPosition o' = getPosition o /\ position o' = position o /\
  realTime o' = realTime o /\
  to j = convertFromUniversal (ptr_target (frame o)) (getPosition o) (simTime o) /\
  from j = convertFromUniversal (ptr_target (frame o)) (getPosition o) (simTime o) /\
  traj j = Linear /\ duration j = centerTime /\ startTime j = realTime o /\
  startInterpolation j = 0 /\ endInterpolation j = 1.
Proof.
  cbv zeta. unfold computeCenterParameters, journeyToFrameCoordinates. cbv zeta.
  repeat split.
Qed.

(** X18.  Centring a non-empty selection turns the observer in place:
    [centerSelection] starts a Linear journey of the requested
    duration, beginning now, whose two end points are both the current
    position expressed in the current frame, which it keeps.  The
    position of that journey is the starting point at every progress
    value, so the journey block of a tick leaves the observer where the
    journey began; only the orientation is interpolated, over the whole
    of the journey. *)
Theorem centerSelection_turns_in_place (selection : Selection) (centerTime : R) (o : Observer) :
  sel_empty selection = false ->
  let o' := centerSelection selection centerTime o in
  let j := journey o' in
  observerMode o' = Travelling /\ frame o' = frame o /\
  getPosition o' = getPosition o /\ position o' = position o /\
  to j = from j /\
  from j = convertFromUniversal (ptr_target (frame o)) (getPosition o) (simTime o) /\
  traj j = Linear /\ duration j = centerTime /\ startTime j = realTime o /\
  startInterpolation j = 0 /\ endInterpolation j = 1 /\
  (forall t, journeyPosition o' t = from j) /\
  position (updateJourney o') = from j.
Proof.
  intros Hne. cbv zeta.
  destruct (computeCenterParameters_journey selection centerTime o)
    as (Hf & Hg & Hp & Hr & Hto & Hfrom & Htraj & Hd & Hs & Hsi & Hei).
  cbv zeta in *.
  assert (E : centerSelection selection centerTime o =
              set_observerMode Travelling
                (computeCenterParameters selection centerTime o)).
  { unfold centerSelection. rewrite Hne. reflexivity. }
  rewrite E. clear E.
  set (oc := computeCenterParameters selection centerTime o) in *.
  assert (Hj : journey (set_observerMode Travelling oc) = journey oc) by reflexivity.
  assert (Hstill : forall t, journeyPosition (set_observerMode Travelling oc) t
                             = from (journey oc)).
  { intros t.
    rewrite <- Hj. apply journeyPosition_still; rewrite Hj; congruence. }
  rewrite Hj.
  split; [ reflexivity | ].
  split; [ exact Hf | split; [ exact Hg | split; [ exact Hp | ] ] ].
  split; [ congruence | ].
  split; [ exact Hfrom | ].
  split; [ exact Htraj | split; [ exact Hd | split; [ exact Hs | ] ] ].
  split; [ exact Hsi | split; [ exact Hei | ] ].
  split; [ exact Hstill | ].
  rewrite updateJourney_position. cbv zeta. rewrite Hj, Htraj.
  destruct (Req_dec_T _ 1); [ congruence | apply Hstill ].
Qed.

(** X19.  [gotoSurface] starts a journey in the current frame from the
    current frame-local position and orientation to the point
    [1.0001] radii along the direction of the body-fixed position of
    the observer.  When the observer is not at the centre of the body
    the destination is at [1.0001] times the radius from the origin,
    just above the surface; at the centre the direction normalises to
    the zero vector and the destination is the origin itself.  The
    journey keeps the frame it was started in. *)
Theorem gotoSurface_height (sel : Selection) (duration_ : R) (o : Observer) :
  let o' := gotoSurface sel duration_ o in
  let j := journey o' in
  let bfPos :=
    UC.offsetFromKm
      (convertFromUniversal (ObserverFrame_new BodyFixed sel Sel_Nil)
         (positionUniv o) (simTime o)) UC.Zero in
  observerMode o' = Travelling /\ frame o' = frame o /\
  from j = position o /\ initialOrientation j = orientation o /\
  duration j = duration_ /\ startTime j = realTime o /\
  to j = UC.offsetKm UC.Zero
           (Vec.scale (Vec.normalized bfPos) (1.0001 * sel_radius sel)) /\
  (0 < Vec.squaredNorm bfPos -> 0 <= sel_radius sel ->
   Vec.norm (UC.offsetFromKm (to j) UC.Zero) = 1.0001 * sel_radius sel) /\
  (bfPos = Vec.Zero -> to j = UC.Zero).
Proof.
  cbv zeta. unfold gotoSurface, gotoLocation. cbv zeta. cbn.
  repeat split.
  - intros Hpos Hr. unfold getTime.
    rewrite offsetFromKm_offsetKm, norm_scale, norm_normalized by exact Hpos.
    rewrite Rabs_right by lra. ring.
  - unfold getTime. intros ->.
    unfold Vec.normalized.
    destruct (Rlt_dec 0 (Vec.squaredNorm Vec.Zero)) as [H | _].
    + exfalso. unfold Vec.squaredNorm, Vec.dot, Vec.Zero in H. cbn in H. lra.
    + unfold UC.offsetKm, Vec.scale, UC.Zero, Vec.Zero. cbn. f_equal; ring.
Qed.

Lemma minR_comm (a b : R) : minR a b = minR b a.
Proof. unfold minR. destruct (Rlt_dec b a); destruct (Rlt_dec a b); lra. Qed.

Lemma maxR_comm (a b : R) : maxR a b = maxR b a.
Proof. unfold maxR. destruct (Rlt_dec b a); destruct (Rlt_dec a b); lra. Qed.

Lemma minR_le_maxR (a b : R) : minR a b <= maxR a b.
Proof. unfold minR, maxR. destruct (Rlt_dec b a); destruct (Rlt_dec a b); lra. Qed.

Lemma computeGotoParameters_window
      (fresh : nat) (destination : Selection)
      (gotoTime startInter endInter accelTime_ : R)
      (offset : Vector3d) (offsetCoordSys : CoordinateSystem)
      (up : Vector3d) (upCoordSys : CoordinateSystem) (o : Observer) :
  let o' := computeGotoParameters fresh destination gotoTime startInter endInter
              accelTime_ offset offsetCoordSys up upCoordSys o in
  startInterpolation (journey o') = minR startInter endInter /\
  endInterpolation (journey o') = maxR startInter endInter.
Proof.
  unfold computeGotoParameters, getCoordinateSystem.
  destruct (coordSys (ptr_target (frame o))); destruct offsetCoordSys; cbn;
    split; reflexivity.
Qed.

(** X21.  The interpolation window of a direct goto is ordered by the
    code: [startInterpolation] is the smaller and [endInterpolation]
    the larger of the two values passed, so swapping the two arguments
    gives the same observer, and the window of the journey always
    starts no later than it ends. *)
Theorem goto_window_order
      (fresh : nat) (selection : Selection)
      (gotoTime startInter endInter accelTime_ : R)
      (up : Vector3d) (upFrame : CoordinateSystem) (o : Observer) :
  let o' := gotoSelection_inter fresh selection gotoTime startInter endInter
              accelTime_ up upFrame o in
  gotoSelection_inter fresh selection gotoTime endInter startInter
    accelTime_ up upFrame o = o' /\
  (sel_empty selection = false ->
   startInterpolation (journey o') = minR startInter endInter /\
   endInterpolation (journey o') = maxR startInter endInter /\
   startInterpolation (journey o') <= endInterpolation (journey o')).
Proof.
  cbv zeta. split.
  - unfold gotoSelection_inter. destruct (sel_empty selection); cbn [negb];
      [ reflexivity | ].
    unfold computeGotoParameters.
    rewrite (minR_comm endInter startInter), (maxR_comm endInter startInter).
    reflexivity.
  - intros Hne. unfold gotoSelection_inter. rewrite Hne. cbn [negb].
    cbn [journey set_observerMode].
    match goal with
    | |- context [computeGotoParameters ?a ?b ?c ?d ?e ?f ?g ?h ?i ?j ?k] =>
        destruct (computeGotoParameters_window a b c d e f g h i j k) as [H1 H2]
    end.
    cbv zeta in H1, H2. rewrite H1, H2.
    repeat split. apply minR_le_maxR.
Qed.

Lemma minR_monotone (a a' b : R) : a <= a' -> minR a b <= minR a' b.
Proof. intros H. unfold minR. destruct (Rlt_dec b a); destruct (Rlt_dec b a'); lra. Qed.

Lemma maxR_monotone (a a' b : R) : a <= a' -> maxR a b <= maxR a' b.
Proof. intros H. unfold maxR. destruct (Rlt_dec a b); destruct (Rlt_dec a' b); lra. Qed.

Lemma minR_upper (a b : R) : minR a b <= b.
Proof. unfold minR. destruct (Rlt_dec b a); lra. Qed.

(** X22.  The orbit distance is the preferred distance capped at one
    tenth of the current distance, raised to [1.01] radii.  It never
    exceeds the larger of the preferred distance and [1.01] radii, and
    it grows with the current distance: starting further away never
    ends nearer. *)
Theorem orbit_distance_range (selection : Selection) (cur later : R) :
  let preferred := getPreferredDistance selection in
  let floor := 1.01 * sel_radius selection in
  getOrbitDistance selection cur = maxR (minR (cur * 0.1) preferred) floor /\
  floor <= getOrbitDistance selection cur /\
  getOrbitDistance selection cur <= maxR preferred floor /\
  (cur <= later -> getOrbitDistance selection cur <= getOrbitDistance selection later).
Proof.
  cbv zeta.
  assert (E : forall c, getOrbitDistance selection c =
                        maxR (minR (c * 0.1) (getPreferredDistance selection))
                             (1.01 * sel_radius selection)).
  { intros c. unfold getOrbitDistance. cbv zeta. f_equal. unfold minR.
    destruct (Rlt_dec (getPreferredDistance selection * 10.0) c);
      destruct (Rlt_dec (getPreferredDistance selection) (c * 0.1)); lra. }
  split; [ apply E | ].
  split; [ apply maxR_lower | ].
  split.
  - rewrite E. apply maxR_monotone, minR_upper.
  - intros H. rewrite !E. apply maxR_monotone, minR_monotone. lra.
Qed.



Lemma spherical_unit (theta phi : R) :
  Vec.norm (mkVector3d (cos theta * sin phi) (cos phi) (- sin theta * sin phi)) = 1.
Proof.
  unfold Vec.norm.
  replace (Vec.squaredNorm
             (mkVector3d (cos theta * sin phi) (cos phi) (- sin theta * sin phi)))
    with 1.
  - apply sqrt_1.
  - unfold Vec.squaredNorm, Vec.dot. cbn [vx vy vz].
    pose proof (sin2_cos2 theta) as H1. pose proof (sin2_cos2 phi) as H2.
    unfold Rsqr in H1, H2. nra.
Qed.

Lemma computeGotoParameters_to_frame
      (fresh : nat) (destination : Selection)
      (gotoTime startInter endInter accelTime_ : R)
      (offset : Vector3d) (offsetCoordSys : CoordinateSystem)
      (up : Vector3d) (upCoordSys : CoordinateSystem)
      (o : Observer) :
  offsetCoordSys <> ObserverLocal ->
  let o' := computeGotoParameters fresh destination gotoTime startInter endInter
              accelTime_ offset offsetCoordSys up upCoordSys o in
  to (journey o') =
    convertFromUniversal (ptr_target (frame o'))
      (UC.offsetKm (sel_getPosition destination (simTime o))
         (Quat.rotate
            (Quat.conjugate
               (rf_getOrientation (createFrame offsetCoordSys destination Sel_Nil)
                                  (simTime o)))
            offset))
      (simTime o).
Proof.
  intros Hne.
  unfold computeGotoParameters, getCoordinateSystem.
  destruct (coordSys (ptr_target (frame o))); destruct offsetCoordSys;
    try (contradiction Hne; reflexivity); cbn; reflexivity.
Qed.

Lemma computeGotoParametersGC_to_frame
      (fresh : nat) (destination : Selection) (gotoTime : R)
      (offset : Vector3d) (offsetCoordSys : CoordinateSystem)
      (up : Vector3d) (upCoordSys : CoordinateSystem)
      (centerObj : Selection) (o : Observer) :
  let o' := computeGotoParametersGC fresh destination gotoTime offset offsetCoordSys
              up upCoordSys centerObj o in
  to (journey o') =
    convertFromUniversal (ptr_target (frame o'))
      (UC.offsetKm (sel_getPosition destination (simTime o))
         (Quat.rotate
            (Quat.conjugate
               (rf_getOrientation (createFrame offsetCoordSys destination Sel_Nil)
                                  (simTime o)))
            offset))
      (simTime o) /\
  centerObject (journey o') = centerObj /\ traj (journey o') = GreatCircle.
Proof.
  unfold computeGotoParametersGC, getCoordinateSystem. cbn. repeat split.
Qed.

Lemma travelling_journey (x : Observer) :
  journey (set_observerMode Travelling x) = journey x.
Proof. reflexivity. Qed.

Lemma travelling_frame (x : Observer) :
  frame (set_observerMode Travelling x) = frame x.
Proof. reflexivity. Qed.

Lemma arrival_point_distance (target : UniversalCoord) (axes : Quaterniond)
      (dir : Vector3d) (distance : R) :
  Quat.squaredNorm axes = 1 -> Vec.norm dir = 1 ->
  Vec.norm
    (UC.offsetFromKm
       (UC.offsetKm target
          (Quat.rotate (Quat.conjugate axes) (Vec.scale dir distance)))
       target) = Rabs distance.
Proof.
  intros Hu Hd.
  rewrite offsetFromKm_offsetKm, norm_rotate_unit by exact Hu.
  rewrite norm_scale, Hd. ring.
Qed.

Lemma longlat_destination
      (fresh : nat) (selection : Selection)
      (gotoTime distance longitude latitude : R)
      (up : Vector3d) (o : Observer) :
  sel_empty selection = false ->
  to (journey (gotoSelectionLongLat fresh selection gotoTime distance longitude
                 latitude up o)) =
  convertFromUniversal
    (ptr_target (frame (gotoSelectionLongLat fresh selection gotoTime distance
                          longitude latitude up o)))
    (UC.offsetKm (sel_getPosition selection (simTime o))
       (Quat.rotate
          (Quat.conjugate
             (rf_getOrientation (BodyFixedFrame selection selection) (simTime o)))
          (Vec.scale
             (mkVector3d (cos longitude * sin (- latitude + PI / 2.0))
                         (cos (- latitude + PI / 2.0))
                         (- sin longitude * sin (- latitude + PI / 2.0)))
             distance)))
    (simTime o).
Proof.
  intros Hne. unfold gotoSelectionLongLat. rewrite Hne. cbn [negb]. cbv zeta.
  rewrite travelling_journey, travelling_frame.
  match goal with
  | |- context [computeGotoParameters ?a ?b ?c ?d ?e ?f ?g ?h ?i ?j ?k] =>
      pose proof (computeGotoParameters_to_frame a b c d e f g h i j k) as H1
  end.
  cbv zeta in H1. cbn [createFrame] in H1. apply H1. discriminate.
Qed.

Lemma distance_destination
      (fresh : nat) (selection : Selection) (gotoTime distance : R)
      (up : Vector3d) (upFrame : CoordinateSystem) (o : Observer) :
  sel_empty selection = false ->
  to (journey (gotoSelection_distance fresh selection gotoTime distance up upFrame o)) =
  convertFromUniversal
    (ptr_target (frame (gotoSelection_distance fresh selection gotoTime distance
                          up upFrame o)))
    (UC.offsetKm (sel_getPosition selection (simTime o))
       (Quat.rotate
          (Quat.conjugate (rf_getOrientation (J2000EclipticFrame Sel_Nil) (simTime o)))
          (Vec.scale
             (Vec.normalized
                (UC.offsetFromKm (sel_getPosition selection (simTime o))
                                 (getPosition o)))
             (- distance))))
    (simTime o).
Proof.
  intros Hne. unfold gotoSelection_distance. rewrite Hne. cbn [negb]. cbv zeta.
  rewrite travelling_journey, travelling_frame. unfold getTime.
  match goal with
  | |- context [computeGotoParameters ?a ?b ?c ?d ?e ?f ?g ?h ?i ?j ?k] =>
      pose proof (computeGotoParameters_to_frame a b c d e f g h i j k) as H1
  end.
  cbv zeta in H1. cbn [createFrame] in H1. apply H1. discriminate.
Qed.

Lemma distanceGC_destination
      (fresh : nat) (selection : Selection) (gotoTime distance : R)
      (up : Vector3d) (upFrame : CoordinateSystem) (o : Observer) :
  sel_empty selection = false ->
  to (journey (gotoSelectionGC_distance fresh selection gotoTime distance up upFrame o)) =
  convertFromUniversal
    (ptr_target (frame (gotoSelectionGC_distance fresh selection gotoTime distance
                          up upFrame o)))
    (UC.offsetKm (sel_getPosition selection (simTime o))
       (Quat.rotate
          (Quat.conjugate (rf_getOrientation (J2000EclipticFrame Sel_Nil) (simTime o)))
          (Vec.scale
             (Vec.normalized
                (UC.offsetFromKm (sel_getPosition selection (simTime o))
                                 (sel_getPosition (sel_parent selection) (simTime o))))
             (- distance))))
    (simTime o) /\
  centerObject
    (journey (gotoSelectionGC_distance fresh selection gotoTime distance up upFrame o))
  = sel_parent selection.
Proof.
  intros Hne. unfold gotoSelectionGC_distance. rewrite Hne. cbn [negb]. cbv zeta.
  rewrite travelling_journey, travelling_frame. unfold getTime.
  match goal with
  | |- context [computeGotoParametersGC ?a ?b ?c ?d ?e ?f ?g ?h ?i] =>
      destruct (computeGotoParametersGC_to_frame a b c d e f g h i) as (H1 & H2 & _)
  end.
  cbv zeta in H1, H2. cbn [createFrame] in H1.
  split; [ exact H1 | exact H2 ].
Qed.


Lemma normalized_opposite (a b : UniversalCoord) (d : R) :
  Vec.scale (Vec.normalized (UC.offsetFromKm a b)) (- d) =
  Vec.scale (Vec.normalized (UC.offsetFromKm b a)) d.
Proof.
  assert (E : UC.offsetFromKm b a = Vec.neg (UC.offsetFromKm a b)).
  { destruct a, b. unfold UC.offsetFromKm, Vec.neg. cbn. f_equal; ring. }
  rewrite E. set (v := UC.offsetFromKm a b).
  unfold Vec.normalized. rewrite norm_neg.
  replace (Vec.squaredNorm (Vec.neg v)) with (Vec.squaredNorm v)
    by (unfold Vec.squaredNorm, Vec.dot, Vec.neg; cbn; ring).
  destruct (Rlt_dec 0 (Vec.squaredNorm v)); destruct v;
    unfold Vec.scale, Vec.divide, Vec.neg, Rdiv; cbn; f_equal; ring.
Qed.

Lemma arrival_point_offset (target : UniversalCoord) (v : Vector3d) :
  UC.offsetFromKm (UC.offsetKm target (Quat.rotate (Quat.conjugate Quat.Identity) v))
                  target = v.
Proof. rewrite offsetFromKm_offsetKm. apply rotate_identity. Qed.

(** X20.  The gotos with an explicit distance aim at a point at that
    distance from the selection.  For a non-empty selection,
    [journey.to] of [gotoSelectionLongLat] is the frame-local form of
    the point reached from the position of the selection by the unit
    vector of the given longitude and latitude, scaled by [distance]
    and taken through the body-fixed axes of the selection.  That of
    [gotoSelection] with a distance is reached by the unit vector from
    the observer to the selection scaled by [- distance], and that of
    [gotoSelectionGC] with a distance by the unit vector from the
    parent to the selection scaled by [- distance], both through the
    ecliptic axes; the great-circle journey moreover goes about the
    parent.  With identity axes the first of these two points
    therefore lies [distance] from the selection on the side of the
    observer, and the second [distance] from the selection on the side
    of its parent, not beyond the selection as seen from the parent.
    Whenever the axes are a unit quaternion and the direction is not
    the zero vector, each of the three points is at [|distance|] from
    the selection. *)
Theorem explicit_distance_goto
      (fresh : nat) (selection : Selection)
      (gotoTime distance longitude latitude : R)
      (up : Vector3d) (upFrame : CoordinateSystem) (o : Observer) :
  sel_empty selection = false ->
  let target := sel_getPosition selection (simTime o) in
  let parentPos := sel_getPosition (sel_parent selection) (simTime o) in
  let bodyAxes := rf_getOrientation (BodyFixedFrame selection selection) (simTime o) in
  let eclipticAxes := rf_getOrientation (J2000EclipticFrame Sel_Nil) (simTime o) in
  let phi := - latitude + PI / 2.0 in
  let spot := mkVector3d (cos longitude * sin phi) (cos phi) (- sin longitude * sin phi) in
  let back := Vec.normalized (UC.offsetFromKm target (getPosition o)) in
  let outward := Vec.normalized (UC.offsetFromKm target parentPos) in
  let arrival axes dir d :=
    UC.offsetKm target (Quat.rotate (Quat.conjugate axes) (Vec.scale dir d)) in
  let o1 := gotoSelectionLongLat fresh selection gotoTime distance longitude latitude
              up o in
  let o2 := gotoSelection_distance fresh selection gotoTime distance up upFrame o in
  let o3 := gotoSelectionGC_distance fresh selection gotoTime distance up upFrame o in
  (to (journey o1) =
     convertFromUniversal (ptr_target (frame o1)) (arrival bodyAxes spot distance)
                          (simTime o) /\
   (Quat.squaredNorm bodyAxes = 1 ->
    Vec.norm (UC.offsetFromKm (arrival bodyAxes spot distance) target) = Rabs distance)) /\
  (to (journey o2) =
     convertFromUniversal (ptr_target (frame o2)) (arrival eclipticAxes back (- distance))
                          (simTime o) /\
   (Quat.squaredNorm eclipticAxes = 1 ->
    0 < Vec.squaredNorm (UC.offsetFromKm target (getPosition o)) ->
    Vec.norm (UC.offsetFromKm (arrival eclipticAxes back (- distance)) target)
    = Rabs distance) /\
   (eclipticAxes = Quat.Identity ->
    UC.offsetFromKm (arrival eclipticAxes back (- distance)) target =
    Vec.scale (Vec.normalized (UC.offsetFromKm (getPosition o) target)) distance)) /\
  (to (journey o3) =
     convertFromUniversal (ptr_target (frame o3))
                          (arrival eclipticAxes outward (- distance)) (simTime o) /\
   centerObject (journey o3) = sel_parent selection /\
   (Quat.squaredNorm eclipticAxes = 1 ->
    0 < Vec.squaredNorm (UC.offsetFromKm target parentPos) ->
    Vec.norm (UC.offsetFromKm (arrival eclipticAxes outward (- distance)) target)
    = Rabs distance) /\
   (eclipticAxes = Quat.Identity ->
    UC.offsetFromKm (arrival eclipticAxes outward (- distance)) target =
    Vec.scale (Vec.normalized (UC.offsetFromKm parentPos target)) distance)).
Proof.
  intros Hne. cbv zeta.
  pose proof (longlat_destination fresh selection gotoTime distance longitude latitude
                up o Hne) as H1.
  pose proof (distance_destination fresh selection gotoTime distance up upFrame o Hne)
    as H2.
  destruct (distanceGC_destination fresh selection gotoTime distance up upFrame o Hne)
    as [H3 H4].
  split; [ split; [ exact H1 | ] | split; [ split; [ exact H2 | split ] | ] ].
  - intros Hu. apply arrival_point_distance; [ exact Hu | apply spherical_unit ].
  - intros Hu Hpos. rewrite arrival_point_distance, Rabs_Ropp;
      [ reflexivity | exact Hu | apply norm_normalized; exact Hpos ].
  - intros ->. rewrite arrival_point_offset. apply normalized_opposite.
  - split; [ exact H3 | split; [ exact H4 | split ] ].
    + intros Hu Hpos. rewrite arrival_point_distance, Rabs_Ropp;
        [ reflexivity | exact Hu | apply norm_normalized; exact Hpos ].
    + intros ->. rewrite arrival_point_offset. apply normalized_opposite.
Qed.

End GotoGeometry.

(* ------------------------------------------------------------------ *)
(** ** Preferred distances *)

Section Preferred.
Context {O : CelestialObjects}.

Lemma maxR_upper_l (a b : R) : a <= maxR a b.
Proof. unfold maxR. destruct (Rlt_dec a b); lra. Qed.

(** X23.  The preferred distance of a location is fifty times its
    size, capped by the preferred distance of its parent body and
    raised to one kilometre: it is never below 1 km and never above the
    larger of 1 km and either of the two.  It is fifty sizes when that
    lies between 1 km and the distance of the parent, the distance of
    the parent when that is the smaller (and at least 1 km), and 1 km
    for a location without a parent body. *)
Theorem location_preferred_range (l : Location) :
  let d := getPreferredDistance (Sel_Location l) in
  let parentD := getPreferredDistance (Selection_of_body (location_getParentBody l)) in
  let wanted := location_getSize l * 50 in
  1 <= d /\ d <= maxR parentD 1 /\ d <= maxR wanted 1 /\
  (1 <= wanted <= parentD -> d = wanted) /\
  (parentD <= wanted -> 1 <= parentD -> d = parentD) /\
  (location_getParentBody l = None -> d = 1).
Proof.
  cbv zeta.
  assert (E : getPreferredDistance (Sel_Location l) =
              maxR (minR (location_getSize l * 50.0)
                      (getPreferredDistance (Selection_of_body (location_getParentBody l))))
                   1.0).
  { unfold getPreferredDistance. destruct (location_getParentBody l); reflexivity. }
  rewrite E.
  set (p := getPreferredDistance (Selection_of_body (location_getParentBody l))).
  assert (Hn : location_getParentBody l = None -> p = 1).
  { intros H. unfold p. rewrite H. cbn. lra. }
  unfold maxR, minR.
  repeat split; intros;
    try (rewrite (Hn ltac:(assumption)));
    repeat match goal with
           | |- context [Rlt_dec ?a ?b] =>
               lazymatch a with
               | context [Rlt_dec] => fail
               | _ => lazymatch b with
                      | context [Rlt_dec] => fail
                      | _ => destruct (Rlt_dec a b)
                      end
               end
           end; lra.
Qed.

Lemma widest_fold (stars : list Star) (acc : R) :
  acc <= fold_left widest stars acc /\
  (forall s' r, In s' stars -> star_orbitBoundingRadius s' = Some r ->
                r <= fold_left widest stars acc).
Proof.
  revert acc. induction stars as [ | s stars IH]; intros acc; cbn [fold_left].
  - split; [ lra | intros s' r [] ].
  - destruct (IH (widest acc s)) as [H1 H2].
    assert (Ha : acc <= widest acc s).
    { unfold widest. destruct (star_orbitBoundingRadius s); [ apply maxR_upper_l | lra ]. }
    split; [ lra | ].
    intros s' r [-> | Hin] Hr.
    + assert (r <= widest acc s') by (unfold widest; rewrite Hr; apply maxR_lower).
      lra.
    + apply (H2 s' r Hin Hr).
Qed.

(** X24.  The preferred distance of an invisible star -- the
    barycentre of a multiple system -- covers the orbits of its stars:
    it is at least five times the bounding radius of the orbit of every
    star that orbits it.  A barycentre without a list of orbiting stars,
    or with an empty one, gets one astronomical unit. *)
Theorem barycentre_covers_orbits (s : Star) :
  star_getVisibility s = false ->
  (forall stars s' r,
      star_getOrbitingStars s = Some stars ->
      In s' stars -> star_orbitBoundingRadius s' = Some r -> 0 < r ->
      5 * r <= getPreferredDistance (Sel_Star s)) /\
  (star_getOrbitingStars s = None ->
   getPreferredDistance (Sel_Star s) = AUtoKilometers 1) /\
  (star_getOrbitingStars s = Some [] ->
   getPreferredDistance (Sel_Star s) = AUtoKilometers 1).
Proof.
  intros Hv.
  unfold getPreferredDistance, getPreferredDistance_star. rewrite Hv. cbv zeta.
  split; [ | split ].
  - intros stars s' r Hs Hin Hr Hpos. rewrite Hs.
    change (fun (r0 : R) (s'0 : Star) =>
              match star_orbitBoundingRadius s'0 with
              | Some bounding => maxR r0 bounding
              | None => r0
              end) with widest.
    destruct (widest_fold stars 0.0) as [_ H].
    specialize (H s' r Hin Hr).
    destruct (Req_dec_T (fold_left widest stars 0.0) 0.0); lra.
  - intros ->. destruct (Req_dec_T 0.0 0.0) as [_ | N]; [ f_equal; lra | lra ].
  - intros ->. cbn [fold_left].
    destruct (Req_dec_T 0.0 0.0) as [_ | N]; [ f_equal; lra | lra ].
Qed.

End Preferred.

(* ------------------------------------------------------------------ *)
(** ** Pick rays and the longitude and latitude of the observer *)

Section PickRays.
Context {O : CelestialObjects} {C : Collaborators}.

Lemma hypot_nonneg (x y : R) : 0 <= hypot x y.
Proof. apply sqrt_pos. Qed.

Lemma hypot_sqr (x y : R) : hypot x y * hypot x y = x * x + y * y.
Proof. unfold hypot. apply sqrt_sqrt. nra. Qed.

Lemma hypot_pos (x y : R) : x <> 0 \/ y <> 0 -> 0 < hypot x y.
Proof.
  intros H. unfold hypot. apply sqrt_lt_R0.
  destruct H as [H | H]; nra.
Qed.

Lemma hypot_zero : hypot 0 0 = 0.
Proof. unfold hypot. replace (0 * 0 + 0 * 0) with 0 by ring. apply sqrt_0. Qed.

(** sqrt (1 + (y/x)^2) = hypot x y / |x| *)
Lemma sqrt_slope (x y : R) :
  x <> 0 -> sqrt (1 + (y / x)²) = hypot x y / Rabs x.
Proof.
  intros Hx.
  assert (Ha : 0 < Rabs x) by (apply Rabs_pos_lt; exact Hx).
  apply sqrt_lem_1.
  - unfold Rsqr. assert (0 <= y / x * (y / x)) by nra. lra.
  - unfold Rdiv. apply Rmult_le_pos; [ apply hypot_nonneg | ].
    left. apply Rinv_0_lt_compat. exact Ha.
  - replace (hypot x y / Rabs x * (hypot x y / Rabs x))
      with (hypot x y * hypot x y / (Rabs x * Rabs x)) by (field; lra).
    rewrite hypot_sqr.
    replace (Rabs x * Rabs x) with (x * x).
    + unfold Rsqr. field. exact Hx.
    + unfold Rabs. destruct (Rcase_abs x); ring.
Qed.

Lemma atan2_direction (x y : R) :
  x <> 0 \/ y <> 0 ->
  cos (atan2 y x) = x / hypot x y /\ sin (atan2 y x) = y / hypot x y.
Proof.
  intros Hxy.
  pose proof (hypot_pos x y Hxy) as Hr.
  unfold atan2.
  destruct (Rlt_dec 0 x) as [Hpos | Hnpos].
  - rewrite cos_atan, sin_atan, sqrt_slope by lra.
    rewrite Rabs_right by lra. split; field; lra.
  - destruct (Rlt_dec x 0) as [Hneg | Hnneg].
    + assert (Hc : cos (atan (y / x)) = - x / hypot x y).
      { rewrite cos_atan, sqrt_slope by lra.
        rewrite Rabs_left by lra. field; lra. }
      assert (Hs : sin (atan (y / x)) = - y / hypot x y).
      { rewrite sin_atan, sqrt_slope by lra.
        rewrite Rabs_left by lra. field; lra. }
      destruct (Rle_dec 0 y).
      * rewrite neg_cos, neg_sin, Hc, Hs. split; field; lra.
      * unfold Rminus. rewrite cos_plus, sin_plus, cos_neg, sin_neg, cos_PI, sin_PI, Hc, Hs.
        split; field; lra.
    + assert (Hx : x = 0) by lra. subst x.
      assert (Hy : y <> 0) by (destruct Hxy; [ lra | assumption ]).
      assert (Hh : hypot 0 y = Rabs y).
      { unfold hypot. replace (0 * 0 + y * y) with (Rsqr y) by (unfold Rsqr; ring).
        apply sqrt_Rsqr_abs. }
      rewrite Hh.
      destruct (Rlt_dec 0 y).
      * rewrite cos_PI2, sin_PI2, Rabs_right by lra. split; field; lra.
      * destruct (Rlt_dec y 0); [ | lra ].
        rewrite cos_neg, sin_neg, cos_PI2, sin_PI2, Rabs_left by lra.
        split; field; lra.
Qed.

Lemma atan2_origin : atan2 0 0 = 0.
Proof.
  unfold atan2.
  destruct (Rlt_dec 0 0); [ lra | ]. destruct (Rlt_dec 0 0); [ lra | ]. reflexivity.
Qed.

Lemma normalized_of_unit (v : Vector3d) :
  Vec.squaredNorm v = 1 -> Vec.normalized v = v.
Proof.
  intros H. unfold Vec.normalized, Vec.norm. rewrite H.
  destruct (Rlt_dec 0 1); [ | lra ].
  rewrite sqrt_1. destruct v. unfold Vec.divide. cbn. f_equal; field.
Qed.

(** X26.  The fisheye pick ray of the window point [(x, y)] is the
    unit vector at the angle [PI * hypot x y] from the view axis
    [(0, 0, -1)], in the azimuth of [(x, y)]: away from the centre its
    horizontal part points along [(x, y)]; at the centre of the window
    it is the view axis itself.  No normalisation is left to do, and
    the field of view plays no part. *)
Theorem fisheye_pick_ray (x y : R) (o : Observer) :
  let r := hypot x y in
  let ray := getPickRayFisheye x y o in
  ray = mkVector3d (sin (PI * r) * cos (atan2 y x)) (sin (PI * r) * sin (atan2 y x))
                   (- cos (PI * r)) /\
  Vec.norm ray = 1 /\
  Vec.dot ray (mkVector3d 0 0 (-1)) = cos (PI * r) /\
  (x <> 0 \/ y <> 0 ->
   ray = mkVector3d (sin (PI * r) * (x / r)) (sin (PI * r) * (y / r)) (- cos (PI * r))) /\
  getPickRayFisheye 0 0 o = mkVector3d 0 0 (-1).
Proof.
  cbv zeta.
  assert (E : forall a b,
             getPickRayFisheye a b o =
             mkVector3d (sin (PI * hypot a b) * cos (atan2 b a))
                        (sin (PI * hypot a b) * sin (atan2 b a))
                        (- cos (PI * hypot a b))).
  { intros a b. unfold getPickRayFisheye. cbv zeta.
    apply normalized_of_unit.
    unfold Vec.squaredNorm, Vec.dot. cbn [vx vy vz].
    pose proof (sin2_cos2 (PI * hypot a b)) as H1.
    pose proof (sin2_cos2 (atan2 b a)) as H2.
    unfold Rsqr in H1, H2. nra. }
  rewrite !E.
  split; [ reflexivity | ].
  split.
  { unfold Vec.norm.
    replace (Vec.squaredNorm _) with 1; [ apply sqrt_1 | ].
    unfold Vec.squaredNorm, Vec.dot. cbn [vx vy vz].
    pose proof (sin2_cos2 (PI * hypot x y)) as H1.
    pose proof (sin2_cos2 (atan2 y x)) as H2.
    unfold Rsqr in H1, H2. nra. }
  split; [ unfold Vec.dot; cbn [vx vy vz]; ring | ].
  split.
  - intros Hxy. destruct (atan2_direction x y Hxy) as [Hc Hs].
    rewrite Hc, Hs. reflexivity.
  - rewrite hypot_zero, atan2_origin, Rmult_0_r, sin_0, cos_0. f_equal; ring.
Qed.

(** X25.  The pick ray of the window point [(x, y)] is a unit vector
    that points into the screen (negative z), whose slopes in x and y
    against the view axis are [x] and [y] times [2 * tan (fov / 2)];
    the centre of the window picks along the view axis
    [(0, 0, -1)]. *)
Theorem pick_ray_unit (x y : R) (o : Observer) :
  let s := 2 * tan (fov o / 2.0) in
  let n := sqrt (x * s * (x * s) + y * s * (y * s) + 1) in
  let ray := getPickRay x y o in
  ray = mkVector3d (x * s / n) (y * s / n) (- 1 / n) /\
  Vec.norm ray = 1 /\ vz ray < 0 /\
  vx ray / - vz ray = x * s /\ vy ray / - vz ray = y * s /\
  getPickRay 0 0 o = mkVector3d 0 0 (-1).
Proof.
  cbv zeta.
  assert (Hsq : forall a b,
             Vec.squaredNorm (mkVector3d a b (- 1.0)) = a * a + b * b + 1).
  { intros. unfold Vec.squaredNorm, Vec.dot. cbn [vx vy vz]. lra. }
  assert (E : forall a b,
             getPickRay a b o =
             mkVector3d (a * (2 * tan (fov o / 2.0)) /
                           sqrt (a * (2 * tan (fov o / 2.0)) * (a * (2 * tan (fov o / 2.0)))
                                 + b * (2 * tan (fov o / 2.0)) * (b * (2 * tan (fov o / 2.0))) + 1))
                        (b * (2 * tan (fov o / 2.0)) /
                           sqrt (a * (2 * tan (fov o / 2.0)) * (a * (2 * tan (fov o / 2.0)))
                                 + b * (2 * tan (fov o / 2.0)) * (b * (2 * tan (fov o / 2.0))) + 1))
                        (- 1 /
                           sqrt (a * (2 * tan (fov o / 2.0)) * (a * (2 * tan (fov o / 2.0)))
                                 + b * (2 * tan (fov o / 2.0)) * (b * (2 * tan (fov o / 2.0))) + 1))).
  { intros a b. unfold getPickRay. cbv zeta. unfold Vec.normalized, Vec.norm.
    rewrite Hsq.
    destruct (Rlt_dec 0 _) as [_ | N]; [ | exfalso; apply N; nra ].
    unfold Vec.divide. cbn [vx vy vz]. f_equal. lra. }
  set (s := 2 * tan (fov o / 2.0)) in *.
  assert (Hn : 0 < sqrt (x * s * (x * s) + y * s * (y * s) + 1)).
  { apply sqrt_lt_R0. nra. }
  split; [ apply E | ].
  split.
  { unfold getPickRay. cbv zeta. fold s. apply norm_normalized. rewrite Hsq. nra. }
  rewrite E. cbn [vx vy vz].
  set (n := sqrt (x * s * (x * s) + y * s * (y * s) + 1)) in *.
  split.
  { unfold Rdiv. assert (0 < / n) by (apply Rinv_0_lt_compat; exact Hn). nra. }
  split; [ field; lra | ].
  split; [ field; lra | ].
  rewrite E.
  replace (0 * s * (0 * s) + 0 * s * (0 * s) + 1) with 1 by ring.
  rewrite sqrt_1. f_equal; field.
Qed.



Lemma tan_shift (a : R) : cos a <> 0 -> tan (a + PI) = tan a.
Proof.
  intros H. unfold tan. rewrite neg_sin, neg_cos. field. exact H.
Qed.

Lemma atan2_polar (rho theta : R) :
  0 < rho -> - PI < theta <= PI ->
  atan2 (rho * sin theta) (rho * cos theta) = theta.
Proof.
  intros Hrho [Hlo Hhi].
  pose proof PI_RGT_0 as Hpi.
  assert (Hq : forall c, c <> 0 -> rho * sin theta / (rho * c) = sin theta / c).
  { intros c Hc. field. split; lra. }
  unfold atan2.
  destruct (Rlt_dec 0 (rho * cos theta)) as [Hx | Hx].
  - assert (Hc : 0 < cos theta) by nra.
    rewrite Hq by lra. fold (tan theta).
    apply atan_tan.
    (* theta lies in the open right half *)
    destruct (Rle_dec theta (- (PI / 2))) as [H1 | H1].
    + exfalso.
      assert (cos (theta + PI) = - cos theta) by apply neg_cos.
      assert (0 <= cos (theta + PI)).
      { apply cos_ge_0; lra. }
      lra.
    + destruct (Rle_dec (PI / 2) theta) as [H2 | H2].
      * exfalso.
        assert (cos theta <= 0) by (apply cos_le_0; lra). lra.
      * lra.
  - destruct (Rlt_dec (rho * cos theta) 0) as [Hx' | Hx'].
    + assert (Hc : cos theta < 0) by nra.
      rewrite Hq by lra. fold (tan theta).
      destruct (Rle_dec 0 (rho * sin theta)) as [Hy | Hy].
      * assert (Hs : 0 <= sin theta) by nra.
        (* theta in (PI/2, PI] *)
        assert (Hrange : PI / 2 < theta).
        { destruct (Rle_dec theta (PI / 2)) as [H | H]; [ | lra ].
          exfalso.
          destruct (Rle_dec (- (PI / 2)) theta).
          - assert (0 <= cos theta) by (apply cos_ge_0; lra). lra.
          - assert (sin theta < 0).
            { apply sin_lt_0_var; lra. }
            lra. }
        replace (tan theta) with (tan (theta - PI)).
        -- rewrite atan_tan by lra. ring.
        -- replace theta with ((theta - PI) + PI) at 2 by ring.
           symmetry. apply tan_shift.
           rewrite cos_minus, cos_PI, sin_PI. lra.
      * assert (Hs : sin theta < 0) by nra.
        assert (Hrange : theta < - (PI / 2)).
        { destruct (Rle_dec (- (PI / 2)) theta) as [H | H]; [ | lra ].
          exfalso.
          destruct (Rle_dec theta (PI / 2)).
          - assert (0 <= cos theta) by (apply cos_ge_0; lra). lra.
          - assert (0 <= sin theta) by (apply sin_ge_0; lra). lra. }
        rewrite <- (tan_shift theta) by lra.
        rewrite atan_tan by lra. ring.
    + assert (Hc : cos theta = 0) by nra.
      replace (rho * cos theta) with 0 by (rewrite Hc; ring).
      destruct (Rlt_dec 0 (rho * sin theta)) as [Hy | Hy].
      * assert (Hs : 0 < sin theta) by nra.
        (* cos = 0 and sin > 0 *)
        destruct (Rtotal_order theta (PI / 2)) as [H | [H | H]]; [ | lra | ].
        -- exfalso.
           destruct (Rlt_dec (- (PI / 2)) theta).
           ++ assert (0 < cos theta) by (apply cos_gt_0; lra). lra.
           ++ assert (sin theta < 0).
              { apply sin_lt_0_var; lra. }
              lra.
        -- exfalso. assert (cos theta < 0) by (apply cos_lt_0; lra). lra.
      * destruct (Rlt_dec (rho * sin theta) 0) as [Hy' | Hy'].
        -- assert (Hs : sin theta < 0) by nra.
           destruct (Rtotal_order theta (- (PI / 2))) as [H | [H | H]]; [ | lra | ].
           ++ exfalso.
              assert (cos (theta + PI) = - cos theta) by apply neg_cos.
              assert (0 < cos (theta + PI)) by (apply cos_gt_0; lra).
              lra.
           ++ exfalso.
              destruct (Rlt_dec theta (PI / 2)).
              ** assert (0 < cos theta) by (apply cos_gt_0; lra). lra.
              ** assert (0 <= sin theta) by (apply sin_ge_0; lra). lra.
        -- exfalso.
           assert (Hs : sin theta = 0) by nra.
           pose proof (sin2_cos2 theta) as H. unfold Rsqr in H. nra.
Qed.

Lemma spherical_norm (theta phi d : R) :
  0 <= d ->
  Vec.norm (Vec.scale (mkVector3d (cos theta * sin phi) (cos phi)
                                  (- sin theta * sin phi)) d) = d.
Proof.
  intros Hd. rewrite norm_scale, Rabs_right by lra.
  unfold Vec.norm.
  replace (Vec.squaredNorm
             (mkVector3d (cos theta * sin phi) (cos phi) (- sin theta * sin phi)))
    with 1.
  - rewrite sqrt_1. ring.
  - unfold Vec.squaredNorm, Vec.dot. cbn [vx vy vz].
    pose proof (sin2_cos2 theta) as H1. pose proof (sin2_cos2 phi) as H2.
    unfold Rsqr in H1, H2. nra.
Qed.

(** X27.  [getSelectionLongLat] reads back what [gotoSelectionLongLat]
    aims at.  For a non-empty selection, when the body-fixed position
    of the observer is the point at [distance > 0] in the direction of
    longitude [-PI < longitude <= PI] and latitude strictly between the
    poles -- the point [gotoSelectionLongLat] computes from these three
    numbers -- the results are [distance] and the two angles in
    degrees.  For an empty selection the three results are left as they
    were. *)
Theorem longlat_round_trip (radToDeg : R -> R) (selection : Selection)
      (out : R * R * R) (distance longitude latitude : R) (o : Observer) :
  (sel_empty selection = true ->
   getSelectionLongLat radToDeg selection out o = out) /\
  (sel_empty selection = false ->
   0 < distance -> - PI < longitude <= PI -> - (PI / 2) < latitude < PI / 2 ->
   convertFromUniversal (ObserverFrame_new BodyFixed selection Sel_Nil)
                        (positionUniv o) (simTime o) =
     UC.offsetKm UC.Zero
       (Vec.scale (mkVector3d (cos longitude * sin (- latitude + PI / 2.0))
                              (cos (- latitude + PI / 2.0))
                              (- sin longitude * sin (- latitude + PI / 2.0)))
                  distance) ->
   getSelectionLongLat radToDeg selection out o =
     (distance, radToDeg longitude, radToDeg latitude)).
Proof.
  split.
  - intros H. unfold getSelectionLongLat. rewrite H. reflexivity.
  - intros Hne Hd Hlon Hlat Hpos.
    unfold getSelectionLongLat. rewrite Hne. cbn [negb]. cbv zeta.
    unfold getTime. rewrite Hpos.
    set (phi := - latitude + PI / 2.0) in *.
    assert (Hphi : 0 < phi < PI) by (unfold phi; lra).
    assert (Hsin : 0 < sin phi) by (apply sin_gt_0; lra).
    assert (Hb : UC.offsetFromKm
                   (UC.offsetKm UC.Zero
                      (Vec.scale (mkVector3d (cos longitude * sin phi) (cos phi)
                                             (- sin longitude * sin phi)) distance))
                   UC.Zero
                 = Vec.scale (mkVector3d (cos longitude * sin phi) (cos phi)
                                         (- sin longitude * sin phi)) distance)
      by apply offsetFromKm_offsetKm.
    rewrite Hb, spherical_norm by lra.
    unfold Vec.scale. cbn [vx vy vz].
    f_equal; [ f_equal | ]; f_equal.
    + replace (- (- sin longitude * sin phi * distance))
        with (sin phi * distance * sin longitude) by ring.
      replace (cos longitude * sin phi * distance)
        with (sin phi * distance * cos longitude) by ring.
      apply atan2_polar; [ nra | exact Hlon ].
    + replace (cos phi * distance / distance) with (cos phi) by (field; lra).
      rewrite acos_cos by lra. unfold phi. lra.
Qed.

End PickRays.

(* ------------------------------------------------------------------ *)
(** ** The location filter *)

Section LocationFilter.
Context {O : CelestialObjects} {C : Collaborators}.

Lemma uint64_high_bits (x n : N) :
  (x < 2 ^ 64)%N -> (64 <= n)%N -> N.testbit x n = false.
Proof.
  intros Hx Hn.
  destruct (N.eq_dec x 0) as [-> | Hz]; [ apply N.bits_0 | ].
  apply N.bits_above_log2.
  assert (N.log2 x < 64)%N by (apply N.log2_lt_pow2; lia).
  lia.
Qed.

Lemma uint64_bounded (x : N) :
  (forall n, (64 <= n)%N -> N.testbit x n = false) -> (x < 2 ^ 64)%N.
Proof.
  intros H.
  destruct (N.lt_ge_cases x (2 ^ 64)) as [Hlt | Hge]; [ exact Hlt | ].
  exfalso.
  assert (Hpos : (0 < x)%N) by (assert (0 < 2 ^ 64)%N by (apply N.neq_0_lt_0; discriminate); lia).
  pose proof (N.bit_log2 x ltac:(lia)) as Hb.
  rewrite H in Hb; [ discriminate | ].
  apply N.log2_le_pow2; assumption.
Qed.

Lemma uint64_not_bit (x n : N) :
  N.testbit (uint64_not x) n =
  if (n <? 64)%N then negb (N.testbit x n) else N.testbit x n.
Proof.
  unfold uint64_not. rewrite N.lxor_spec.
  destruct (n <? 64)%N eqn:E.
  - apply N.ltb_lt in E. rewrite N.ones_spec_low by exact E.
    destruct (N.testbit x n); reflexivity.
  - apply N.ltb_ge in E. rewrite N.ones_spec_high by exact E.
    destruct (N.testbit x n); reflexivity.
Qed.

(** X28.  A check box of the preferences dialog writes exactly the
    bits of its flag: after [setLocationFlag(flag, state)] every bit of
    the location filter that belongs to [flag] is set when the state is
    [Qt::Checked] and cleared otherwise, and every other bit is as it
    was; the filter stays a 64-bit value.  The test with which the
    dialog initialises the box then shows the state that was set (for a
    flag that is not zero), repeating the call changes nothing, and
    putting the old filter back restores the observer. *)
Theorem location_flag_bits (flag : N) (state : Z) (o : Observer) :
  (flag < 2 ^ 64)%N -> (getLocationFilter o < 2 ^ 64)%N ->
  let isActive := Z.eqb state Qt_Checked in
  let o' := setLocationFlag flag state o in
  (forall n, N.testbit (getLocationFilter o') n =
             if N.testbit flag n then isActive else N.testbit (getLocationFilter o) n) /\
  (getLocationFilter o' < 2 ^ 64)%N /\
  N.land (getLocationFilter o') flag = (if isActive then flag else 0%N) /\
  locationFlagShown flag o' = isActive && negb (N.eqb flag 0) /\
  setLocationFlag flag state o' = o' /\
  set_locationFilter (getLocationFilter o) o' = o.
Proof.
  intros Hflag Hfilter isActive o'.
  assert (Hbits : forall n, N.testbit (getLocationFilter o') n =
             if N.testbit flag n then isActive else N.testbit (getLocationFilter o) n).
  { intros n. unfold o', setLocationFlag, setLocationFilter, getLocationFilter.
    cbv zeta. cbn [locationFilter set_locationFilter]. fold isActive.
    rewrite N.lor_spec, N.land_spec, uint64_not_bit.
    destruct (n <? 64)%N eqn:E.
    - destruct (N.testbit flag n) eqn:Ef; destruct isActive;
        rewrite ?Ef, ?N.bits_0; cbn; rewrite ?andb_false_r, ?andb_true_r, ?orb_false_r,
          ?orb_true_r; reflexivity.
    - apply N.ltb_ge in E.
      rewrite (uint64_high_bits flag n Hflag E).
      rewrite (uint64_high_bits (locationFilter o) n Hfilter E).
      destruct isActive; rewrite ?(uint64_high_bits flag n Hflag E), ?N.bits_0;
        reflexivity. }
  assert (Hbound : (getLocationFilter o' < 2 ^ 64)%N).
  { apply uint64_bounded. intros n Hn. rewrite Hbits.
    rewrite (uint64_high_bits flag n Hflag Hn).
    apply (uint64_high_bits _ n Hfilter Hn). }
  assert (Hland : N.land (getLocationFilter o') flag = (if isActive then flag else 0%N)).
  { apply N.bits_inj. intros n. rewrite N.land_spec, Hbits.
    destruct (N.testbit flag n) eqn:Ef; destruct isActive;
      rewrite ?Ef, ?N.bits_0, ?andb_false_r; reflexivity. }
  split; [ exact Hbits | split; [ exact Hbound | split; [ exact Hland | ] ] ].
  split.
  { unfold locationFlagShown. rewrite Hland.
    destruct isActive; cbn; [ reflexivity | ]. reflexivity. }
  split.
  - assert (E : getLocationFilter (setLocationFlag flag state o') = getLocationFilter o').
    { apply N.bits_inj. intros n.
      unfold setLocationFlag at 1, setLocationFilter, getLocationFilter at 1.
      cbv zeta. cbn [locationFilter set_locationFilter]. fold isActive.
      rewrite N.lor_spec, N.land_spec, uint64_not_bit.
      rewrite (Hbits n).
      destruct (n <? 64)%N eqn:En.
      - destruct (N.testbit flag n) eqn:Ef; destruct isActive;
          rewrite ?Ef, ?N.bits_0; cbn; rewrite ?andb_false_r, ?andb_true_r, ?orb_false_r,
            ?orb_true_r; reflexivity.
      - apply N.ltb_ge in En.
        rewrite (uint64_high_bits flag n Hflag En).
        rewrite (uint64_high_bits (getLocationFilter o) n Hfilter En).
        destruct isActive; rewrite ?(uint64_high_bits flag n Hflag En), ?N.bits_0,
          ?andb_false_r, ?orb_false_r, ?andb_true_r; reflexivity. }
    unfold setLocationFlag at 1. cbv zeta.
    unfold setLocationFlag at 1, setLocationFilter, getLocationFilter in E. cbv zeta in E.
    cbn [locationFilter set_locationFilter] in E.
    unfold setLocationFilter, getLocationFilter.
    rewrite E. unfold o', setLocationFlag, setLocationFilter. reflexivity.
  - unfold o', setLocationFlag, setLocationFilter, getLocationFilter.
    destruct o; reflexivity.
Qed.

End LocationFilter.

(* ------------------------------------------------------------------ *)
(** ** Spherical interpolation and the curved trajectories *)

Section Slerp.




















End Slerp.

Section Curved.
Context {O : CelestialObjects} {C : Collaborators}.







End Curved.

(* ------------------------------------------------------------------ *)
(** ** Further instances in the two small universes *)

Module MoreStaticFacts.
Import StaticWorld.
#[local] Existing Instance objects.
#[local] Existing Instance world.

(** Every frame of the static universe is a translation: its
    conversions are inverse to each other. *)
Lemma static_frames_exact (f : ObserverFrame) (t : R) : exactFrame f t.
Proof.
  unfold exactFrame, convertToUniversal, convertFromUniversal,
    convertToUniversalQ, convertFromUniversalQ.
  cbn [rf_toUniversal rf_fromUniversal rf_toUniversalQ rf_fromUniversalQ world].
  repeat split; try reflexivity; intros x;
    destruct x as [a b c],
             (sel_getPosition (getCenter (of_frame f)) t) as [a' b' c'];
    unfold UC.offsetKm, UC.offsetFromKm, UC.Zero; cbn [ux uy uz vx vy vz];
    f_equal; ring.
Qed.

Lemma cruiser_settles :
  VELOCITY_CHANGE_TIME <= realTime cruiser + 1 - beginAccelTime cruiser.
Proof.
  destruct StaticFacts.cruiser_fields as (_ & _ & _ & _ & _ & Hr & Hb & _).
  rewrite Hr, Hb. unfold VELOCITY_CHANGE_TIME. lra.
Qed.

Lemma cruiser_target_norm : 1.0e-12 <= Vec.norm (targetVelocity cruiser).
Proof.
  rewrite StaticFacts.cruiser_targetVelocity. unfold Vec.norm.
  replace (Vec.squaredNorm (mkVector3d 0 0 (-1))) with 1
    by (unfold Vec.squaredNorm, Vec.dot; cbn [vx vy vz]; ring).
  rewrite sqrt_1. lra.
Qed.

(** X4, witness: the cruiser, whose target speed was set at real time
    0, after a tick of one second. *)
Lemma update_reaches_target_velocity_witness :
  VELOCITY_CHANGE_TIME <= realTime cruiser + 1 - beginAccelTime cruiser /\
  velocity (update 1 1 cruiser) = targetVelocity cruiser.
Proof.
  split; [ exact cruiser_settles | ].
  exact (proj1 (update_reaches_target_velocity 1 1 cruiser cruiser_settles)
               cruiser_target_norm).
Defined.

(** X5, witness: the traveller on its one-second journey. *)
Lemma tick_to_arrival_time_witness :
  observerMode traveller = Travelling /\
  observerMode (update (getArrivalTime traveller - realTime traveller) 1 traveller)
  = Free.
Proof.
  split; [ exact (proj1 StaticFacts.traveller_fields) | ].
  exact (proj1 (tick_to_arrival_time 1 traveller (proj1 StaticFacts.traveller_fields))).
Defined.

Lemma voyager_accelTime : 0 < accelTime (journey voyager).
Proof.
  destruct StaticFacts.voyager_fields as (_ & Ha & _). rewrite Ha. lra.
Qed.

(** X6, witness: the voyager on its Linear journey of one kilometre. *)
Lemma linear_journey_mirrored_witness :
  traj (journey voyager) = Linear /\ 0 < accelTime (journey voyager) /\
  journeyPosition voyager 0 = from (journey voyager) /\
  journeyPosition voyager 1 = to (journey voyager).
Proof.
  split; [ exact (proj1 StaticFacts.voyager_fields) | ].
  split; [ exact voyager_accelTime | ].
  destruct (linear_journey_mirrored voyager 0.25 (proj1 StaticFacts.voyager_fields)
              voyager_accelTime) as (H0 & H1 & _).
  split; [ exact H0 | exact H1 ].
Defined.

Lemma observer0_free :
  observerMode observer0 = Free /\ sel_empty (trackObject observer0) = true /\
  0 < Quat.squaredNorm (orientation observer0).
Proof.
  rewrite StaticFacts.observer0_value. cbn [observerMode trackObject orientation].
  repeat split.
  unfold Quat.squaredNorm, Quat.Identity. cbn [qw qx qy qz]. lra.
Qed.

(** X7, witness: a tick of the fresh observer. *)
Lemma free_tick_keeps_unit_orientation_witness :
  (observerMode observer0 = Free /\ sel_empty (trackObject observer0) = true /\
   0 < Quat.squaredNorm (orientation observer0)) /\
  Quat.squaredNorm (orientation (update 1 1 observer0)) = 1.
Proof.
  split; [ exact observer0_free | ].
  exact (free_tick_keeps_unit_orientation 1 1 observer0
           (proj1 observer0_free) (proj1 (proj2 observer0_free))
           (proj2 (proj2 observer0_free))).
Defined.

(** X12, witness: from the universal frame to the ecliptical frame of
    the planet and back. *)
Lemma convert_round_trip_witness :
  let f := ObserverFrame_default in
  let g := ObserverFrame_new Ecliptical (Sel_Body planet) Sel_Nil in
  exactFrame f 0 /\ exactFrame g 0 /\
  forall uc, convert g f (convert f g uc 0) 0 = uc.
Proof.
  cbv zeta.
  split; [ apply static_frames_exact | ].
  split; [ apply static_frames_exact | ].
  destruct (convert_round_trip ObserverFrame_default
              (ObserverFrame_new Ecliptical (Sel_Body planet) Sel_Nil)
              ObserverFrame_default 0
              (static_frames_exact _ _) (static_frames_exact _ _))
    as (_ & _ & H & _).
  exact H.
Defined.

Lemma orbiter_fields :
  getPosition orbiter = mkUniversalCoord 3 0 0 /\ simTime orbiter = 0 /\
  ptr_target (frame orbiter) = ObserverFrame_new Ecliptical (Sel_Body unitBall) Sel_Nil.
Proof.
  unfold orbiter, setFrame_ref, setFrame, convertFrameCoordinates, setPosition.
  rewrite StaticFacts.observer0_value. repeat split.
Qed.

Lemma orbiter_center (selection : Selection) :
  orbitCenter 2 selection orbiter = (Sel_Body unitBall, orbiter).
Proof.
  unfold orbitCenter. destruct orbiter_fields as (_ & _ & Hf). rewrite Hf. reflexivity.
Qed.

Lemma norm_along_x (a : R) : 0 <= a -> Vec.norm (mkVector3d a 0 0) = a.
Proof.
  intros H. unfold Vec.norm.
  replace (Vec.squaredNorm (mkVector3d a 0 0)) with (Rsqr a)
    by (unfold Vec.squaredNorm, Vec.dot, Rsqr; cbn [vx vy vz]; ring).
  apply sqrt_Rsqr. exact H.
Qed.

Lemma orbiter_distance :
  Vec.norm (UC.offsetFromKm (getPosition orbiter)
                            (sel_getPosition (Sel_Body unitBall) (simTime orbiter))) = 3.
Proof.
  destruct orbiter_fields as (Hp & _). rewrite Hp.
  replace (UC.offsetFromKm (mkUniversalCoord 3 0 0)
             (sel_getPosition (Sel_Body unitBall) (simTime orbiter)))
    with (mkVector3d 3 0 0)
    by (unfold UC.offsetFromKm; cbn; unfold UC.Zero; cbn [ux uy uz]; f_equal; ring).
  apply norm_along_x. lra.
Qed.

Lemma orbiter_dolly_target :
  dollyTarget (Sel_Body unitBall) (1 + (3 - 1) * exp (ln 2)) orbiter
  = mkUniversalCoord 5 0 0.
Proof.
  unfold dollyTarget. cbv zeta. unfold getTime.
  rewrite orbiter_distance. destruct orbiter_fields as (Hp & _). rewrite Hp.
  rewrite exp_ln by lra.
  unfold UC.offsetKm, UC.offsetFromKm, Vec.scale. cbn. unfold UC.Zero.
  cbn [ux uy uz]. f_equal; field.
Qed.

(** X16, witness: the orbiter, 3 km from the centre of the unit ball,
    dollies out by [ln 2] to 5 km. *)
Lemma changeOrbitDistance_law_witness :
  Vec.norm (UC.offsetFromKm (getPosition orbiter)
                            (sel_getPosition (Sel_Body unitBall) (simTime orbiter))) = 3 /\
  Vec.norm (UC.offsetFromKm (getPosition (changeOrbitDistance 2 Sel_Nil (ln 2) orbiter))
                            (sel_getPosition (Sel_Body unitBall) (simTime orbiter))) = 5.
Proof.
  split; [ exact orbiter_distance | ].
  pose proof (changeOrbitDistance_law 2 Sel_Nil (ln 2) orbiter) as H.
  cbv zeta in H. rewrite (orbiter_center Sel_Nil) in H. cbn [fst snd] in H.
  rewrite orbiter_distance in H.
  change (sel_radius (Sel_Body unitBall)) with 1 in H.
  destruct (Rlt_dec 3 1) as [Hlt | _]; [ exfalso; lra | ].
  rewrite orbiter_dolly_target in H.
  destruct H as (_ & _ & H & _).
  - reflexivity.
  - lra.
  - lra.
  - apply static_frames_exact.
  - apply StaticFacts.outOfBounds_small; cbn [ux uy uz]; StaticFacts.small_abs.
  - rewrite H, exp_ln by lra. lra.
Defined.

(** X17, witness: about a ball of radius 1, from 3 km, one step out and
    the same step back. *)
Lemma dolly_steps_compose_witness :
  exists n1, dollyDistance 1 3 1 = Some n1 /\ dollyDistance 1 n1 (- 1) = Some 3.
Proof.
  destruct (dolly_steps_compose 1 3 1 2 ltac:(lra) ltac:(lra))
    as ((n1 & H1 & _ & _ & _ & H2 & _) & _).
  exists n1. split; [ exact H1 | exact H2 ].
Defined.

(** X18, witness: the fresh observer centres the planet. *)
Lemma centerSelection_turns_in_place_witness :
  sel_empty (Sel_Body planet) = false /\
  forall t, journeyPosition (centerSelection (Sel_Body planet) 1 observer0) t
            = from (journey (centerSelection (Sel_Body planet) 1 observer0)).
Proof.
  split; [ reflexivity | ].
  destruct (centerSelection_turns_in_place (Sel_Body planet) 1 observer0 eq_refl)
    as (_ & _ & _ & _ & _ & _ & _ & _ & _ & _ & _ & H & _).
  exact H.
Defined.

(** X20, witness: the visitor goes to 10000 km from the planet. *)
Lemma explicit_distance_goto_witness :
  sel_empty (Sel_Body planet) = false /\
  centerObject
    (journey (gotoSelectionGC_distance 2 (Sel_Body planet) 5 10000 Vec.UnitY
                Universal visitor))
  = sel_parent (Sel_Body planet).
Proof.
  split; [ reflexivity | ].
  destruct (explicit_distance_goto 2 (Sel_Body planet) 5 10000 0 0 Vec.UnitY
              Universal visitor eq_refl) as (_ & _ & _ & H & _).
  exact H.
Defined.

(** X28, witness: the fresh observer, whose filter has all 64 bits set,
    after the box of flag 1 is unchecked. *)
Lemma location_flag_bits_witness :
  (1 < 2 ^ 64)%N /\ (getLocationFilter observer0 < 2 ^ 64)%N /\
  locationFlagShown 1 (setLocationFlag 1 0 observer0) = false.
Proof.
  assert (H1 : (1 < 2 ^ 64)%N) by reflexivity.
  assert (H2 : (getLocationFilter observer0 < 2 ^ 64)%N)
    by (rewrite StaticFacts.observer0_value; reflexivity).
  split; [ exact H1 | split; [ exact H2 | ] ].
  destruct (location_flag_bits 1 0 observer0 H1 H2) as (_ & _ & _ & H & _).
  exact H.
Defined.






(** X27, witness: the orbiter, 3 km from the centre of the unit ball on
    its x axis, is at longitude 0 and latitude 0. *)
Lemma longlat_round_trip_witness :
  getSelectionLongLat (fun r => r * (180 / PI)) (Sel_Body unitBall) (0, 0, 0) orbiter
  = (3, 0 * (180 / PI), 0 * (180 / PI)).
Proof.
  destruct (longlat_round_trip (fun r => r * (180 / PI)) (Sel_Body unitBall) (0, 0, 0)
              3 0 0 orbiter) as [_ H].
  pose proof PI_RGT_0 as Hpi.
  apply H.
  - reflexivity.
  - lra.
  - lra.
  - lra.
  - destruct orbiter_fields as (Hp & _). unfold getPosition in Hp. rewrite Hp.
    replace (- 0 + PI / 2.0) with (PI / 2) by lra.
    rewrite cos_0, sin_0, sin_PI2, cos_PI2.
    unfold convertFromUniversal. cbn.
    unfold UC.offsetKm, UC.offsetFromKm, Vec.scale, UC.Zero.
    cbn [ux uy uz vx vy vz]. f_equal; ring.
Defined.

End MoreStaticFacts.

Module BinaryFacts.
Import BinaryWorld.
#[local] Existing Instance catalogue.

(** X24, witness: the barycentre of the binary system, whose wider
    orbit has a bounding radius of 30 km. *)
Lemma barycentre_covers_orbits_witness :
  @star_getVisibility catalogue 0%nat = false /\
  5 * 30 <= @getPreferredDistance catalogue (@Sel_Star catalogue 0%nat).
Proof.
  split; [ reflexivity | ].
  destruct (@barycentre_covers_orbits catalogue 0%nat eq_refl) as (H & _).
  apply (H [1%nat; 2%nat] 2%nat 30).
  - reflexivity.
  - right; left; reflexivity.
  - reflexivity.
  - lra.
Defined.

End BinaryFacts.
